(** * cr_trichome: the snapshot pipeline of [cr_trichome/plot.py]

    A shallow embedding of [get_last_output_path], [get_all_iterations],
    [load_cells], [plot_cells], [plot_cells_at_iter] and
    [plot_cells_at_all_iterations], followed by the properties the
    specification states about them and by further properties of the code,
    among them one of the plotting step of [scripts/run_sim.py].

    Python values are modelled as follows.
    - [float] and [numpy.float64] are binary64 numbers: Rocq's primitive
      [float].
    - A [pathlib.Path] is the list of its components; [str] joins them with
      a slash and [Path(...)] splits a string again.
    - The directory tree under the working directory is a finite tree of
      named nodes; an operation that touches the disk takes the current
      tree and returns the next one.
    - A raised exception ends the computation with [Raise]; the third
      outcome, [Unmodelled], marks an input on which a library function
      (CPython, numpy, pandas) behaves in a way this development does not
      describe.  No theorem below concludes anything from [Unmodelled]. *)

From Stdlib Require Import ZArith List String Ascii Bool Lia Floats.
From Stdlib Require Import Sorted Permutation DecimalString OrderedTypeEx.
From Stdlib Require DecimalFacts DecimalPos DecimalN.
Import ListNotations.

#[local] Set Warnings "-register-all,-inexact-float".
Local Open Scope string_scope.
Local Open Scope list_scope.

(** ** Python: exceptions and outcomes *)

Module Py.

(** The key of a [KeyError]: a dictionary is indexed by text, a sequence
    stored under a key by a number. *)
Inductive pykey : Type :=
| KStr (s : string)
| KInt (z : Z).

(** The exception classes the pipeline can raise. *)
Inductive exn : Type :=
| ValueError
| KeyError (k : pykey)
| IndexError
| TypeError
| FileExistsError
| NotADirectoryError
| IsADirectoryError
| FileNotFoundError.

Inductive outcome (A : Type) : Type :=
| Ok (a : A)
| Raise (e : exn)
| Unmodelled.

Arguments Ok {A} a.
Arguments Raise {A} e.
Arguments Unmodelled {A}.

Definition bind {A B : Type} (m : outcome A) (k : A -> outcome B) : outcome B :=
  match m with
  | Ok a => k a
  | Raise e => Raise e
  | Unmodelled => Unmodelled
  end.

Definition is_ok {A : Type} (m : outcome A) : bool :=
  match m with Ok _ => true | _ => false end.

(** [[f(x) for x in xs]]: the elements are visited in order and the first
    failure ends the comprehension. *)
Fixpoint traverse {A B : Type} (f : A -> outcome B) (xs : list A) : outcome (list B) :=
  match xs with
  | [] => Ok []
  | x :: r => bind (f x) (fun y => bind (traverse f r) (fun ys => Ok (y :: ys)))
  end.

(** [sorted] and [numpy.sort] over a total order given by its [<=] test. *)
Section Sorting.
Context {A : Type} (le : A -> A -> bool).

Fixpoint insert (x : A) (l : list A) : list A :=
  match l with
  | [] => [x]
  | y :: r => if le x y then x :: y :: r else y :: insert x r
  end.

Definition sort (l : list A) : list A := fold_right insert [] l.
End Sorting.

(** [sorted(xs)] on a list of [str]: code-point order, which on the bytes
    of text in UTF-8, as a [string] holds it, is the byte order of
    [String.compare]. *)
Definition sorted (xs : list string) : list string := sort String.leb xs.

(** [xs[-1]] on a list. *)
Definition last_item {A : Type} (xs : list A) : outcome A :=
  match rev xs with
  | [] => Raise IndexError
  | x :: _ => Ok x
  end.

(** *** [int(s)] on text, base ten *)

(** The blanks [int] skips: tab, line feed, vertical tab, form feed,
    carriage return and space. *)
Definition is_space (c : ascii) : bool :=
  let n := N_of_ascii c in
  ((9 <=? n) && (n <=? 13) || (n =? 32))%N.

Definition digit_value (c : ascii) : option Z :=
  let n := N_of_ascii c in
  if ((48 <=? n) && (n <=? 57))%N then Some (Z.of_N n - 48)%Z else None.

Definition is_ascii (c : ascii) : bool := (N_of_ascii c <? 128)%N.

Fixpoint lstrip (cs : list ascii) : list ascii :=
  match cs with
  | c :: r => if is_space c then lstrip r else cs
  | [] => []
  end.

Definition strip (cs : list ascii) : list ascii := rev (lstrip (rev (lstrip cs))).

(** Digits, with single underscores allowed between two digits. *)
Fixpoint digits_value (acc : Z) (after_digit : bool) (cs : list ascii) : option Z :=
  match cs with
  | [] => if after_digit then Some acc else None
  | c :: r =>
      match digit_value c with
      | Some d => digits_value (10 * acc + d)%Z true r
      | None =>
          if (Ascii.eqb c "_" && after_digit)%bool then digits_value acc false r else None
      end
  end.

(** The longest number [int] reads whatever the interpreter's limit on
    digits is set to. *)
Definition max_str_digits : nat := 4300.

(** [int(s)]: surrounding white space is dropped, one sign may lead, the
    rest is decimal digits.  Text with a character outside ASCII (where
    CPython also reads other scripts' digits) is left unmodelled, and so is
    a number of more digits than [max_str_digits]. *)
Definition int (s : string) : outcome Z :=
  let cs := list_ascii_of_string s in
  if negb (forallb is_ascii cs) then Unmodelled
  else
    let body := strip cs in
    let '(neg, ds) :=
      match body with
      | c :: r =>
          if Ascii.eqb c "-" then (true, r)
          else if Ascii.eqb c "+" then (false, r)
          else (false, body)
      | [] => (false, [])
      end in
    match digits_value 0 false ds with
    | Some v =>
        if (List.length (filter (fun c => negb (Ascii.eqb c "_")) ds) <=? max_str_digits)%nat
        then Ok (if neg then (- v)%Z else v)
        else Unmodelled
    | None => Raise ValueError
    end.

(** *** ["{:020}".format(n)] *)

Fixpoint zeros (n : nat) : string :=
  match n with
  | O => ""
  | S k => String "0" (zeros k)
  end.

Definition zfill (width : nat) (s : string) : string :=
  (zeros (width - String.length s) ++ s)%string.

(** Sign-aware zero padding to twenty characters; longer numbers are
    printed in full. *)
Definition format_020 (n : Z) : string :=
  let digits := NilEmpty.string_of_uint (N.to_uint (Z.abs_N n)) in
  if (n <? 0)%Z then String "-" (zfill 19 digits) else zfill 20 digits.

End Py.

Import Py.

Declare Scope outcome_scope.
Delimit Scope outcome_scope with outcome.

Notation "x <- m ;; k" := (Py.bind m (fun x => k))
  (at level 61, m at next level, right associativity) : outcome_scope.

(** ** JSON values, as [json.load] returns them *)

Module Json.

(** A value is the Python object [json.load] returned.  A number is kept
    at the binary64 value [np.array(..., dtype=float)] gives it, the only
    use the pipeline makes of numbers.  An object stands for a [dict]; its
    members are the items of the [dict], each name read at its first
    binding in the list (a later binding of the same name is shadowed and
    stands for nothing). *)
Inductive json : Type :=
| JNull
| JBool (b : bool)
| JNum (x : float)
| JStr (s : string)
| JArr (xs : list json)
| JObj (members : list (string * json)).

Fixpoint assoc {V : Type} (k : string) (l : list (string * V)) : option V :=
  match l with
  | [] => None
  | (k', v) :: r => if String.eqb k k' then Some v else assoc k r
  end.

(** [obj[key]] with a text key. *)
Definition getitem_str (obj : json) (key : string) : outcome json :=
  match obj with
  | JObj ms =>
      match assoc key ms with
      | Some v => Ok v
      | None => Raise (KeyError (KStr key))
      end
  | _ => Raise TypeError
  end.

(** [obj[0]]. *)
Definition getitem_0 (obj : json) : outcome json :=
  match obj with
  | JArr (x :: _) => Ok x
  | JArr [] => Raise IndexError
  | JStr (String c _) => Ok (JStr (String c ""))
  | JStr "" => Raise IndexError
  | JObj _ => Raise (KeyError (KInt 0))
  | _ => Raise TypeError
  end.

Fixpoint chars (s : string) : list json :=
  match s with
  | "" => []
  | String c r => JStr (String c "") :: chars r
  end.

Fixpoint keys_once {V : Type} (seen : list string) (ms : list (string * V)) : list string :=
  match ms with
  | [] => []
  | (k, _) :: r =>
      if existsb (String.eqb k) seen then keys_once seen r
      else k :: keys_once (k :: seen) r
  end.

(** [for b in obj]: a list yields its elements, a dict its keys, text its
    characters; nothing else can be iterated. *)
Definition iterate (obj : json) : outcome (list json) :=
  match obj with
  | JArr xs => Ok xs
  | JObj ms => Ok (map JStr (keys_once [] ms))
  | JStr s => Ok (chars s)
  | _ => Raise TypeError
  end.

End Json.

Import Json.

(** ** pandas: [json_normalize] and column access *)

Module Pd.

(** One row of the table: dotted column names with their values. *)
Definition row := list (string * json).

(** Nested dictionaries are flattened to dotted names at every depth;
    lists and scalars are kept as they are.  Shadowed members are skipped. *)
Fixpoint flatten_at (name : string) (v : json) {struct v} : row :=
  match v with
  | JObj inner =>
      (fix members (seen : list string) (ms : list (string * json)) {struct ms} : row :=
         match ms with
         | [] => []
         | (k, x) :: r =>
             if existsb (String.eqb k) seen then members seen r
             else flatten_at (name ++ "." ++ k)%string x ++ members (k :: seen) r
         end) [] inner
  | _ => [(name, v)]
  end.

(** The members of the record that are no dictionary, in their order. *)
Fixpoint top_dict (seen : list string) (ms : list (string * json)) : row :=
  match ms with
  | [] => []
  | (k, x) :: r =>
      if existsb (String.eqb k) seen then top_dict seen r
      else match x with
           | JObj _ => top_dict (k :: seen) r
           | _ => (k, x) :: top_dict (k :: seen) r
           end
  end.

(** The members of the record that are dictionaries, flattened, in their order. *)
Fixpoint nested_dict (seen : list string) (ms : list (string * json)) : row :=
  match ms with
  | [] => []
  | (k, x) :: r =>
      if existsb (String.eqb k) seen then nested_dict seen r
      else match x with
           | JObj _ => flatten_at k x ++ nested_dict (k :: seen) r
           | _ => nested_dict (k :: seen) r
           end
  end.

(** The row of a record: its own fields first, then those of its nested
    dictionaries. *)
Definition flatten (ms : list (string * json)) : row :=
  top_dict [] ms ++ nested_dict [] ms.

Fixpoint distinct (names : list string) : bool :=
  match names with
  | [] => true
  | n :: r => negb (existsb (String.eqb n) r) && distinct r
  end.

(** A record becomes a row when it is a dictionary whose flattened names do
    not collide; how pandas settles a collision, and what it does with a
    record that is no dictionary, is not modelled. *)
Definition normalize_record (rec : json) : outcome row :=
  match rec with
  | JObj ms =>
      let r := flatten ms in
      if distinct (map fst r) then Ok r else Unmodelled
  | _ => Unmodelled
  end.

(** The table: its rows, in order.  A column exists when some row has it. *)
Definition DataFrame := list row.

Definition json_normalize (records : list json) : outcome DataFrame :=
  traverse normalize_record records.

Definition has_column (df : DataFrame) (col : string) : bool :=
  existsb (fun r => match assoc col r with Some _ => true | None => false end) df.

(** [df[col]]: the column's values, [NaN] where a row lacks the column;
    [KeyError] when no row has it, as in a table without rows. *)
Definition column (df : DataFrame) (col : string) : outcome (list json) :=
  if has_column df col
  then Ok (map (fun r => match assoc col r with Some v => v | None => JNum nan end) df)
  else Raise (KeyError (KStr col)).

End Pd.

(** ** numpy: the arrays the two columns are turned into *)

Module Np.

(** A zero-dimensional or a one-dimensional array of [float64]. *)
Inductive ndarray : Type :=
| Arr0 (x : float)
| Arr1 (xs : list float).

Definition scalar (j : json) : option float :=
  match j with
  | JNum x => Some x
  | JNull => Some nan
  | JBool true => Some 1%float
  | JBool false => Some 0%float
  | _ => None
  end.

Fixpoint scalars (js : list json) : option (list float) :=
  match js with
  | [] => Some []
  | j :: r =>
      match scalar j, scalars r with
      | Some x, Some xs => Some (x :: xs)
      | _, _ => None
      end
  end.

(** [np.array(x, dtype=float)] for a number, a boolean, [None] or a flat
    list of these.  Nested lists, text and dictionaries are not modelled. *)
Definition array_float (x : json) : outcome ndarray :=
  match x with
  | JArr js =>
      match scalars js with
      | Some xs => Ok (Arr1 xs)
      | None => Unmodelled
      end
  | _ =>
      match scalar x with
      | Some v => Ok (Arr0 v)
      | None => Unmodelled
      end
  end.

Definition ravel (a : ndarray) : list float :=
  match a with
  | Arr0 x => [x]
  | Arr1 xs => xs
  end.

(** A two-dimensional view of a buffer: element [(i, j)] sits at offset
    [i * row_stride + j * col_stride]. *)
Record matrix : Type := {
  nrows : nat;
  ncols : nat;
  row_stride : nat;
  col_stride : nat;
  buffer : list float
}.

(** [a.reshape((2, -1))]: the unknown dimension is [size / 2], and a size
    that two does not divide is a [ValueError]; the rows are the two halves
    of the buffer in C order. *)
Definition reshape_2 (a : ndarray) : outcome matrix :=
  let data := ravel a in
  let size := List.length data in
  if Nat.eqb (size mod 2) 0
  then Ok {| nrows := 2; ncols := size / 2;
             row_stride := size / 2; col_stride := 1; buffer := data |}
  else Raise ValueError.

(** [m.T]: shape and strides are swapped over the same buffer. *)
Definition T (m : matrix) : matrix :=
  {| nrows := ncols m; ncols := nrows m;
     row_stride := col_stride m; col_stride := row_stride m;
     buffer := buffer m |}.

Definition item (m : matrix) (i j : nat) : float :=
  nth (i * row_stride m + j * col_stride m) (buffer m) 0%float.

(** The rows of a matrix, each a list of its entries. *)
Definition rows (m : matrix) : list (list float) :=
  map (fun i => map (item m i) (seq 0 (ncols m))) (seq 0 (nrows m)).

(** [np.sort(np.array(ns))] on a list of Python integers.  The array holds
    them as [int64]; a list with a number outside that range gets another
    element type from numpy, which is not modelled. *)
Definition in_int64 (n : Z) : bool :=
  ((- 2 ^ 63 <=? n) && (n <? 2 ^ 63))%Z.

Definition sort_ints (ns : list Z) : outcome (list Z) :=
  if forallb in_int64 ns then Ok (Py.sort Z.leb ns) else Unmodelled.

(** [a[2]] on what the column holds for [a].  A one-dimensional array is
    indexed.  For a zero-dimensional result pandas may store the bare
    number instead of the array, and which exception indexing it raises is
    not modelled. *)
Definition getitem_2 (a : ndarray) : outcome float :=
  match a with
  | Arr0 _ => Unmodelled
  | Arr1 xs =>
      match nth_error xs 2 with
      | Some x => Ok x
      | None => Raise IndexError
      end
  end.

End Np.

(** ** matplotlib: colours, patches, axes *)

Module Mpl.

(** What a colormap is called with: [viridis(0)] passes an [int],
    [viridis(x)] with a [float64] passes a value of the colour scale. *)
Inductive cmap_arg : Type :=
| CInt (i : Z)
| CFloat (x : float).

Definition rgba : Type := float * float * float * float.

(** [mpatches.Polygon(pos, facecolor=c, edgecolor='white')]. *)
Record patch : Type := {
  xy : list (list float);
  facecolor : rgba;
  edgecolor : string
}.

Record axes : Type := {
  xlim : float * float;
  ylim : float * float;
  axis_on : bool;
  patches : list patch
}.

(** The axes of [plt.subplots(figsize=(12, 12))]. *)
Definition subplots : axes :=
  {| xlim := (0, 1)%float; ylim := (0, 1)%float; axis_on := true; patches := [] |}.

Definition set_xlim (lo hi : float) (ax : axes) : axes :=
  {| xlim := (lo, hi); ylim := ylim ax; axis_on := axis_on ax; patches := patches ax |}.

Definition set_ylim (lo hi : float) (ax : axes) : axes :=
  {| xlim := xlim ax; ylim := (lo, hi); axis_on := axis_on ax; patches := patches ax |}.

Definition set_axis_off (ax : axes) : axes :=
  {| xlim := xlim ax; ylim := ylim ax; axis_on := false; patches := patches ax |}.

Definition add_patch (p : patch) (ax : axes) : axes :=
  {| xlim := xlim ax; ylim := ylim ax; axis_on := axis_on ax;
     patches := patches ax ++ [p] |}.

(** What [fig.savefig(path, transparent=...)] writes. *)
Record image : Type := {
  drawn : axes;
  transparent_background : bool
}.

End Mpl.

(** ** Paths and the directory tree *)

Module Fs.

Definition path : Type := list string.

(** [str(p)]. *)
Definition str (p : path) : string :=
  match p with
  | [] => "."
  | _ => String.concat "/" p
  end.

Fixpoint split_slash (s : string) : list string :=
  match s with
  | "" => [""]
  | String c r =>
      if Ascii.eqb c "/" then "" :: split_slash r
      else
        match split_slash r with
        | h :: t => String c h :: t
        | [] => [String c ""]
        end
  end.

(** [Path(s)]: the components between slashes; empty ones and ["."] are
    dropped.  Every path is taken from the working directory. *)
Definition Path (s : string) : path :=
  filter (fun c => negb (String.eqb c "" || String.eqb c ".")) (split_slash s).

(** [p.name]: the last component. *)
Definition name (p : path) : string := last p "".

Inductive content : Type :=
| Doc (j : json)
| Picture (img : Mpl.image)
| Blob.

Inductive node : Type :=
| File (c : content)
| Dir (entries : list (string * node)).

Fixpoint set_entry (k : string) (v : node) (es : list (string * node)) : list (string * node) :=
  match es with
  | [] => [(k, v)]
  | (k', v') :: r =>
      if String.eqb k k' then (k, v) :: r else (k', v') :: set_entry k v r
  end.

(** The node a path leads to from [n].  Every component is looked up as the
    name of an entry: the tree has no links, and [..] is not resolved to a
    parent (see [glob]). *)
Fixpoint walk (n : node) (p : path) : option node :=
  match p with
  | [] => Some n
  | c :: r =>
      match n with
      | Dir es =>
          match assoc c es with
          | Some m => walk m r
          | None => None
          end
      | File _ => None
      end
  end.

(** [p.exists()]. *)
Definition exists_ (root : node) (p : path) : bool :=
  match walk root p with Some _ => true | None => false end.

(** [p.mkdir(parents=True, exist_ok=True)]: missing directories are
    created along the path; an existing directory is left alone; a file in
    the way is an error and nothing is created. *)
Fixpoint mkdir (n : node) (p : path) : outcome node :=
  match p with
  | [] =>
      match n with
      | Dir _ => Ok n
      | File _ => Raise FileExistsError
      end
  | c :: r =>
      match n with
      | File _ => Raise NotADirectoryError
      | Dir es =>
          let child := match assoc c es with Some m => m | None => Dir [] end in
          (m <- mkdir child r ;; Ok (Dir (set_entry c m es)))%outcome
      end
  end.

(** Opening [p] for writing and storing [c]: the file is created in an
    existing directory or replaced. *)
Fixpoint write (n : node) (p : path) (c : content) : outcome node :=
  match p with
  | [] =>
      match n with
      | Dir _ => Raise IsADirectoryError
      | File _ => Ok (File c)
      end
  | k :: r =>
      match n with
      | File _ => Raise NotADirectoryError
      | Dir es =>
          match assoc k es with
          | Some m => (m' <- write m r c ;; Ok (Dir (set_entry k m' es)))%outcome
          | None =>
              match r with
              | [] => Ok (Dir (set_entry k (File c) es))
              | _ => Raise FileNotFoundError
              end
          end
      end
  end.

(** The two patterns the pipeline globs with: ["*"] and ["*.json"]. *)
Inductive pattern : Type :=
| Star
| StarSuffix (suffix : string).

Definition hidden (n : string) : bool :=
  match n with
  | String c _ => Ascii.eqb c "."
  | "" => false
  end.

Definition ends_with (suffix s : string) : bool :=
  let n := String.length s in
  let m := String.length suffix in
  (m <=? n)%nat && String.eqb (substring (n - m) m s) suffix.

Definition matches (pat : pattern) (n : string) : bool :=
  negb (hidden n) &&
  match pat with
  | Star => true
  | StarSuffix suffix => ends_with suffix n
  end.

(** The names in directory [dir], in the order the system lists them. *)
Definition listdir (root : node) (dir : path) : list string :=
  match walk root dir with
  | Some (Dir es) => keys_once [] es
  | _ => []
  end.

(** The names [glob] matches in [dir]: names that start with a dot are
    never matched; files and directories alike are. *)
Definition listing (root : node) (dir : path) (pat : pattern) : list string :=
  filter (matches pat) (listdir root dir).

(** A component that is not looked up as the name of an entry: one with a
    character [glob] reads as a pattern, or [..], which the system resolves
    to the parent directory. *)
Definition has_magic (c : string) : bool :=
  String.eqb c ".." ||
  existsb (fun a => Ascii.eqb a "*" || Ascii.eqb a "?" || Ascii.eqb a "[")
          (list_ascii_of_string c).

(** [glob(str(dir / pat))]: the matches, each as the text of its path.  The
    directory is taken by its components' names, as [walk] does; a directory
    whose path holds a pattern character is searched as a pattern by [glob],
    and one whose path goes through [..] is resolved by the system: neither
    is modelled. *)
Definition glob (root : node) (dir : path) (pat : pattern) : outcome (list string) :=
  if existsb has_magic dir then Unmodelled
  else Ok (map (fun n => str (dir ++ [n])) (listing root dir pat)).

End Fs.

Import Fs.

(** ** The pipeline's state: the disk and a record of what was done *)

(** The record is ghost state, kept to state what a call did not do: a
    call of [get_last_output_path], a call of [load_cells] past the
    resolution of the run, a file opened, a figure begun, a figure saved. *)
Inductive event : Type :=
| Resolve (search_path : path)
| Load (iteration : Z) (output_path : path)
| Read (file : string)
| Draw (cells : nat)
| Save (file : path).

Record world : Type := {
  root : node;
  log : list event
}.

Definition M (A : Type) : Type := world -> outcome A * world.

Definition ret {A : Type} (a : A) : M A := fun w => (Ok a, w).

Definition raise {A : Type} (e : exn) : M A := fun w => (Raise e, w).

Definition lift {A : Type} (m : outcome A) : M A := fun w => (m, w).

Definition bindM {A B : Type} (m : M A) (k : A -> M B) : M B :=
  fun w =>
    match m w with
    | (Ok a, w') => k a w'
    | (Raise e, w') => (Raise e, w')
    | (Unmodelled, w') => (Unmodelled, w')
    end.

Definition emit (e : event) : M unit :=
  fun w => (Ok tt, {| root := root w; log := log w ++ [e] |}).

Definition disk : M node := fun w => (Ok (root w), w).

Definition set_disk (n : node) : M unit :=
  fun w => (Ok tt, {| root := n; log := log w |}).

Declare Scope world_scope.
Delimit Scope world_scope with world.

Notation "x <- m ;; k" := (bindM m (fun x => k))
  (at level 61, m at next level, right associativity) : world_scope.
Notation "m ;; k" := (bindM m (fun _ => k))
  (at level 61, right associativity) : world_scope.

(** [for x in xs: body(x)], collecting what the bodies return. *)
Fixpoint for_each {A B : Type} (body : A -> M B) (xs : list A) : M (list B) :=
  match xs with
  | [] => ret []
  | x :: r => (y <- body x ;; ys <- for_each body r ;; ret (y :: ys))%world
  end.

(** ** [cr_trichome/plot.py] *)

Module Plot.

Local Open Scope world_scope.

(** The default of [search_path]: [Path("out/cr_trichome")]. *)
Definition default_search_path : path := ["out"; "cr_trichome"].

(** [get_last_output_path]: the entries of [search_path] are globbed and
    sorted as text; none is a [ValueError], otherwise the last is returned
    as a path. *)
Definition get_last_output_path (search_path : path) : M path :=
  emit (Resolve search_path) ;;
  d <- disk ;;
  found <- lift (glob d search_path Star) ;;
  let folders := Py.sorted found in
  if Nat.eqb (List.length folders) 0
  then raise ValueError
  else (f <- lift (last_item folders) ;; ret (Path f)).

(** [if output_path is None: output_path = get_last_output_path()]. *)
Definition or_last_output_path (output_path : option path) : M path :=
  match output_path with
  | None => get_last_output_path default_search_path
  | Some p => ret p
  end.

(** [get_all_iterations]: the entries of [cells/json] are globbed, the name
    of each is read by [int], and the numbers are sorted by numpy. *)
Definition get_all_iterations (output_path : option path) : M (list Z) :=
  output_path <- or_last_output_path output_path ;;
  d <- disk ;;
  folders <- lift (glob d (output_path ++ ["cells"; "json"]) Star) ;;
  ns <- lift (traverse (fun f => Py.int (name (Path f))) folders) ;;
  lift (Np.sort_ints ns).

(** The table [load_cells] returns: the normalized frame, with the two
    columns the loader replaces held as arrays. *)
Record cells : Type := {
  frame : Pd.DataFrame;
  points : list Np.matrix;
  intracellular : list Np.ndarray
}.

(** [f = open(file); json.load(f)]: a file that holds no JSON document is
    a [ValueError] (the class [JSONDecodeError] and [UnicodeDecodeError]
    derive from). *)
Definition json_load (file : string) : M json :=
  emit (Read file) ;;
  d <- disk ;;
  match walk d (Path file) with
  | Some (File (Doc j)) => ret j
  | Some (File _) => raise ValueError
  | Some (Dir _) => raise IsADirectoryError
  | None => raise FileNotFoundError
  end.

(** [[b["element"][0] for b in batch["data"]]]. *)
Definition elements (batch : json) : outcome (list json) :=
  (data <- getitem_str batch "data" ;;
   bs <- iterate data ;;
   traverse (fun b => e <- getitem_str b "element" ;; getitem_0 e) bs)%outcome.

(** [lambda x: np.array(x, dtype=float).reshape((2, -1)).T]. *)
Definition reshape_points (x : json) : outcome Np.matrix :=
  (a <- Np.array_float x ;;
   m <- Np.reshape_2 a ;;
   Ok (Np.T m))%outcome.

(** The body of the loop of [load_cells]: the records of one shard. *)
Definition read_shard (file : string) : M (list json) :=
  batch <- json_load file ;;
  lift (elements batch).

(** The loop of [load_cells]: the records of every shard of the iteration,
    in the order [glob] lists the shards. *)
Definition read_records (iteration : Z) (output_path : path) : M (list json) :=
  d <- disk ;;
  files <- lift (glob d (output_path ++ ["cells"; "json"; format_020 iteration])
                      (StarSuffix ".json")) ;;
  batches <- for_each read_shard files ;;
  ret (List.concat batches).

(** The rest of [load_cells]: the frame and its two converted columns. *)
Definition to_table (results : list json) : outcome cells :=
  (df <- Pd.json_normalize results ;;
   xs <- Pd.column df "cell.mechanics.points" ;;
   pts <- traverse reshape_points xs ;;
   ys <- Pd.column df "cell.intracellular" ;;
   ics <- traverse Np.array_float ys ;;
   Ok {| frame := df; points := pts; intracellular := ics |})%outcome.

(** [load_cells]: the run is resolved when none is given, the shards of
    the iteration are read and the table is built. *)
Definition load_cells (iteration : Z) (output_path : option path) : M cells :=
  output_path <- or_last_output_path output_path ;;
  emit (Load iteration output_path) ;;
  results <- read_records iteration output_path ;;
  lift (to_table results).

Section Rendering.

(** [mpl.colormaps['viridis'].resampled(255)], called with an [int] or a
    [float64]. *)
Variable viridis : Mpl.cmap_arg -> Mpl.rgba.

Definition threshold (intra_low intra_high : float) : float :=
  (intra_low + 0.5 * (intra_high - intra_low))%float.

(** The body of the loop of [plot_cells] up to the colour [c]. *)
Definition cell_color (intra_low intra_high : float) (intracellular : Np.ndarray)
  : outcome Mpl.rgba :=
  (t <- Np.getitem_2 intracellular ;;
   if (t <? threshold intra_low intra_high)%float
   then Ok (viridis (Mpl.CInt 0))
   else Ok (viridis (Mpl.CFloat ((t - intra_low) / (intra_high - intra_low))%float)))%outcome.

(** The loop of [plot_cells] over the zipped columns: each cell becomes a
    polygon with its colour and a white edge, added to the axes. *)
Fixpoint plot_rows (ax : Mpl.axes) (rows : list (Np.matrix * Np.ndarray))
    (intra_low intra_high : float) : outcome Mpl.axes :=
  match rows with
  | [] => Ok ax
  | (pos, intracellular) :: rest =>
      (c <- cell_color intra_low intra_high intracellular ;;
       let polygon := {| Mpl.xy := Np.rows pos; Mpl.facecolor := c;
                         Mpl.edgecolor := "white" |} in
       plot_rows (Mpl.add_patch polygon ax) rest intra_low intra_high)%outcome
  end.

Definition plot_cells (ax : Mpl.axes) (df_cells : cells)
    (intra_low intra_high : float) : outcome Mpl.axes :=
  plot_rows ax (combine (points df_cells) (intracellular df_cells))
            intra_low intra_high.

(** ["snapshot-{:020}.png".format(iteration)]. *)
Definition snapshot_name (iteration : Z) : string :=
  ("snapshot-" ++ format_020 iteration ++ ".png")%string.

(** [fig.savefig(save_path, transparent=transparent)]. *)
Definition savefig (ax : Mpl.axes) (save_path : path) (transparent : bool) : M unit :=
  emit (Save save_path) ;;
  d <- disk ;;
  d' <- lift (write d save_path
                (Picture {| Mpl.drawn := ax; Mpl.transparent_background := transparent |})) ;;
  set_disk d'.

(** [if save_path is None: save_path = output_path / "images"]. *)
Definition snapshot_dir (output_path : path) (save_path : option path) : path :=
  match save_path with
  | None => output_path ++ ["images"]
  | Some p => p
  end.

(** [plot_cells_at_iter]: the run is resolved, the directory of the
    snapshots is made, and a snapshot that exists is returned at once when
    [overwrite is False]; otherwise the cells are loaded, drawn on axes of
    800 by 800 without frame, and saved. *)
Definition plot_cells_at_iter (iteration : Z) (intra_low intra_high : float)
    (output_path save_path : option path) (overwrite transparent : bool) : M path :=
  output_path <- or_last_output_path output_path ;;
  let save_path := snapshot_dir output_path save_path in
  d <- disk ;;
  d' <- lift (mkdir d save_path) ;;
  set_disk d' ;;
  let save_path := save_path ++ [snapshot_name iteration] in
  d <- disk ;;
  if exists_ d save_path && negb overwrite
  then ret save_path
  else
    cells <- load_cells iteration (Some output_path) ;;
    let ax := Mpl.set_axis_off
                (Mpl.set_ylim 0 800 (Mpl.set_xlim 0 800 Mpl.subplots)) in
    emit (Draw (List.length (points cells))) ;;
    ax <- lift (plot_cells ax cells intra_low intra_high) ;;
    savefig ax save_path transparent ;;
    ret save_path.

(** One element of [arguments]: the positional arguments and the keyword
    arguments of a call of [plot_cells_at_iter]. *)
Record kwargs : Type := {
  output_path : option path;
  save_path : option path;
  overwrite : bool;
  transparent : bool
}.

Definition job : Type := (Z * float * float) * kwargs.

Definition __plotting_helper (args_kwargs : job) : M path :=
  let '((it, lo, hi), kw) := args_kwargs in
  plot_cells_at_iter it lo hi (output_path kw) (save_path kw) (overwrite kw) (transparent kw).

(** *** [mp.Pool().imap]

    The workers finish their jobs in an order the pool does not fix.  A
    schedule is a list of choices: each names, among the jobs still
    pending, the one that finishes next (counted modulo their number; a
    schedule that runs out chooses the first).  Every job is run once, as
    a whole, against the disk the earlier ones left; what it returned or
    raised is stored under its index.  Every job is run to its end, also
    when an earlier index holds an exception: the disk after a batch that
    raised is the one all jobs would leave, which the pool, discarded with
    jobs still pending, need not reach. *)
Fixpoint remove_nth {A : Type} (k : nat) (l : list A) : list A :=
  match l, k with
  | [], _ => []
  | _ :: r, O => r
  | x :: r, S k' => x :: remove_nth k' r
  end.

Fixpoint complete {A B : Type} (f : A -> M B) (fuel : nat) (schedule : list nat)
    (pending : list (nat * A)) (w : world) : list (nat * outcome B) * world :=
  match fuel with
  | O => ([], w)
  | S fuel' =>
      let k := (hd O schedule mod List.length pending)%nat in
      match nth_error pending k with
      | None => ([], w)
      | Some (i, a) =>
          let '(r, w') := f a w in
          let '(done, w'') :=
            complete f fuel' (tl schedule) (remove_nth k pending) w' in
          ((i, r) :: done, w'')
      end
  end.

Fixpoint find_result {B : Type} (i : nat) (done : list (nat * outcome B)) : outcome B :=
  match done with
  | [] => Unmodelled
  | (j, r) :: rest => if Nat.eqb i j then r else find_result i rest
  end.

(** An index under which nothing is stored has no result to hand out; no
    schedule leaves one. *)
(** [list(pool.imap(f, xs))]: the results are handed out by index, and
    the first one that is an exception is raised. *)
Definition imap_list {A B : Type} (schedule : list nat) (f : A -> M B) (xs : list A)
  : M (list B) :=
  fun w =>
    let '(done, w') :=
      complete f (List.length xs) schedule (combine (seq 0 (List.length xs)) xs) w in
    (traverse (fun i => find_result i done) (seq 0 (List.length xs)), w').

(** The list [arguments] of [plot_cells_at_all_iterations]. *)
Definition arguments (iterations : list Z) (intra_min intra_max : float)
    (output_path : path) (save_path : option path) (overwrite transparent : bool)
  : list job :=
  map (fun it =>
         ((it, intra_min, intra_max),
          {| output_path := Some output_path; save_path := save_path;
             overwrite := overwrite; transparent := transparent |}))
      iterations.

(** [plot_cells_at_all_iterations]: the run is resolved when none is
    given, its iterations are listed, and one job per iteration is handed
    to the pool. *)
Definition plot_cells_at_all_iterations (schedule : list nat)
    (intra_min intra_max : float) (output_path save_path : option path)
    (overwrite transparent : bool) : M (list path) :=
  output_path <- or_last_output_path output_path ;;
  iterations <- get_all_iterations (Some output_path) ;;
  imap_list schedule __plotting_helper
    (arguments iterations intra_min intra_max output_path save_path overwrite transparent).

End Rendering.

End Plot.

Import Plot.

(** ** [scripts/run_sim.py] *)

Module Run_sim.

(** The last statement of the script,
    [crt.plot_cells_at_all_iterations(0.0, 4.0, overwrite=True,
    transparent=True)].  The statements before it build the settings and
    run the simulation, which is compiled code outside [plot.py]; the disk
    they leave is the state the plots are made from. *)
Definition plot_step (viridis : Mpl.cmap_arg -> Mpl.rgba) (schedule : list nat)
  : M (list path) :=
  plot_cells_at_all_iterations viridis schedule 0 4 None None true true.

End Run_sim.

(** ** Sample data

    A small output tree in the layout the simulation writes, used where a
    property is run on concrete input. *)

Module Sample.

(** A colormap to run the renderer with: black for the index [0], a grey
    of the given level otherwise. *)
Definition grey (a : Mpl.cmap_arg) : Mpl.rgba :=
  match a with
  | Mpl.CInt _ => (0, 0, 0, 1)%float
  | Mpl.CFloat x => (x, x, x, 1)%float
  end.

(** One stored cell: its outline as a flat coordinate list and its
    intracellular vector. *)
Definition cell (pts ic : list float) : json :=
  JObj [("identifier", JArr [JNum 0; JNum 1]);
        ("cell", JObj [("mechanics", JObj [("points", JArr (map JNum pts));
                                           ("damping", JNum 1)]);
                       ("intracellular", JArr (map JNum ic))])].

(** A shard file: every record wrapped as the first entry of ["element"]. *)
Definition shard (recs : list json) : node :=
  File (Doc (JObj [("data", JArr (map (fun r => JObj [("element", JArr [r; JNull])]) recs))])).

Definition triangle : json := cell [1; 2; 3; 4; 5; 6]%float [0; 0; 1.5]%float.
Definition segment : json := cell [1; 2; 3; 4]%float [0; 0; 2]%float.
Definition bright : json := cell [7; 8; 9; 10]%float [0; 0; 4; 7]%float.

(** A run with the iterations 5, 1 and 3, listed in that order. *)
Definition run : node :=
  Dir [("cells", Dir [("json", Dir [
    ("00000000000000000005", Dir [("batch_0.json", shard [triangle])]);
    ("00000000000000000001", Dir [("batch_0.json", shard [segment]);
                                  ("batch_1.json", shard [bright])]);
    ("00000000000000000003", Dir [("batch_0.json", shard [segment])])])])].

Definition tree : node :=
  Dir [("out", Dir [("cr_trichome", Dir [
    ("2024-07-31-T17-34-27", Dir []);
    ("2024-07-31-T17-34-57", run);
    ("2024-07-31-T17-34-40", Dir [])])]);
       ("empty", Dir [])].

(** Two iteration directories, listed out of order. *)
Definition two_iterations : node :=
  Dir [("run", Dir [("cells", Dir [("json", Dir [
    ("00000000000000000003", Dir []);
    ("00000000000000000001", Dir [])])])])].

(** Two directory names that differ and spell the same number. *)
Definition same_number_twice : node :=
  Dir [("run", Dir [("cells", Dir [("json", Dir [
    ("00000000000000000001", Dir []);
    ("1", Dir [])])])])].

(** Iteration 7 of a run, holding the given directory entries. *)
Definition iteration_7 (entries : list (string * node)) : node :=
  Dir [("run", Dir [("cells", Dir [("json", Dir [
    ("00000000000000000007", Dir entries)])])])].

(** A stored cell without its outline. *)
Definition cell_without_points : json :=
  JObj [("identifier", JArr [JNum 0; JNum 1]);
        ("cell", JObj [("mechanics", JObj [("damping", JNum 1)]);
                       ("intracellular", JArr (map JNum [0; 0; 1]%float))])].

Definition no_shards : node := iteration_7 [].
Definition no_records : node := iteration_7 [("batch_0.json", shard [])].
Definition records_without_points : node :=
  iteration_7 [("batch_0.json", shard [cell_without_points])].

(** A cell with an outline of two points and an intracellular vector of
    two entries. *)
Definition short_vector : node :=
  iteration_7 [("batch_0.json", shard [cell [1; 2; 3; 4]%float [0; 1]%float])].

(** A cell whose coordinate list has three entries. *)
Definition odd_outline : node :=
  iteration_7 [("batch_0.json", shard [cell [1; 2; 3]%float [0; 0; 1]%float])].

(** A run with one iteration, before and after its snapshot was made, and
    a run whose second iteration has no shard. *)
Definition one_iteration (images : list (string * node)) : node :=
  Dir [("run", Dir (("cells", Dir [("json", Dir [
    ("00000000000000000001", Dir [("batch_0.json", shard [segment])])])]) :: images))].

Definition not_rendered : node := one_iteration [].

Definition rendered : node :=
  one_iteration [("images", Dir [("snapshot-00000000000000000001.png", File Blob)])].

Definition second_iteration_empty : node :=
  Dir [("run", Dir [("cells", Dir [("json", Dir [
    ("00000000000000000001", Dir [("batch_0.json", shard [segment])]);
    ("00000000000000000002", Dir [])])])])].

Definition world_of (t : node) : world := {| root := t; log := [] |}.

End Sample.

(** ** Notions used in the statements *)

(** A coordinate list that is a flat list of numbers. *)
Definition flat (x : json) : Prop := exists l, x = JArr (map JNum l).

Definition flat_odd (x : json) : Prop :=
  exists l, x = JArr (map JNum l) /\ Nat.odd (List.length l) = true.

Definition flat_even (x : json) : Prop :=
  exists l, x = JArr (map JNum l) /\ Nat.even (List.length l) = true.

(** An intracellular array of one dimension, and one without an entry at
    index 2. *)
Definition one_dimensional (a : Np.ndarray) : Prop := exists l, a = Np.Arr1 l.

Definition too_short (a : Np.ndarray) : Prop :=
  exists l, a = Np.Arr1 l /\ List.length l < 3.

Definition is_resolve (e : event) : bool :=
  match e with Resolve _ => true | _ => false end.

Definition is_save (e : event) : bool :=
  match e with Save _ => true | _ => false end.

Definition resolutions (l : list event) : nat := List.length (filter is_resolve l).

(** [counts n m]: on every disk, [m] extends the record, and what it adds
    holds [n] resolutions of the run. *)
Definition counts (n : nat) {A : Type} (m : M A) : Prop :=
  forall w, exists new, log (snd (m w)) = log w ++ new /\ resolutions new = n.

(** [reads_only m]: [m] leaves the disk as it is. *)
Definition reads_only {A : Type} (m : M A) : Prop :=
  forall w, root (snd (m w)) = root w.

(** A name a directory entry can have: not empty, not ["."], without a
    slash. *)
Definition proper_name (n : string) : bool :=
  negb (String.eqb n "") && negb (String.eqb n ".") &&
  negb (existsb (Ascii.eqb "/") (list_ascii_of_string n)).

(** Text on which [int] is modelled: ASCII, of at most [max_str_digits]
    characters, and a name a directory entry can have. *)
Definition plain_name (n : string) : bool :=
  proper_name n && forallb is_ascii (list_ascii_of_string n) &&
  (String.length n <=? max_str_digits)%nat.

(** ** More sample data *)

Module Cases.

(** A run whose [cells/json] holds a note beside its one iteration, and a
    hidden file. *)
Definition with_note : node :=
  Dir [("run", Dir [("cells", Dir [("json", Dir [
    (".DS_Store", File Blob);
    ("00000000000000000001", Dir []);
    ("notes.txt", File Blob)])])])].

(** The sample tree with its entries listed in another order. *)
Definition reordered : node :=
  Dir [("empty", Dir []);
       ("out", Dir [("cr_trichome", Dir [
          ("2024-07-31-T17-34-57", Dir [("cells", Dir [("json", Dir [
             ("00000000000000000003", Dir []);
             ("00000000000000000005", Dir []);
             ("00000000000000000001", Dir [])])])]);
          ("2024-07-31-T17-34-40", Dir []);
          ("2024-07-31-T17-34-27", Dir [])])])].

(** A run with one iteration in which [images] is a file. *)
Definition images_is_a_file : node := Sample.one_iteration [("images", File Blob)].

(** A run that was never written to. *)
Definition bare : node := Dir [("run", Dir [])].

(** Iteration 7 with three shards, the second without its ["data"]. *)
Definition bad_second_shard : node :=
  Sample.iteration_7 [("batch_0.json", Sample.shard [Sample.segment]);
                      ("batch_1.json", File (Doc (JObj [("meta", JNull)])));
                      ("batch_2.json", Sample.shard [Sample.triangle])].

(** A search root that holds a file and no directory. *)
Definition only_a_file : node :=
  Dir [("out", Dir [("cr_trichome", Dir [("notes.txt", File Blob)])])].

(** A search root with two runs and a file whose name sorts after theirs. *)
Definition runs_and_a_file : node :=
  Dir [("out", Dir [("cr_trichome", Dir [
    ("2024-07-31-T17-34-27", Dir []);
    ("2024-07-31-T17-34-57", Sample.run);
    ("notes.txt", File Blob)])])].

(** A search root whose only entry is a directory with a hidden name. *)
Definition only_hidden : node :=
  Dir [("out", Dir [("cr_trichome", Dir [(".2024-07-31-T17-34-57", Sample.run)])])].

(** The snapshot of iteration 1 in a directory of its own, and no run under
    the search root. *)
Definition snapshot_without_run : node :=
  Dir [("shots", Dir [("snapshot-00000000000000000001.png", File Blob)])].

End Cases.

(** What [read_shard] gives for a file on a disk: the records of the
    document stored there, or the exception opening or reading it raises. *)
Definition stored_records (d : node) (file : string) : outcome (list json) :=
  match walk d (Path file) with
  | Some (File (Doc j)) => elements j
  | Some (File _) => Raise ValueError
  | Some (Dir _) => Raise IsADirectoryError
  | None => Raise FileNotFoundError
  end.

(** The files a record says were saved, in order. *)
Definition saves (l : list event) : list path :=
  flat_map (fun e => match e with Save p => [p] | _ => [] end) l.

(** [saves_nothing m]: on every state, [m] extends the record, and what it
    adds holds no save. *)
Definition saves_nothing {A : Type} (m : M A) : Prop :=
  forall w, exists new, log (snd (m w)) = log w ++ new /\ saves new = [].

(** [v[k1][k2]...] on nested dictionaries. *)
Fixpoint field (keys : list string) (v : json) : option json :=
  match keys with
  | [] => Some v
  | k :: rest =>
      match v with
      | JObj ms =>
          match assoc k ms with
          | Some x => field rest x
          | None => None
          end
      | _ => None
      end
  end.

Definition is_dict (v : json) : bool :=
  match v with JObj _ => true | _ => false end.

(** [pictured tr d p]: on the disk [d], the file at [p] is a picture saved
    with transparency [tr], drawn on axes from 0 to 800 both ways with the
    frame off. *)
Definition pictured (tr : bool) (d : node) (p : path) : Prop :=
  exists ax,
    walk d p = Some (File (Picture {| Mpl.drawn := ax; Mpl.transparent_background := tr |})) /\
    Mpl.xlim ax = (0, 800)%float /\ Mpl.ylim ax = (0, 800)%float /\
    Mpl.axis_on ax = false.

(** The loads a record tells of: the iteration and the run of each, in
    order. *)
Definition loads (l : list event) : list (Z * path) :=
  flat_map (fun e => match e with Load it r => [(it, r)] | _ => [] end) l.

(** [emits P m]: on every state, [m] extends the record, and every event
    it adds satisfies [P]. *)
Definition emits (P : event -> Prop) {A : Type} (m : M A) : Prop :=
  forall w, exists new, log (snd (m w)) = log w ++ new /\ Forall P new.

(** What a job of the batch for [run] over the iterations [its] may record:
    no resolution of the run, and a load only of an iteration of [its],
    from [run]. *)
Definition of_run (run : path) (its : list Z) (e : event) : Prop :=
  match e with
  | Resolve _ => False
  | Load it r => In it its /\ r = run
  | _ => True
  end.

(** The iteration a job is for. *)
Definition iteration_of (j : job) : Z := fst (fst (fst j)).

(** The immediate subdirectories of [dir], in the order the system lists
    them. *)
Definition subdirectories (root : node) (dir : path) : list string :=
  filter (fun n => match walk root (dir ++ [n]) with
                   | Some (Dir _) => true
                   | _ => false
                   end)
         (listdir root dir).

(** * Properties *)

(** ** Lists and comprehensions *)

Lemma StronglySorted_impl {A : Type} (R S : A -> A -> Prop) (l : list A) :
  (forall x y, R x y -> S x y) -> StronglySorted R l -> StronglySorted S l.
Proof.
  intros H. induction 1 as [|x r Hr IH Hx]; constructor; [exact IH|].
  eapply Forall_impl; [|exact Hx]. auto.
Qed.

Lemma firstn_succ_nth {A : Type} (d : A) (l : list A) :
  forall m, m < List.length l -> firstn (S m) l = firstn m l ++ [nth m l d].
Proof.
  induction l as [|x r IH]; intros m H; simpl in H; [lia|].
  destruct m as [|m]; [reflexivity|].
  rewrite firstn_cons, (IH m) by lia. reflexivity.
Qed.

Lemma map_nth_seq {A : Type} (d : A) (xs : list A) (k m : nat) :
  k + m <= List.length xs ->
  map (fun i => nth (k + i) xs d) (seq 0 m) = firstn m (skipn k xs).
Proof.
  induction m as [|m IH]; intros H; [reflexivity|].
  rewrite seq_S, map_app, IH by lia.
  rewrite (firstn_succ_nth d (skipn k xs) m) by (rewrite length_skipn; lia).
  now rewrite nth_skipn.
Qed.

Lemma map_snd_combine {A B : Type} (a : list A) :
  forall b : list B, List.length a = List.length b -> map snd (combine a b) = b.
Proof.
  induction a as [|x a IH]; intros [|y b] H; simpl in *; try discriminate; [reflexivity|].
  f_equal. apply IH. lia.
Qed.

Lemma in_combine_seq {A : Type} (xs : list A) :
  forall s i a,
    In (i, a) (combine (seq s (List.length xs)) xs) ->
    s <= i /\ nth_error xs (i - s) = Some a.
Proof.
  induction xs as [|x xs IH]; simpl; intros s i a H; [contradiction|].
  destruct H as [[= <- <-]|H].
  - split; [lia|]. now replace (s - s) with 0 by lia.
  - apply IH in H. destruct H as [Hle Hn]. split; [lia|].
    now replace (i - s) with (S (i - S s)) by lia.
Qed.

Lemma map_fst_combine_seq {A : Type} (xs : list A) :
  forall s, map fst (combine (seq s (List.length xs)) xs) = seq s (List.length xs).
Proof.
  induction xs as [|x xs IH]; simpl; intros s; [reflexivity|]. now rewrite IH.
Qed.

Lemma remove_nth_perm {A : Type} (l : list A) :
  forall k x, nth_error l k = Some x -> Permutation l (x :: remove_nth k l).
Proof.
  induction l as [|y r IH]; intros [|k] x H; simpl in *; try discriminate.
  - injection H as ->. reflexivity.
  - rewrite perm_swap. apply perm_skip. now apply IH.
Qed.

Lemma concat_nils {A B : Type} (l : list B) :
  List.concat (map (fun _ => @nil A) l) = [].
Proof. induction l as [|x r IH]; simpl; [reflexivity|exact IH]. Qed.

Lemma traverse_all_ok {A B : Type} (f : A -> outcome B) (xs : list A) (ys : list B) :
  Forall2 (fun x y => f x = Ok y) xs ys -> traverse f xs = Ok ys.
Proof.
  induction 1 as [|x y xs ys Hxy _ IH]; simpl; [reflexivity|].
  now rewrite Hxy, IH.
Qed.

Lemma traverse_first_raise {A B : Type} (f : A -> outcome B) (e : exn) (xs : list A) :
  Forall (fun x => (exists y, f x = Ok y) \/ f x = Raise e) xs ->
  Exists (fun x => f x = Raise e) xs ->
  traverse f xs = Raise e.
Proof.
  induction 1 as [|x r Hx Hr IH]; intros Hex; [inversion Hex|].
  simpl. destruct Hx as [[y Hy]|Hx]; [|now rewrite Hx].
  rewrite Hy. simpl.
  inversion Hex as [? ? Hhd|? ? Htl]; subst; [congruence|].
  now rewrite (IH Htl).
Qed.

Lemma traverse_ok_nth {A B : Type} (g : A -> outcome B) :
  forall xs l,
    traverse g xs = Ok l ->
    List.length l = List.length xs /\
    forall i x, nth_error xs i = Some x -> exists y, nth_error l i = Some y /\ g x = Ok y.
Proof.
  induction xs as [|a xs IH]; simpl; intros l H.
  - injection H as <-. split; [reflexivity|]. intros [|i] x; discriminate.
  - destruct (g a) as [y| |] eqn:Eg; simpl in H; try discriminate.
    destruct (traverse g xs) as [ys| |] eqn:Et; simpl in H; try discriminate.
    injection H as <-. destruct (IH ys eq_refl) as [Hl Hn].
    split; [simpl; lia|].
    intros [|i] x Hx; simpl in *.
    + injection Hx as <-. eauto.
    + now apply Hn.
Qed.

Lemma traverse_each_ok {A B : Type} (g : A -> outcome B) (xs : list A) :
  (forall x, In x xs -> exists y, g x = Ok y) -> exists l, traverse g xs = Ok l.
Proof.
  induction xs as [|a xs IH]; intros H; simpl.
  - now exists [].
  - destruct (H a (or_introl eq_refl)) as [y Hy].
    destruct IH as [l Hl]; [intros x Hx; apply H; now right|].
    exists (y :: l). now rewrite Hy, Hl.
Qed.

Lemma traverse_raise_after_ok {A B : Type} (g : A -> outcome B) (e : exn)
    (l1 l2 : list A) (x : A) :
  (forall y, In y l1 -> is_ok (g y) = true) ->
  g x = Raise e ->
  traverse g (l1 ++ x :: l2) = Raise e.
Proof.
  induction l1 as [|a l1 IH]; intros Hok Hx; simpl.
  - now rewrite Hx.
  - pose proof (Hok a (or_introl eq_refl)) as Ha.
    destruct (g a); try discriminate. simpl.
    rewrite IH; [reflexivity| |exact Hx].
    intros y Hy. apply Hok. now right.
Qed.

(** ** Sorting *)

Section SortFacts.
Context {A : Type} (le : A -> A -> bool).
Hypothesis le_total : forall x y, le x y = true \/ le y x = true.
Hypothesis le_trans : forall x y z, le x y = true -> le y z = true -> le x z = true.

Let R (x y : A) : Prop := le x y = true.

Lemma insert_perm (x : A) (l : list A) : Permutation (x :: l) (Py.insert le x l).
Proof.
  induction l as [|y r IH]; simpl; [reflexivity|].
  destruct (le x y); [reflexivity|].
  rewrite perm_swap. now apply perm_skip.
Qed.

Lemma sort_perm (l : list A) : Permutation l (Py.sort le l).
Proof.
  induction l as [|x r IH]; simpl; [constructor|].
  rewrite <- insert_perm. now apply perm_skip.
Qed.

Lemma insert_sorted (x : A) (l : list A) :
  StronglySorted R l -> StronglySorted R (Py.insert le x l).
Proof.
  induction 1 as [|y r Hr IH Hy]; simpl.
  - repeat constructor.
  - destruct (le x y) eqn:E.
    + constructor; [now constructor|].
      constructor; [exact E|].
      eapply Forall_impl; [|exact Hy].
      intros z Hz. unfold R in *. eauto.
    + constructor; [exact IH|].
      assert (Hyx : R y x) by (destruct (le_total x y); [congruence|assumption]).
      eapply Permutation_Forall; [apply insert_perm|].
      now constructor.
Qed.

Lemma sort_sorted (l : list A) : StronglySorted R (Py.sort le l).
Proof.
  induction l as [|x r IH]; simpl; [constructor|now apply insert_sorted].
Qed.

Lemma sorted_last_is_max (l : list A) (x : A) :
  StronglySorted R l -> Py.last_item l = Ok x -> In x l /\ Forall (fun y => R y x) l.
Proof.
  unfold Py.last_item.
  induction 1 as [|y r Hr IH Hy]; simpl; [discriminate|].
  destruct r as [|z r'].
  - simpl. intros [= <-]. split; [now left|].
    constructor; [|constructor].
    destruct (le_total y y); assumption.
  - intros H.
    assert (Hx : Py.last_item (z :: r') = Ok x).
    { unfold Py.last_item. simpl in *.
      destruct (rev r' ++ [z]) eqn:E.
      - destruct (rev r'); discriminate.
      - simpl in H. exact H. }
    destruct (IH Hx) as [Hin Hall].
    split; [now right|].
    constructor; [|exact Hall].
    rewrite Forall_forall in Hy. now apply Hy.
Qed.

Lemma last_item_nonempty (l : list A) : l <> [] -> exists x, Py.last_item l = Ok x.
Proof.
  unfold Py.last_item. intros H.
  destruct (rev l) eqn:E; [|eauto].
  apply (f_equal (@rev A)) in E. rewrite rev_involutive in E. now destruct H.
Qed.
End SortFacts.

(** The order of text. *)
Lemma string_leb_iff (a b : string) :
  String.leb a b = true <-> a = b \/ OrderedTypeEx.String_as_OT.lt a b.
Proof.
  unfold String.leb.
  destruct (String.compare a b) eqn:E.
  - apply OrderedTypeEx.String_as_OT.cmp_eq in E. tauto.
  - apply OrderedTypeEx.String_as_OT.cmp_lt in E. tauto.
  - split; [discriminate|].
    intros [->|H].
    + assert (String.compare b b = Eq) by now apply OrderedTypeEx.String_as_OT.cmp_eq.
      congruence.
    + apply OrderedTypeEx.String_as_OT.cmp_lt in H.
      unfold OrderedTypeEx.String_as_OT.cmp in H. congruence.
Qed.

Lemma string_leb_trans (a b c : string) :
  String.leb a b = true -> String.leb b c = true -> String.leb a c = true.
Proof.
  rewrite !string_leb_iff.
  intros [->|H1] [->|H2]; auto.
  right. eapply OrderedTypeEx.String_as_OT.lt_trans; eauto.
Qed.

Lemma string_compare_app (p a b : string) :
  String.compare (p ++ a) (p ++ b) = String.compare a b.
Proof.
  induction p as [|c p IH]; simpl; [reflexivity|].
  assert (E : Ascii.compare c c = Eq).
  { unfold Ascii.compare. apply N.compare_refl. }
  now rewrite E.
Qed.

Lemma string_leb_app (p a b : string) :
  String.leb (p ++ a) (p ++ b) = String.leb a b.
Proof. unfold String.leb. now rewrite string_compare_app. Qed.

Lemma Z_leb_total (x y : Z) : (x <=? y)%Z = true \/ (y <=? x)%Z = true.
Proof. lia. Qed.

Lemma Z_leb_trans (x y z : Z) :
  (x <=? y)%Z = true -> (y <=? z)%Z = true -> (x <=? z)%Z = true.
Proof. lia. Qed.

Lemma sorted_le_nodup_lt (l : list Z) :
  StronglySorted (fun a b => (a <=? b)%Z = true) l -> NoDup l -> StronglySorted Z.lt l.
Proof.
  induction 1 as [|x r Hr IH Hx]; intros Hn; [constructor|].
  inversion Hn as [|? ? Hnotin Hn']; subst.
  constructor; [now apply IH|].
  rewrite Forall_forall in *. intros y Hy.
  specialize (Hx y Hy).
  assert (x <> y) by (intros ->; contradiction).
  lia.
Qed.

(** ** Comparison of binary64 numbers *)

Lemma SFcompare_antisym (x y : spec_float) :
  SFcompare y x = option_map CompOpp (SFcompare x y).
Proof.
  destruct x as [sx|sx| |sx mx ex], y as [sy|sy| |sy my ey]; simpl; try reflexivity;
    try (destruct sx; reflexivity); try (destruct sy; reflexivity);
    try (destruct sx, sy; reflexivity).
  destruct sx, sy; try reflexivity; f_equal;
    rewrite (Z.compare_antisym ex ey); destruct (ex ?= ey)%Z; simpl; try reflexivity;
    change (Pos.compare_cont Eq) with Pos.compare;
    rewrite (Pos.compare_antisym mx my); destruct (mx ?= my)%positive; reflexivity.
Qed.

(** On binary64, [a <= b] excludes [b < a]. *)
Lemma float_leb_not_ltb (a b : float) :
  (a <=? b)%float = true -> (b <? a)%float = false.
Proof.
  rewrite leb_spec, ltb_spec. unfold SFleb, SFltb.
  rewrite (SFcompare_antisym (Prim2SF a) (Prim2SF b)).
  destruct (SFcompare (Prim2SF a) (Prim2SF b)) as [[| |]|]; simpl; congruence.
Qed.

(** ** Paths and the directory tree *)

Lemma string_app_assoc (a b c : string) : ((a ++ b) ++ c = a ++ (b ++ c))%string.
Proof. induction a as [|x a IH]; simpl; [reflexivity|now rewrite IH]. Qed.

(** The text of a path that ends in [n] is a fixed prefix followed by [n]. *)
Lemma str_snoc (dir : path) :
  exists prefix : string, forall n, str (dir ++ [n]) = (prefix ++ n)%string.
Proof.
  assert (H : exists prefix : string,
             forall n, String.concat "/" (dir ++ [n]) = (prefix ++ n)%string).
  { induction dir as [|c r [pre IH]].
    - exists ""%string. reflexivity.
    - exists (c ++ "/" ++ pre)%string. intros n.
      change ((c :: r) ++ [n]) with (c :: (r ++ [n])).
      simpl. destruct (r ++ [n]) eqn:E.
      + destruct r; discriminate.
      + rewrite <- E, IH. now rewrite !string_app_assoc. }
  destruct H as [pre H]. exists pre. intros n.
  unfold str. rewrite <- H. destruct dir; reflexivity.
Qed.

Lemma set_entry_same (k : string) (v : node) (es : list (string * node)) :
  assoc k es = Some v -> set_entry k v es = es.
Proof.
  induction es as [|[k' v'] r IH]; simpl; [discriminate|].
  destruct (String.eqb_spec k k') as [->|_].
  - now intros [= ->].
  - intros H. now rewrite (IH H).
Qed.

Lemma assoc_set_entry (k : string) (v : node) (es : list (string * node)) :
  assoc k (set_entry k v es) = Some v.
Proof.
  induction es as [|[k' v'] r IH]; simpl.
  - now rewrite String.eqb_refl.
  - destruct (String.eqb_spec k k') as [->|Hne]; simpl.
    + now rewrite String.eqb_refl.
    + destruct (String.eqb_spec k k'); [contradiction|exact IH].
Qed.

(** A directory that already holds an entry is left as it is by [mkdir]. *)
Lemma mkdir_existing (p : path) (x : string) :
  forall n, exists_ n (p ++ [x]) = true -> mkdir n p = Ok n.
Proof.
  unfold exists_.
  induction p as [|c r IH]; intros n H; simpl in *.
  - destruct n; [discriminate|reflexivity].
  - destruct n as [|es]; [discriminate|].
    destruct (assoc c es) as [m|] eqn:E; [|discriminate].
    rewrite (IH m H). simpl. now rewrite (set_entry_same c m es E).
Qed.

(** What was written is there. *)
Lemma write_exists (p : path) (c : content) :
  forall n n', write n p c = Ok n' -> exists_ n' p = true.
Proof.
  unfold exists_.
  induction p as [|k r IH]; intros n n' H; simpl in *.
  - reflexivity.
  - destruct n as [|es]; [discriminate|].
    destruct (assoc k es) as [m|] eqn:E.
    + destruct (write m r c) as [m'| |] eqn:W; simpl in H; try discriminate.
      injection H as <-. rewrite assoc_set_entry. exact (IH m m' W).
    + destruct r; [|discriminate].
      injection H as <-. now rewrite assoc_set_entry.
Qed.

(** ** Resolving the run and listing its iterations *)

(** Resolving the run reads the disk and records at most one resolution. *)
Lemma or_last_output_path_effect (op : option path) (w w1 : world) (r : outcome path) :
  or_last_output_path op w = (r, w1) ->
  root w1 = root w /\
  log w1 = log w ++ match op with
                    | None => [Resolve default_search_path]
                    | Some _ => []
                    end.
Proof.
  destruct op as [p|]; simpl.
  - unfold ret. intros [= <- <-]. now rewrite app_nil_r.
  - unfold get_last_output_path, bindM, emit, disk, raise, ret, lift. cbn [root log].
    destruct (glob (root w) default_search_path Star) as [found| |];
      try (intros [= <- <-]; now split).
    destruct (Nat.eqb _ 0).
    + intros [= <- <-]. now split.
    + destruct (last_item _); intros [= <- <-]; now split.
Qed.

Lemma get_all_iterations_sorted (op : option path) (w w' : world) (its : list Z) :
  get_all_iterations op w = (Ok its, w') -> StronglySorted Z.le its.
Proof.
  unfold get_all_iterations, bindM.
  destruct (or_last_output_path op w) as [[run| |] w1]; try discriminate.
  unfold disk, lift.
  destruct (glob _ _ _) as [folders| |]; try discriminate.
  destruct (traverse _ _) as [ns| |]; try discriminate.
  unfold Np.sort_ints. destruct (forallb Np.in_int64 ns); try discriminate.
  intros [= <- <-].
  eapply StronglySorted_impl; [|apply sort_sorted; [apply Z_leb_total|apply Z_leb_trans]].
  intros x y. apply Z.leb_le.
Qed.

(** ** Reading the shards *)

Lemma read_shard_doc (file : string) (batch : json) (w : world) :
  walk (root w) (Path file) = Some (File (Doc batch)) ->
  read_shard file w
  = (elements batch, {| root := root w; log := log w ++ [Read file] |}).
Proof.
  intros H. unfold read_shard, json_load, bindM, emit, disk, lift, ret, raise.
  cbn [root]. now rewrite H.
Qed.

(** Shards that hold no record give no record, and reading leaves the disk
    as it was. *)
Lemma for_each_no_records (files : list string) :
  forall w,
    (forall f, In f files ->
       exists batch,
         walk (root w) (Path f) = Some (File (Doc batch)) /\ elements batch = Ok []) ->
    exists w',
      for_each read_shard files w = (Ok (map (fun _ => []) files), w') /\
      root w' = root w.
Proof.
  induction files as [|f r IH]; intros w H.
  - exists w. split; reflexivity.
  - destruct (H f (or_introl eq_refl)) as (batch & Hw & He).
    cbn [for_each]. unfold bindM at 1.
    rewrite (read_shard_doc f batch w Hw), He.
    destruct (IH {| root := root w; log := log w ++ [Read f] |}) as (w' & Hr & Hroot).
    { intros g Hg. cbn [root]. apply H. now right. }
    exists w'. split; [|exact Hroot].
    unfold bindM at 1. rewrite Hr. reflexivity.
Qed.

(** [load_cells] with the run given is the loop followed by the table. *)
Lemma load_cells_records (iteration : Z) (run : path) (w w' : world) (results : list json) :
  read_records iteration run {| root := root w; log := log w ++ [Load iteration run] |}
  = (Ok results, w') ->
  load_cells iteration (Some run) w = (to_table results, w').
Proof.
  intros H. unfold load_cells, or_last_output_path, bindM at 1 2, ret, emit.
  unfold bindM. now rewrite H.
Qed.

Lemma column_length (df : Pd.DataFrame) (col : string) (xs : list json) :
  Pd.column df col = Ok xs -> List.length xs = List.length df.
Proof.
  unfold Pd.column. destruct (Pd.has_column df col); [|discriminate].
  intros [= <-]. apply length_map.
Qed.

(** The two converted columns of a loaded table have one entry per row. *)
Lemma to_table_lengths (results : list json) (c : cells) :
  to_table results = Ok c -> List.length (points c) = List.length (intracellular c).
Proof.
  unfold to_table.
  destruct (Pd.json_normalize results) as [df| |]; try discriminate. cbn [Py.bind].
  destruct (Pd.column df "cell.mechanics.points") as [xs| |] eqn:Hx; try discriminate.
  cbn [Py.bind].
  destruct (traverse reshape_points xs) as [pts| |] eqn:Hp; try discriminate.
  cbn [Py.bind].
  destruct (Pd.column df "cell.intracellular") as [ys| |] eqn:Hy; try discriminate.
  cbn [Py.bind].
  destruct (traverse Np.array_float ys) as [ics| |] eqn:Hi; try discriminate.
  cbn [Py.bind]. intros [= <-]. cbn [points intracellular].
  rewrite (proj1 (traverse_ok_nth _ _ _ Hp)), (proj1 (traverse_ok_nth _ _ _ Hi)).
  now rewrite (column_length _ _ _ Hx), (column_length _ _ _ Hy).
Qed.

Lemma load_cells_lengths (it : Z) (run : path) (w w' : world) (c : cells) :
  load_cells it (Some run) w = (Ok c, w') ->
  List.length (points c) = List.length (intracellular c).
Proof.
  unfold load_cells, or_last_output_path.
  unfold bindM at 1, ret at 1. unfold bindM at 1, emit at 1.
  unfold bindM at 1.
  destruct (read_records it run _) as [[results| |] w1]; try discriminate.
  unfold lift. intros [= H _]. exact (to_table_lengths results c H).
Qed.

(** ** The two converted columns *)

Lemma scalars_nums (xs : list float) : Np.scalars (map JNum xs) = Some xs.
Proof. induction xs as [|x r IH]; simpl; [reflexivity|now rewrite IH]. Qed.

Lemma odd_mod_2 (n : nat) : Nat.odd n = true -> n mod 2 = 1.
Proof.
  intros H. apply Nat.odd_spec in H. destruct H as [k ->].
  rewrite Nat.add_comm, Nat.mul_comm. now rewrite Nat.Div0.mod_add.
Qed.

Lemma even_mod_2 (n : nat) : Nat.even n = true -> n mod 2 = 0.
Proof.
  intros H. apply Nat.even_spec in H. destruct H as [k ->].
  rewrite Nat.mul_comm. apply Nat.Div0.mod_mul.
Qed.

Lemma reshape_points_odd (l : list float) :
  Nat.odd (List.length l) = true ->
  reshape_points (JArr (map JNum l)) = Raise ValueError.
Proof.
  intros H. unfold reshape_points, Np.array_float. rewrite scalars_nums.
  unfold Py.bind, Np.reshape_2. cbn [Np.ravel]. now rewrite (odd_mod_2 _ H).
Qed.

Lemma reshape_points_even (l : list float) :
  Nat.even (List.length l) = true ->
  exists m, reshape_points (JArr (map JNum l)) = Ok m.
Proof.
  intros H. unfold reshape_points, Np.array_float. rewrite scalars_nums.
  unfold Py.bind, Np.reshape_2. cbn [Np.ravel]. rewrite (even_mod_2 _ H).
  eexists. reflexivity.
Qed.

Lemma reshape_points_flat (l : list float) :
  (exists m, reshape_points (JArr (map JNum l)) = Ok m) \/
  reshape_points (JArr (map JNum l)) = Raise ValueError.
Proof.
  destruct (Nat.even (List.length l)) eqn:E.
  - left. now apply reshape_points_even.
  - right. apply reshape_points_odd. unfold Nat.odd. now rewrite E.
Qed.

Lemma array_float_flat (l : list float) :
  Np.array_float (JArr (map JNum l)) = Ok (Np.Arr1 l).
Proof. unfold Np.array_float. now rewrite scalars_nums. Qed.

(** ** Rendering one iteration *)

Section ColourRule.
Variable viridis : Mpl.cmap_arg -> Mpl.rgba.
Variables intra_low intra_high : float.

Lemma cell_color_below (ic : Np.ndarray) (t : float) :
  Np.getitem_2 ic = Ok t ->
  (t <? threshold intra_low intra_high)%float = true ->
  cell_color viridis intra_low intra_high ic = Ok (viridis (Mpl.CInt 0)).
Proof. intros Ht Hlt. unfold cell_color. rewrite Ht. simpl. now rewrite Hlt. Qed.

Lemma cell_color_from_midpoint (ic : Np.ndarray) (t : float) :
  Np.getitem_2 ic = Ok t ->
  (threshold intra_low intra_high <=? t)%float = true ->
  cell_color viridis intra_low intra_high ic
  = Ok (viridis (Mpl.CFloat ((t - intra_low) / (intra_high - intra_low))%float)).
Proof.
  intros Ht Hle. unfold cell_color. rewrite Ht. simpl.
  now rewrite (float_leb_not_ltb _ _ Hle).
Qed.

(** [plot_rows] adds one polygon per row, in order, each with the row's
    outline and the colour [cell_color] gives its intracellular vector. *)
Lemma plot_rows_patches (rows : list (Np.matrix * Np.ndarray)) :
  forall ax ax',
    plot_rows viridis ax rows intra_low intra_high = Ok ax' ->
    exists new,
      Mpl.patches ax' = Mpl.patches ax ++ new /\
      Forall2 (fun row p =>
                 Mpl.xy p = Np.rows (fst row) /\
                 cell_color viridis intra_low intra_high (snd row) = Ok (Mpl.facecolor p))
              rows new.
Proof.
  induction rows as [|[pos ic] rest IH]; intros ax ax' H; simpl in H.
  - injection H as <-. exists []. rewrite app_nil_r. split; [reflexivity|constructor].
  - destruct (cell_color viridis intra_low intra_high ic) as [c| |] eqn:Ec;
      simpl in H; try discriminate.
    destruct (IH _ _ H) as (new & Hp & Hall).
    exists ({| Mpl.xy := Np.rows pos; Mpl.facecolor := c; Mpl.edgecolor := "white" |} :: new).
    split.
    + rewrite Hp. simpl. now rewrite <- app_assoc.
    + constructor; [|exact Hall]. simpl. now split.
Qed.

End ColourRule.

Section Malformed.
Variable viridis : Mpl.cmap_arg -> Mpl.rgba.

Lemma cell_color_cases (lo hi : float) (ic : Np.ndarray) :
  one_dimensional ic ->
  (exists c, cell_color viridis lo hi ic = Ok c) \/
  cell_color viridis lo hi ic = Raise IndexError.
Proof.
  intros [l ->]. unfold cell_color, Np.getitem_2.
  destruct (nth_error l 2); cbn [Py.bind]; [|now right].
  left. destruct (_ <? _)%float; eauto.
Qed.

Lemma cell_color_too_short (lo hi : float) (ic : Np.ndarray) :
  too_short ic -> cell_color viridis lo hi ic = Raise IndexError.
Proof.
  intros (l & -> & Hl). unfold cell_color, Np.getitem_2.
  destruct (nth_error l 2) eqn:E; [|reflexivity].
  assert (2 < List.length l) by (apply nth_error_Some; congruence). lia.
Qed.

Lemma plot_rows_too_short (lo hi : float) (rows : list (Np.matrix * Np.ndarray)) :
  Forall one_dimensional (map snd rows) ->
  Exists too_short (map snd rows) ->
  forall ax, plot_rows viridis ax rows lo hi = Raise IndexError.
Proof.
  induction rows as [|[pos ic] rest IH]; intros Hall Hex ax; [inversion Hex|].
  simpl in Hall, Hex. inversion Hall as [|? ? Hic Hrest]; subst.
  cbn [plot_rows]. inversion Hex as [? ? Hhd|? ? Htl]; subst.
  - now rewrite (cell_color_too_short lo hi ic Hhd).
  - destruct (cell_color_cases lo hi ic Hic) as [[c Hc]|Hc]; rewrite Hc;
      cbn [Py.bind]; [|reflexivity].
    now apply IH.
Qed.

(** [plot_cells_at_iter] with the run given, after its directory is made:
    either the snapshot is there and the call returns, or it renders. *)
Lemma plot_cells_at_iter_renders (it : Z) (lo hi : float) (run : path)
    (sp : option path) (ow tr : bool) (w w' : world) (d : node) (c : cells) :
  mkdir (root w) (snapshot_dir run sp) = Ok d ->
  exists_ d (snapshot_dir run sp ++ [snapshot_name it]) && negb ow = false ->
  load_cells it (Some run) {| root := d; log := log w |} = (Ok c, w') ->
  plot_cells_at_iter viridis it lo hi (Some run) sp ow tr w
  = (ax <- lift (plot_cells viridis
                   (Mpl.set_axis_off (Mpl.set_ylim 0 800 (Mpl.set_xlim 0 800 Mpl.subplots)))
                   c lo hi) ;;
     savefig ax (snapshot_dir run sp ++ [snapshot_name it]) tr ;;
     ret (snapshot_dir run sp ++ [snapshot_name it]))%world
      {| root := root w'; log := log w' ++ [Draw (List.length (points c))] |}.
Proof.
  intros Hmk Hex Hload.
  unfold plot_cells_at_iter, or_last_output_path.
  unfold bindM at 1. unfold ret at 1.
  unfold bindM at 1. unfold disk at 1.
  unfold bindM at 1. unfold lift at 1. rewrite Hmk.
  unfold bindM at 1. unfold set_disk at 1.
  unfold bindM at 1. unfold disk at 1. cbn [root log].
  rewrite Hex.
  unfold bindM at 1. rewrite Hload.
  unfold bindM at 1. unfold emit at 1.
  reflexivity.
Qed.

End Malformed.

Section Snapshot.
Variable viridis : Mpl.cmap_arg -> Mpl.rgba.

(** A call of [plot_cells_at_iter] that returns has resolved a run, returns
    the snapshot path under it, and leaves a file at that path. *)
Lemma plot_cells_at_iter_returns (it : Z) (lo hi : float) (op sp : option path)
    (ow tr : bool) (w w' : world) (p : path) :
  plot_cells_at_iter viridis it lo hi op sp ow tr w = (Ok p, w') ->
  exists run w1,
    or_last_output_path op w = (Ok run, w1) /\
    p = snapshot_dir run sp ++ [snapshot_name it] /\
    exists_ (root w') p = true.
Proof.
  unfold plot_cells_at_iter.
  unfold bindM at 1.
  destruct (or_last_output_path op w) as [[run| |] w1] eqn:Hres; try discriminate.
  unfold bindM at 1, disk at 1.
  unfold bindM at 1, lift at 1.
  destruct (mkdir (root w1) (snapshot_dir run sp)) as [d| |] eqn:Hmk; try discriminate.
  unfold bindM at 1, set_disk at 1.
  unfold bindM at 1, disk at 1. cbn [root log].
  destruct (exists_ d (snapshot_dir run sp ++ [snapshot_name it]) && negb ow) eqn:Hex.
  - unfold ret. intros [= <- <-]. exists run, w1. repeat split.
    cbn [root]. now apply andb_prop in Hex.
  - unfold bindM at 1.
    destruct (load_cells it (Some run) _) as [[c| |] w2]; try discriminate.
    unfold bindM at 1, emit at 1.
    unfold bindM at 1, lift at 1.
    destruct (plot_cells viridis _ c lo hi) as [ax| |]; try discriminate.
    unfold bindM at 1, savefig.
    unfold bindM at 1, emit at 1.
    unfold bindM at 1, disk at 1.
    unfold bindM at 1, lift at 1. cbn [root log].
    destruct (write (root w2) _ _) as [d'| |] eqn:Hw; try discriminate.
    unfold set_disk, ret. intros [= <- <-].
    exists run, w1. repeat split. cbn [root].
    exact (write_exists _ _ _ _ Hw).
Qed.

(** With the snapshot in place and [overwrite=False], the call ends right
    after the run is resolved. *)
Lemma plot_cells_at_iter_short_circuit (it : Z) (lo hi : float) (op sp : option path)
    (tr : bool) (w w1 : world) (run : path) :
  or_last_output_path op w = (Ok run, w1) ->
  exists_ (root w1) (snapshot_dir run sp ++ [snapshot_name it]) = true ->
  plot_cells_at_iter viridis it lo hi op sp false tr w
  = (Ok (snapshot_dir run sp ++ [snapshot_name it]), w1).
Proof.
  intros Hres Hex.
  unfold plot_cells_at_iter.
  unfold bindM at 1. rewrite Hres.
  unfold bindM at 1, disk at 1.
  unfold bindM at 1, lift at 1.
  rewrite (mkdir_existing _ _ _ Hex).
  unfold bindM at 1, set_disk at 1.
  unfold bindM at 1, disk at 1. cbn [root log].
  rewrite Hex. cbn [negb andb]. unfold ret.
  destruct w1; reflexivity.
Qed.

End Snapshot.

(** ** The pool and the batch *)

Section Pool.
Context {A B : Type} (f : A -> M B).

(** Every pending job is completed once, and what is stored under its
    index is what the job gave on the disk it found. *)
Lemma complete_spec :
  forall fuel schedule pending w done w',
    complete f fuel schedule pending w = (done, w') ->
    List.length pending <= fuel ->
    Permutation (map fst pending) (map fst done) /\
    Forall (fun ir => exists a w0, In (fst ir, a) pending /\ fst (f a w0) = snd ir) done.
Proof.
  induction fuel as [|fuel IH]; intros schedule pending w done w' H Hlen.
  - destruct pending; [|simpl in Hlen; lia].
    injection H as <- <-. split; constructor.
  - cbn [complete] in H.
    destruct (nth_error pending (hd 0 schedule mod List.length pending))
      as [[i a]|] eqn:En.
    + destruct (f a w) as [r w1] eqn:Ef.
      destruct (complete f fuel (tl schedule)
                  (remove_nth (hd 0 schedule mod List.length pending) pending) w1)
        as [done' w2] eqn:Ec.
      injection H as <- <-.
      pose proof (remove_nth_perm pending _ (i, a) En) as Hp.
      destruct (IH _ _ _ _ _ Ec) as [Hperm Hall].
      { apply Permutation_length in Hp. simpl in Hp. lia. }
      split.
      * rewrite (Permutation_map fst Hp). simpl. now constructor.
      * constructor.
        { exists a, w. simpl. split; [eapply nth_error_In; eauto|now rewrite Ef]. }
        { eapply Forall_impl; [|exact Hall].
          intros [j r'] (a' & w0 & Hin & Hf). exists a', w0. split; [|exact Hf].
          eapply Permutation_in; [symmetry; exact Hp|]. now right. }
    + injection H as <- <-.
      apply nth_error_None in En.
      destruct pending as [|p rest]; [split; constructor|].
      pose proof (Nat.mod_upper_bound (hd 0 schedule) (List.length (p :: rest))) as Hk.
      simpl in Hk, En. lia.
Qed.

Lemma find_result_in (i : nat) (done : list (nat * outcome B)) :
  In i (map fst done) -> In (i, find_result i done) done.
Proof.
  induction done as [|[j r] rest IH]; simpl; intros H; [contradiction|].
  destruct (Nat.eqb_spec i j) as [->|Hne]; [now left|].
  right. apply IH. destruct H; [congruence|assumption].
Qed.

Lemma find_result_stored (i : nat) (done : list (nat * outcome B)) :
  find_result i done <> Unmodelled -> In (i, find_result i done) done.
Proof.
  induction done as [|[j r] rest IH]; simpl; intros H; [contradiction|].
  destruct (Nat.eqb_spec i j) as [->|Hne]; [now left|].
  right. now apply IH.
Qed.

(** The entries of a list that [imap] returned are, index by index, what
    the jobs returned. *)
Lemma imap_list_entries (schedule : list nat) (xs : list A) (w w' : world) (l : list B) :
  imap_list schedule f xs w = (Ok l, w') ->
  List.length l = List.length xs /\
  forall i a, nth_error xs i = Some a ->
    exists b w0, nth_error l i = Some b /\ fst (f a w0) = Ok b.
Proof.
  unfold imap_list.
  destruct (complete f (List.length xs) schedule
              (combine (seq 0 (List.length xs)) xs) w) as [done w3] eqn:Ec.
  intros [= Ht <-].
  destruct (traverse_ok_nth _ _ _ Ht) as [Hlen Hnth].
  rewrite length_seq in Hlen. split; [exact Hlen|].
  intros i a Hi.
  assert (Hlt : i < List.length xs) by (apply nth_error_Some; congruence).
  destruct (Hnth i i) as (b & Hb & Hfind).
  { rewrite nth_error_seq. apply Nat.ltb_lt in Hlt. now rewrite Hlt. }
  destruct (complete_spec _ _ _ _ _ _ Ec) as [_ Hall].
  { rewrite length_combine, length_seq. lia. }
  assert (Hin : In (i, Ok b) done).
  { rewrite <- Hfind. apply find_result_stored. rewrite Hfind. discriminate. }
  rewrite Forall_forall in Hall.
  destruct (Hall _ Hin) as (a' & w0 & Hpend & Hf). cbn [fst snd] in *.
  apply in_combine_seq in Hpend. destruct Hpend as [_ Ha'].
  rewrite Nat.sub_0_r, Hi in Ha'. injection Ha' as <-.
  exists b, w0. now split.
Qed.

(** When no job failed, [imap] returns. *)
Lemma imap_list_returns (schedule : list nat) (xs : list A) (w w' : world)
    (done : list (nat * outcome B)) :
  complete f (List.length xs) schedule (combine (seq 0 (List.length xs)) xs) w = (done, w') ->
  Forall (fun ir => is_ok (snd ir) = true) done ->
  exists l, imap_list schedule f xs w = (Ok l, w').
Proof.
  intros Ec Hok. unfold imap_list. rewrite Ec.
  destruct (complete_spec _ _ _ _ _ _ Ec) as [Hperm _].
  { rewrite length_combine, length_seq. lia. }
  rewrite map_fst_combine_seq in Hperm.
  destruct (traverse_each_ok (fun i => find_result i done) (seq 0 (List.length xs)))
    as [l Hl].
  { intros i Hi.
    pose proof (find_result_in i done (Permutation_in i Hperm Hi)) as Hin.
    rewrite Forall_forall in Hok. specialize (Hok _ Hin). cbn [snd] in Hok.
    destruct (find_result i done); try discriminate. eauto. }
  exists l. now rewrite Hl.
Qed.

(** The exception [imap] raises is that of the failed job with the lowest
    index. *)
Lemma imap_list_first_failure (schedule : list nat) (xs : list A) (w w' : world)
    (done : list (nat * outcome B)) (i : nat) (e : exn) :
  complete f (List.length xs) schedule (combine (seq 0 (List.length xs)) xs) w = (done, w') ->
  i < List.length xs ->
  find_result i done = Raise e ->
  (forall j, j < i -> is_ok (find_result j done) = true) ->
  imap_list schedule f xs w = (Raise e, w').
Proof.
  intros Ec Hi He Hbefore. unfold imap_list. rewrite Ec. f_equal.
  replace (List.length xs) with (i + S (List.length xs - S i)) by lia.
  rewrite seq_app. cbn [seq Nat.add].
  apply traverse_raise_after_ok; [|exact He].
  intros j Hj. apply in_seq in Hj. apply Hbefore. lia.
Qed.

End Pool.

Section Batch.
Variable viridis : Mpl.cmap_arg -> Mpl.rgba.
Variables (schedule : list nat) (lo hi : float) (op sp : option path) (ow tr : bool).

(** The batch, once the run is resolved and its iterations are listed, is
    the pool run on the jobs. *)
Lemma plot_cells_at_all_iterations_jobs (w w1 w2 : world) (run : path) (its : list Z) :
  or_last_output_path op w = (Ok run, w1) ->
  get_all_iterations (Some run) w1 = (Ok its, w2) ->
  plot_cells_at_all_iterations viridis schedule lo hi op sp ow tr w
  = imap_list schedule (__plotting_helper viridis)
      (arguments its lo hi run sp ow tr) w2.
Proof.
  intros Hres Hits. unfold plot_cells_at_all_iterations.
  unfold bindM at 1. rewrite Hres.
  unfold bindM at 1. now rewrite Hits.
Qed.

Lemma arguments_length (its : list Z) (run : path) :
  List.length (arguments its lo hi run sp ow tr) = List.length its.
Proof. unfold arguments. apply length_map. Qed.

(** A job that returns gives the snapshot path of its iteration. *)
Lemma job_returns (its : list Z) (run : path) (i : nat) (a : job) (w0 : world) (b : path) :
  nth_error (arguments its lo hi run sp ow tr) i = Some a ->
  fst (__plotting_helper viridis a w0) = Ok b ->
  exists it,
    nth_error its i = Some it /\ b = snapshot_dir run sp ++ [snapshot_name it].
Proof.
  unfold arguments. rewrite nth_error_map.
  destruct (nth_error its i) as [it|]; [|discriminate].
  intros [= <-]. cbn [__plotting_helper output_path save_path overwrite transparent].
  destruct (plot_cells_at_iter viridis it lo hi (Some run) sp ow tr w0) as [r w0'] eqn:E.
  cbn [fst]. intros ->.
  destruct (plot_cells_at_iter_returns viridis _ _ _ _ _ _ _ _ _ _ E)
    as (run' & w1' & Hres & Hb & _).
  cbn [or_last_output_path] in Hres. unfold ret in Hres. injection Hres as <- <-.
  exists it. now split.
Qed.

Lemma batch_result_in_order (w w1 w2 w' : world) (run : path) (its : list Z) (l : list path) :
  or_last_output_path op w = (Ok run, w1) ->
  get_all_iterations (Some run) w1 = (Ok its, w2) ->
  plot_cells_at_all_iterations viridis schedule lo hi op sp ow tr w = (Ok l, w') ->
  l = map (fun it => snapshot_dir run sp ++ [snapshot_name it]) its.
Proof.
  intros Hres Hits Hall.
  rewrite (plot_cells_at_all_iterations_jobs w w1 w2 run its Hres Hits) in Hall.
  destruct (imap_list_entries _ _ _ _ _ _ Hall) as [Hlen Hnth].
  rewrite arguments_length in Hlen.
  apply nth_error_ext. intros i.
  rewrite nth_error_map.
  destruct (nth_error its i) as [it|] eqn:Ei.
  - destruct (Hnth i ((it, lo, hi),
                       {| output_path := Some run; save_path := sp;
                          overwrite := ow; transparent := tr |}))
      as (b & w0 & Hb & Hf).
    { unfold arguments. now rewrite nth_error_map, Ei. }
    destruct (job_returns its run i _ w0 b
                (map_nth_error _ i its Ei : nth_error (arguments its lo hi run sp ow tr) i = _)
                Hf)
      as (it' & Hi' & ->).
    rewrite Hb. rewrite Ei in Hi'. now injection Hi' as <-.
  - apply nth_error_None. apply nth_error_None in Ei. lia.
Qed.

End Batch.

(** ** Counting the resolutions of the run *)

Lemma resolutions_app (a b : list event) :
  resolutions (a ++ b) = resolutions a + resolutions b.
Proof. unfold resolutions. now rewrite filter_app, length_app. Qed.

Lemma counts_ret {A : Type} (a : A) : counts 0 (ret a).
Proof. intros w. exists []. now rewrite app_nil_r. Qed.

Lemma counts_raise {A : Type} (e : exn) : counts 0 (@raise A e).
Proof. intros w. exists []. now rewrite app_nil_r. Qed.

Lemma counts_lift {A : Type} (m : outcome A) : counts 0 (lift m).
Proof. intros w. exists []. now rewrite app_nil_r. Qed.

Lemma counts_disk : counts 0 disk.
Proof. intros w. exists []. now rewrite app_nil_r. Qed.

Lemma counts_set_disk (n : node) : counts 0 (set_disk n).
Proof. intros w. exists []. simpl. now rewrite app_nil_r. Qed.

Lemma counts_emit (e : event) : is_resolve e = false -> counts 0 (emit e).
Proof.
  intros H w. exists [e]. split; [reflexivity|].
  unfold resolutions. simpl. now rewrite H.
Qed.

Lemma counts_bind {A B : Type} (n : nat) (m : M A) (k : A -> M B) :
  counts n m -> (forall a, counts 0 (k a)) -> counts n (bindM m k).
Proof.
  intros Hm Hk w. unfold bindM.
  destruct (Hm w) as (new & Hlog & Hn).
  destruct (m w) as [[a| |] w1]; cbn [snd] in *.
  - destruct (Hk a w1) as (new' & Hlog' & Hn').
    exists (new ++ new'). rewrite Hlog', Hlog, app_assoc. split; [reflexivity|].
    rewrite resolutions_app. lia.
  - now exists new.
  - now exists new.
Qed.

Lemma counts_for_each {A B : Type} (body : A -> M B) (xs : list A) :
  (forall x, counts 0 (body x)) -> counts 0 (for_each body xs).
Proof.
  intros H. induction xs as [|x r IH]; cbn [for_each].
  - apply counts_ret.
  - apply counts_bind; [apply H|]. intros y.
    apply counts_bind; [exact IH|]. intros ys. apply counts_ret.
Qed.

Ltac quiet :=
  repeat first
    [ apply counts_ret | apply counts_raise | apply counts_lift
    | apply counts_disk | apply counts_set_disk
    | apply counts_emit; reflexivity
    | apply counts_for_each; intros ?
    | apply counts_bind; [|intros ?]
    | match goal with
      | |- counts _ (if ?b then _ else _) => destruct b
      | |- counts _ (match ?x with _ => _ end) => destruct x
      end ].

Lemma counts_read_shard (file : string) : counts 0 (read_shard file).
Proof. unfold read_shard, json_load. quiet. Qed.

Lemma counts_load_cells (it : Z) (run : path) : counts 0 (load_cells it (Some run)).
Proof.
  unfold load_cells, or_last_output_path, read_records. quiet.
Qed.

Lemma counts_get_all_iterations (run : path) : counts 0 (get_all_iterations (Some run)).
Proof. unfold get_all_iterations, or_last_output_path. quiet. Qed.

Lemma counts_or_last_output_path (op : option path) :
  counts (match op with None => 1 | Some _ => 0 end) (or_last_output_path op).
Proof.
  intros w. destruct (or_last_output_path op w) as [r w1] eqn:E.
  destruct (or_last_output_path_effect op w w1 r E) as [_ Hlog].
  cbn [snd]. eexists. split; [exact Hlog|]. now destruct op.
Qed.

Section Resolutions.
Variable viridis : Mpl.cmap_arg -> Mpl.rgba.

(** After the run is resolved, [plot_cells_at_iter] does not resolve it
    again. *)
Lemma counts_plot_cells_at_iter (it : Z) (lo hi : float) (op sp : option path)
    (ow tr : bool) :
  counts (match op with None => 1 | Some _ => 0 end)
         (plot_cells_at_iter viridis it lo hi op sp ow tr).
Proof.
  unfold plot_cells_at_iter.
  apply counts_bind; [apply counts_or_last_output_path|]. intros run.
  unfold savefig. quiet.
Qed.

Lemma counts_complete {A B : Type} (f : A -> M B) :
  forall fuel schedule pending,
    (forall i a, In (i, a) pending -> counts 0 (f a)) ->
    forall w, exists new,
      log (snd (complete f fuel schedule pending w)) = log w ++ new /\
      resolutions new = 0.
Proof.
  induction fuel as [|fuel IH]; intros schedule pending Hq w; cbn [complete].
  - exists []. now rewrite app_nil_r.
  - destruct (nth_error pending (hd 0 schedule mod List.length pending))
      as [[i a]|] eqn:En; [|exists []; now rewrite app_nil_r].
    pose proof (remove_nth_perm pending _ (i, a) En) as Hp.
    destruct (Hq i a (nth_error_In _ _ En) w) as (new & Hlog & Hn).
    destruct (f a w) as [r w1]. cbn [snd] in Hlog.
    destruct (IH (tl schedule)
                (remove_nth (hd 0 schedule mod List.length pending) pending)) with (w := w1)
      as (new' & Hlog' & Hn').
    { intros j b Hj. apply (Hq j b).
      eapply Permutation_in; [symmetry; exact Hp|]. now right. }
    destruct (complete f fuel _ _ w1) as [done w2]. cbn [snd] in *.
    exists (new ++ new'). rewrite Hlog', Hlog, app_assoc. split; [reflexivity|].
    rewrite resolutions_app. lia.
Qed.

Lemma counts_imap_list {A B : Type} (schedule : list nat) (f : A -> M B) (xs : list A) :
  (forall a, In a xs -> counts 0 (f a)) -> counts 0 (imap_list schedule f xs).
Proof.
  intros H w. unfold imap_list.
  destruct (counts_complete f (List.length xs) schedule
              (combine (seq 0 (List.length xs)) xs)) with (w := w) as (new & Hlog & Hn).
  { intros i a Hin. apply H. eapply in_combine_r; eauto. }
  destruct (complete f _ _ _ w) as [done w']. cbn [snd] in *. now exists new.
Qed.

(** Every job names the run it was built for. *)
Lemma arguments_output_path (its : list Z) (lo hi : float) (run : path)
    (sp : option path) (ow tr : bool) :
  Forall (fun j : job => output_path (snd j) = Some run)
         (arguments its lo hi run sp ow tr).
Proof. unfold arguments. apply Forall_forall. intros j Hj.
  apply in_map_iff in Hj. destruct Hj as (it & <- & _). reflexivity.
Qed.

End Resolutions.

(** ** What a call leaves on the disk *)

Lemma keys_once_set_entry (k : string) (v : node) (es : list (string * node)) :
  forall seen,
    (exists v0, assoc k es = Some v0) ->
    keys_once seen (set_entry k v es) = keys_once seen es.
Proof.
  induction es as [|[k' v'] r IH]; intros seen [v0 H]; simpl in *; [discriminate|].
  destruct (String.eqb_spec k k') as [->|Hne]; [reflexivity|].
  simpl. destruct (existsb (String.eqb k') seen).
  - apply IH. eauto.
  - f_equal. apply IH. eauto.
Qed.

Lemma in_keys_once_assoc {V : Type} (k : string) (es : list (string * V)) :
  forall seen, In k (keys_once seen es) -> exists v, assoc k es = Some v.
Proof.
  induction es as [|[k' v'] r IH]; intros seen H; simpl in *; [contradiction|].
  destruct (String.eqb_spec k k') as [->|Hne]; [eauto|].
  destruct (existsb (String.eqb k') seen).
  - now apply IH in H.
  - destruct H as [->|H]; [contradiction|]. now apply IH in H.
Qed.

Lemma listdir_cons (es : list (string * node)) (c : string) (d : path) (nc : node) :
  assoc c es = Some nc -> listdir (Dir es) (c :: d) = listdir nc d.
Proof. intros H. unfold listdir. simpl. now rewrite H. Qed.

Lemma listdir_in_child (n : node) (c : string) (d : path) (m : string) :
  In m (listdir n (c :: d)) ->
  exists es nc, n = Dir es /\ assoc c es = Some nc /\ In m (listdir nc d).
Proof.
  unfold listdir. simpl. destruct n as [|es]; [contradiction|].
  destruct (assoc c es) as [nc|] eqn:E; [|contradiction].
  intros H. now exists es, nc.
Qed.

Lemma mkdir_keeps_listing (d : path) (m : string) (rest : path) :
  forall n n',
    mkdir n (d ++ m :: rest) = Ok n' ->
    In m (listdir n d) ->
    listdir n' d = listdir n d.
Proof.
  induction d as [|c d IH]; intros n n' Hmk Hin.
  - unfold listdir in Hin. simpl in Hin. destruct n as [|es]; [contradiction|].
    simpl in Hmk. destruct (in_keys_once_assoc m es [] Hin) as [v0 Hv0].
    rewrite Hv0 in Hmk.
    destruct (mkdir v0 rest) as [v1| |]; simpl in Hmk; try discriminate.
    injection Hmk as <-. unfold listdir. simpl.
    apply keys_once_set_entry. eauto.
  - destruct (listdir_in_child n c d m Hin) as (es & nc & -> & Hc & Hin').
    simpl in Hmk. rewrite Hc in Hmk.
    destruct (mkdir nc (d ++ m :: rest)) as [nc'| |] eqn:E; simpl in Hmk; try discriminate.
    injection Hmk as <-.
    rewrite (listdir_cons es c d nc Hc).
    rewrite (listdir_cons (set_entry c nc' es) c d nc' (assoc_set_entry c nc' es)).
    exact (IH nc nc' E Hin').
Qed.

Lemma write_keeps_listing (d : path) (m : string) (rest : path) (x : content) :
  forall n n',
    write n (d ++ m :: rest) x = Ok n' ->
    In m (listdir n d) ->
    listdir n' d = listdir n d.
Proof.
  induction d as [|c d IH]; intros n n' Hw Hin.
  - unfold listdir in Hin. simpl in Hin. destruct n as [|es]; [contradiction|].
    simpl in Hw. destruct (in_keys_once_assoc m es [] Hin) as [v0 Hv0].
    rewrite Hv0 in Hw.
    destruct (write v0 rest x) as [v1| |]; simpl in Hw; try discriminate.
    injection Hw as <-. unfold listdir. simpl.
    apply keys_once_set_entry. eauto.
  - destruct (listdir_in_child n c d m Hin) as (es & nc & -> & Hc & Hin').
    simpl in Hw. rewrite Hc in Hw.
    destruct (write nc (d ++ m :: rest) x) as [nc'| |] eqn:E; simpl in Hw; try discriminate.
    injection Hw as <-.
    rewrite (listdir_cons es c d nc Hc).
    rewrite (listdir_cons (set_entry c nc' es) c d nc' (assoc_set_entry c nc' es)).
    exact (IH nc nc' E Hin').
Qed.

Lemma split_slash_no_slash (n : string) :
  existsb (Ascii.eqb "/") (list_ascii_of_string n) = false -> split_slash n = [n].
Proof.
  induction n as [|c n IH]; cbn [list_ascii_of_string existsb split_slash];
    [reflexivity|].
  intros H. apply orb_false_iff in H. destruct H as [Hc Hn].
  rewrite Ascii.eqb_sym in Hc. rewrite Hc. now rewrite (IH Hn).
Qed.

Lemma Path_default_entry (m : string) :
  proper_name m = true ->
  Path (str (default_search_path ++ [m])) = default_search_path ++ [m].
Proof.
  unfold proper_name. intros H.
  apply andb_prop in H. destruct H as [H Hslash].
  apply andb_prop in H. destruct H as [Hempty Hdot].
  apply negb_true_iff in Hslash, Hempty, Hdot.
  unfold Path. cbn [default_search_path app str String.concat String.append split_slash Ascii.eqb Bool.eqb].
  rewrite (split_slash_no_slash m Hslash).
  cbn. now rewrite Hempty, Hdot.
Qed.

Lemma last_item_in {A : Type} (l : list A) (x : A) : Py.last_item l = Ok x -> In x l.
Proof.
  unfold Py.last_item. intros H. apply (in_rev l x).
  destruct (rev l); [discriminate|]. injection H as ->. now left.
Qed.

(** The run [get_last_output_path] returns is the path of a listed name. *)
Lemma get_last_output_path_listed (search_path : path) (w : world) (run : path) :
  fst (get_last_output_path search_path w) = Ok run ->
  exists m,
    In m (listing (root w) search_path Star) /\ run = Path (str (search_path ++ [m])).
Proof.
  unfold get_last_output_path, bindM, emit, disk, raise, ret, lift, glob. cbn [root log].
  destruct (existsb has_magic search_path); [discriminate|].
  destruct (Nat.eqb _ 0); [discriminate|].
  destruct (last_item _) as [x| |] eqn:Hx; try discriminate.
  cbn [fst]. intros [= <-].
  apply last_item_in in Hx.
  apply (Permutation_in x (Permutation_sym (sort_perm String.leb _))) in Hx.
  apply in_map_iff in Hx. destruct Hx as (m & <- & Hm). now exists m.
Qed.

(** What [get_last_output_path] returns depends on the names listed. *)
Lemma get_last_output_path_same_listing (search_path : path) (w w' : world) :
  listdir (root w') search_path = listdir (root w) search_path ->
  fst (get_last_output_path search_path w') = fst (get_last_output_path search_path w).
Proof.
  intros H.
  unfold get_last_output_path, bindM, emit, disk, raise, ret, lift, glob, listing.
  cbn [root log]. rewrite H.
  destruct (existsb has_magic search_path); [reflexivity|].
  destruct (Nat.eqb _ 0); [reflexivity|].
  destruct (last_item _); reflexivity.
Qed.

Lemma reads_ret {A : Type} (a : A) : reads_only (ret a).
Proof. now intros w. Qed.

Lemma reads_raise {A : Type} (e : exn) : reads_only (@raise A e).
Proof. now intros w. Qed.

Lemma reads_lift {A : Type} (m : outcome A) : reads_only (lift m).
Proof. now intros w. Qed.

Lemma reads_disk : reads_only disk.
Proof. now intros w. Qed.

Lemma reads_emit (e : event) : reads_only (emit e).
Proof. now intros w. Qed.

Lemma reads_bind {A B : Type} (m : M A) (k : A -> M B) :
  reads_only m -> (forall a, reads_only (k a)) -> reads_only (bindM m k).
Proof.
  intros Hm Hk w. unfold bindM. specialize (Hm w).
  destruct (m w) as [[a| |] w1]; cbn [snd] in *; [|exact Hm|exact Hm].
  now rewrite (Hk a w1).
Qed.

Lemma reads_for_each {A B : Type} (body : A -> M B) (xs : list A) :
  (forall x, reads_only (body x)) -> reads_only (for_each body xs).
Proof.
  intros H. induction xs as [|x r IH]; cbn [for_each].
  - apply reads_ret.
  - apply reads_bind; [apply H|]. intros y.
    apply reads_bind; [exact IH|]. intros ys. apply reads_ret.
Qed.

Ltac reading :=
  repeat first
    [ apply reads_ret | apply reads_raise | apply reads_lift
    | apply reads_disk | apply reads_emit
    | apply reads_for_each; intros ?
    | apply reads_bind; [|intros ?]
    | match goal with
      | |- reads_only (if ?b then _ else _) => destruct b
      | |- reads_only (match ?x with _ => _ end) => destruct x
      end ].

Lemma reads_load_cells (it : Z) (op : option path) : reads_only (load_cells it op).
Proof.
  unfold load_cells, or_last_output_path, get_last_output_path, read_records,
    read_shard, json_load.
  reading.
Qed.

Lemma in_keys_once {V : Type} (m : string) (es : list (string * V)) :
  forall seen,
    In m (keys_once seen es) <->
    existsb (String.eqb m) seen = false /\ In m (map fst es).
Proof.
  induction es as [|[k v] r IH]; intros seen; simpl.
  - split; [contradiction|now intros [_ H]].
  - destruct (existsb (String.eqb k) seen) eqn:E.
    + rewrite IH. split; intros [Hs Hin]; split; auto.
      destruct Hin as [->|Hin]; [congruence|exact Hin].
    + simpl. rewrite IH. simpl. split.
      * intros [->|[H1 H2]]; [now split; [|left]|].
        apply orb_false_iff in H1. destruct H1 as [_ H1]. split; auto.
      * intros [Hs [->|Hin]]; [now left|].
        destruct (String.eqb_spec m k) as [->|Hne]; [now left|right].
        now split.
Qed.

Lemma in_fst_set_entry (k : string) (v : node) (es : list (string * node)) (m : string) :
  In m (map fst es) -> In m (map fst (set_entry k v es)).
Proof.
  induction es as [|[k' v'] r IH]; simpl; [contradiction|].
  destruct (String.eqb_spec k k') as [->|Hne]; simpl; intros [H|H]; auto.
Qed.

Lemma assoc_set_entry_other (k c : string) (v : node) (es : list (string * node)) :
  c <> k -> assoc c (set_entry k v es) = assoc c es.
Proof.
  intros Hne. induction es as [|[k' v'] r IH]; simpl.
  - destruct (String.eqb_spec c k); [contradiction|reflexivity].
  - destruct (String.eqb_spec k k') as [->|Hkk]; simpl.
    + destruct (String.eqb_spec c k'); [contradiction|reflexivity].
    + destruct (String.eqb c k'); [reflexivity|exact IH].
Qed.

(** Replacing an entry by one that lists as much loses no name. *)
Lemma listdir_set_entry_incl (es : list (string * node)) (k : string) (v : node) :
  (forall nc, assoc k es = Some nc -> forall d, incl (listdir nc d) (listdir v d)) ->
  forall d, incl (listdir (Dir es) d) (listdir (Dir (set_entry k v es)) d).
Proof.
  intros H [|c d] m Hin.
  - unfold listdir in *. simpl in *.
    apply in_keys_once in Hin. apply in_keys_once.
    destruct Hin as [Hs Hin]. split; [exact Hs|now apply in_fst_set_entry].
  - destruct (listdir_in_child _ c d m Hin) as (es' & nc & [= <-] & Hc & Hin').
    destruct (String.eqb_spec c k) as [->|Hne].
    + rewrite (listdir_cons _ k d v (assoc_set_entry k v es)).
      exact (H nc Hc d m Hin').
    + rewrite (listdir_cons _ c d nc); [exact Hin'|].
      now rewrite assoc_set_entry_other.
Qed.

(** [mkdir] and [write] remove no name from any directory. *)
Lemma mkdir_incl (p : path) :
  forall n n', mkdir n p = Ok n' -> forall d, incl (listdir n d) (listdir n' d).
Proof.
  induction p as [|c r IH]; intros n n' H; simpl in H.
  - destruct n; [discriminate|]. injection H as <-. intros d. apply incl_refl.
  - destruct n as [|es]; [discriminate|].
    destruct (mkdir _ r) as [m'| |] eqn:E; simpl in H; try discriminate.
    injection H as <-. apply listdir_set_entry_incl.
    intros nc Hc. rewrite Hc in E. exact (IH nc m' E).
Qed.

Lemma write_incl (p : path) (x : content) :
  forall n n', write n p x = Ok n' -> forall d, incl (listdir n d) (listdir n' d).
Proof.
  induction p as [|k r IH]; intros n n' H; simpl in H.
  - destruct n; [|discriminate]. intros d m Hin.
    unfold listdir in Hin. destruct d; simpl in Hin; contradiction.
  - destruct n as [|es]; [discriminate|].
    destruct (assoc k es) as [nc|] eqn:Hc.
    + destruct (write nc r x) as [m'| |] eqn:E; simpl in H; try discriminate.
      injection H as <-. apply listdir_set_entry_incl.
      intros nc' Hc'. rewrite Hc in Hc'. injection Hc' as <-. exact (IH nc m' E).
    + destruct r; [|discriminate]. injection H as <-.
      apply listdir_set_entry_incl. intros nc' Hc'. rewrite Hc in Hc'. discriminate.
Qed.

Lemma last_item_some {A : Type} (l : list A) :
  l <> [] -> exists x, Py.last_item l = Ok x.
Proof.
  unfold Py.last_item. intros H.
  destruct (rev l) as [|x r] eqn:E; [|now exists x].
  apply (f_equal (@rev A)) in E. rewrite rev_involutive in E. now destruct H.
Qed.

(** A search path in which a run was found still holds one when no name
    was removed from it. *)
Lemma get_last_output_path_again (search_path : path) (w w' : world) (run : path) :
  fst (get_last_output_path search_path w) = Ok run ->
  incl (listdir (root w) search_path) (listdir (root w') search_path) ->
  exists run', fst (get_last_output_path search_path w') = Ok run'.
Proof.
  unfold get_last_output_path, bindM, emit, disk, raise, ret, lift, glob. cbn [root log].
  destruct (existsb has_magic search_path); [discriminate|].
  intros Hfirst Hincl.
  destruct (listing (root w) search_path Star) as [|m l] eqn:E; [discriminate|].
  assert (Hm : In m (listing (root w') search_path Star)).
  { assert (Hm : In m (listing (root w) search_path Star)) by (rewrite E; now left).
    unfold listing in *. apply filter_In in Hm. apply filter_In.
    destruct Hm as [Hm Hv]. split; [now apply Hincl|exact Hv]. }
  destruct (listing (root w') search_path Star) as [|m' l']; [contradiction|].
  set (found := map (fun n => str (search_path ++ [n])) (m' :: l')).
  assert (Hlen : List.length (Py.sorted found) = S (List.length l')).
  { unfold Py.sorted. rewrite <- (Permutation_length (sort_perm String.leb found)).
    unfold found. simpl. now rewrite length_map. }
  rewrite Hlen. cbn [Nat.eqb].
  destruct (last_item_some (Py.sorted found)) as [x Hx].
  { intros H. rewrite H in Hlen. discriminate. }
  rewrite Hx. now exists (Path x).
Qed.

Section Again.
Variable viridis : Mpl.cmap_arg -> Mpl.rgba.

(** The disk a call of [plot_cells_at_iter] that returns leaves: the one
    with the snapshot directory made, or that one with the snapshot
    written. *)
Lemma plot_cells_at_iter_disk (it : Z) (lo hi : float) (op sp : option path)
    (ow tr : bool) (w w' : world) (p : path) :
  plot_cells_at_iter viridis it lo hi op sp ow tr w = (Ok p, w') ->
  exists run w1 d,
    or_last_output_path op w = (Ok run, w1) /\
    mkdir (root w1) (snapshot_dir run sp) = Ok d /\
    (root w' = d \/
     exists x, write d (snapshot_dir run sp ++ [snapshot_name it]) x = Ok (root w')).
Proof.
  unfold plot_cells_at_iter.
  unfold bindM at 1.
  destruct (or_last_output_path op w) as [[run| |] w1] eqn:Hres; try discriminate.
  unfold bindM at 1, disk at 1.
  unfold bindM at 1, lift at 1.
  destruct (mkdir (root w1) (snapshot_dir run sp)) as [d| |] eqn:Hmk; try discriminate.
  unfold bindM at 1, set_disk at 1.
  unfold bindM at 1, disk at 1. cbn [root log].
  destruct (exists_ d (snapshot_dir run sp ++ [snapshot_name it]) && negb ow).
  - unfold ret. intros [= <- <-]. exists run, w1, d.
    split; [reflexivity|]. split; [exact Hmk|]. now left.
  - unfold bindM at 1.
    pose proof (reads_load_cells it (Some run) {| root := d; log := log w1 |}) as Hread.
    destruct (load_cells it (Some run) _) as [[c| |] w2]; try discriminate.
    cbn [snd root] in Hread.
    unfold bindM at 1, emit at 1.
    unfold bindM at 1, lift at 1.
    destruct (plot_cells viridis _ c lo hi) as [ax| |]; try discriminate.
    unfold bindM at 1, savefig.
    unfold bindM at 1, emit at 1.
    unfold bindM at 1, disk at 1.
    unfold bindM at 1, lift at 1. cbn [root log].
    destruct (write (root w2) _ _) as [d'| |] eqn:Hw; try discriminate.
    unfold set_disk, ret. intros [= <- <-].
    exists run, w1, d.
    split; [reflexivity|]. split; [exact Hmk|]. right. cbn [root].
    rewrite Hread in Hw. eauto.
Qed.

(** A second call that resolves the same run. *)
Lemma plot_cells_at_iter_again (it : Z) (lo hi : float) (op sp : option path)
    (tr : bool) (w w' : world) (p : path) :
  plot_cells_at_iter viridis it lo hi op sp false tr w = (Ok p, w') ->
  fst (or_last_output_path op w') = fst (or_last_output_path op w) ->
  exists w'',
    plot_cells_at_iter viridis it lo hi op sp false tr w' = (Ok p, w'') /\
    root w'' = root w' /\
    log w'' = log w' ++ match op with
                        | None => [Resolve default_search_path]
                        | Some _ => []
                        end.
Proof.
  intros Hfirst Hsame.
  destruct (plot_cells_at_iter_returns viridis it lo hi op sp false tr w w' p Hfirst)
    as (run & w1 & Hres & -> & Hex).
  rewrite Hres in Hsame. cbn [fst] in Hsame.
  destruct (or_last_output_path op w') as [r2 w1'] eqn:Hres'.
  cbn [fst] in Hsame. subst r2.
  destruct (or_last_output_path_effect op w' w1' _ Hres') as [Hroot Hlog].
  exists w1'. split; [|now split].
  apply (plot_cells_at_iter_short_circuit viridis it lo hi op sp tr w' w1' run Hres').
  now rewrite Hroot.
Qed.

(** With the defaults, a first call that returns leaves the names under
    the search path as they were, so a second call resolves the same run. *)
Lemma plot_cells_at_iter_keeps_resolution (it : Z) (lo hi : float) (tr : bool)
    (w w' : world) (p : path) :
  forallb proper_name (listing (root w) default_search_path Star) = true ->
  plot_cells_at_iter viridis it lo hi None None false tr w = (Ok p, w') ->
  fst (or_last_output_path None w') = fst (or_last_output_path None w).
Proof.
  intros Hproper Hfirst.
  destruct (plot_cells_at_iter_disk it lo hi None None false tr w w' p Hfirst)
    as (run & w1 & d & Hres & Hmk & Hdisk).
  destruct (or_last_output_path_effect None w w1 _ Hres) as [Hroot _].
  cbn [or_last_output_path] in *.
  destruct (get_last_output_path_listed default_search_path w run) as (m & Hm & Hrun).
  { now rewrite Hres. }
  rewrite forallb_forall in Hproper.
  rewrite (Path_default_entry m (Hproper m Hm)) in Hrun. subst run.
  assert (Hin : In m (listdir (root w) default_search_path)).
  { unfold listing in Hm. now apply filter_In in Hm. }
  cbn [snapshot_dir] in Hmk, Hdisk.
  rewrite Hroot, <- app_assoc in Hmk. cbn [app] in Hmk.
  pose proof (mkdir_keeps_listing default_search_path m ["images"] _ _ Hmk Hin) as Hd.
  apply get_last_output_path_same_listing.
  destruct Hdisk as [->|[x Hw]]; [exact Hd|].
  rewrite <- !app_assoc in Hw. cbn [app] in Hw.
  rewrite <- Hd in Hin.
  now rewrite (write_keeps_listing default_search_path m _ x _ _ Hw Hin).
Qed.

(** A call that returns removes no name from any directory. *)
Lemma plot_cells_at_iter_grows (it : Z) (lo hi : float) (op sp : option path)
    (ow tr : bool) (w w' : world) (p : path) :
  plot_cells_at_iter viridis it lo hi op sp ow tr w = (Ok p, w') ->
  forall d, incl (listdir (root w) d) (listdir (root w') d).
Proof.
  intros Hfirst d.
  destruct (plot_cells_at_iter_disk it lo hi op sp ow tr w w' p Hfirst)
    as (run & w1 & d0 & Hres & Hmk & Hdisk).
  destruct (or_last_output_path_effect op w w1 _ Hres) as [Hroot _].
  rewrite Hroot in Hmk.
  apply (incl_tran (mkdir_incl _ _ _ Hmk d)).
  destruct Hdisk as [->|[x Hw]]; [apply incl_refl|].
  exact (write_incl _ _ _ _ Hw d).
Qed.

(** With the directory of the snapshots given, a second call finds the
    snapshot whichever run it resolves. *)
Lemma plot_cells_at_iter_again_saved (it : Z) (lo hi : float) (save : path)
    (tr : bool) (w w' : world) (p : path) :
  plot_cells_at_iter viridis it lo hi None (Some save) false tr w = (Ok p, w') ->
  exists w'',
    plot_cells_at_iter viridis it lo hi None (Some save) false tr w' = (Ok p, w'') /\
    root w'' = root w' /\
    log w'' = log w' ++ [Resolve default_search_path].
Proof.
  intros Hfirst.
  pose proof (plot_cells_at_iter_grows it lo hi None (Some save) false tr w w' p Hfirst
                default_search_path) as Hgrows.
  destruct (plot_cells_at_iter_returns viridis it lo hi None (Some save) false tr w w' p Hfirst)
    as (run & w1 & Hres & -> & Hex).
  cbn [or_last_output_path snapshot_dir] in *.
  destruct (get_last_output_path_again default_search_path w w' run) as [run' Hres'].
  { now rewrite Hres. }
  { exact Hgrows. }
  destruct (get_last_output_path default_search_path w') as [r w1'] eqn:E.
  cbn [fst] in Hres'. subst r.
  destruct (or_last_output_path_effect None w' w1' _ E) as [Hroot Hlog].
  exists w1'. split; [|now split].
  apply (plot_cells_at_iter_short_circuit viridis it lo hi None (Some save) tr w' w1' run' E).
  cbn [snapshot_dir]. now rewrite Hroot.
Qed.

End Again.

(** ** Numbers as text *)

Lemma digit_char (c : ascii) (v : Z) :
  digit_value c = Some v ->
  is_space c = false /\ is_ascii c = true /\
  Ascii.eqb c "_" = false /\ Ascii.eqb c "-" = false /\ Ascii.eqb c "+" = false.
Proof.
  intros H.
  assert (Hs : is_space c = false /\ is_ascii c = true).
  { unfold digit_value in H. unfold is_space, is_ascii.
    destruct ((48 <=? N_of_ascii c) && (N_of_ascii c <=? 57))%N eqn:E; [|discriminate].
    apply andb_prop in E. destruct E as [E1 E2].
    apply N.leb_le in E1, E2.
    split.
    - apply orb_false_iff. split.
      + apply andb_false_iff. right. apply N.leb_gt. lia.
      + apply N.eqb_neq. lia.
    - apply N.ltb_lt. lia. }
  destruct Hs as [Hs Ha]. repeat split; try assumption.
  - destruct (Ascii.eqb_spec c "_") as [->|]; [discriminate H|reflexivity].
  - destruct (Ascii.eqb_spec c "-") as [->|]; [discriminate H|reflexivity].
  - destruct (Ascii.eqb_spec c "+") as [->|]; [discriminate H|reflexivity].
Qed.

(** The characters of a decimal numeral are digits. *)
Lemma string_of_uint_digits (d : Decimal.uint) :
  Forall (fun c => exists v, digit_value c = Some v)
         (list_ascii_of_string (NilEmpty.string_of_uint d)).
Proof.
  induction d; simpl; constructor; try assumption; eexists; reflexivity.
Qed.

Lemma zeros_digits (k : nat) :
  Forall (fun c => exists v, digit_value c = Some v) (list_ascii_of_string (zeros k)).
Proof.
  induction k; simpl; constructor; [eexists; reflexivity|assumption].
Qed.

Lemma list_ascii_of_string_app (a b : string) :
  list_ascii_of_string (a ++ b) = list_ascii_of_string a ++ list_ascii_of_string b.
Proof. induction a as [|c a IH]; simpl; [reflexivity|now rewrite IH]. Qed.

Lemma zfill_digits (w : nat) (d : Decimal.uint) :
  Forall (fun c => exists v, digit_value c = Some v)
         (list_ascii_of_string (zfill w (NilEmpty.string_of_uint d))).
Proof.
  unfold zfill. rewrite list_ascii_of_string_app. apply Forall_app. split.
  - apply zeros_digits.
  - apply string_of_uint_digits.
Qed.

(** The value of a numeral, read digit by digit. *)
Lemma of_uint_cons (d : Decimal.uint) (k : N) (Dk : Decimal.uint -> Decimal.uint) :
  (forall x, Decimal.revapp (Dk d) x = Decimal.revapp d (Dk x)) ->
  DecimalPos.Unsigned.of_lu (Dk Decimal.Nil) = k ->
  Pos.of_uint (Dk d) = (k * 10 ^ DecimalPos.Unsigned.usize d + Pos.of_uint d)%N.
Proof.
  intros Hrev Hk.
  rewrite !DecimalPos.Unsigned.of_uint_alt. unfold Decimal.rev.
  rewrite Hrev, DecimalPos.Unsigned.of_lu_revapp, Hk. unfold Decimal.rev. lia.
Qed.

Lemma digits_value_uint (d : Decimal.uint) :
  forall acc,
    digits_value acc true (list_ascii_of_string (NilEmpty.string_of_uint d))
    = Some (acc * 10 ^ Z.of_N (DecimalPos.Unsigned.usize d) + Z.of_N (Pos.of_uint d))%Z.
Proof.
  induction d; intros acc;
    [ simpl; f_equal; lia
    | cbn [NilEmpty.string_of_uint list_ascii_of_string digits_value];
      match goal with
      | |- context [digit_value ?c] =>
          let v := eval vm_compute in (digit_value c) in
          change (digit_value c) with v
      end;
      cbv iota; rewrite IHd; f_equal;
      match goal with
      | |- context [Pos.of_uint (?Dk d)] =>
          let k := eval vm_compute in (DecimalPos.Unsigned.of_lu (Dk Decimal.Nil)) in
          rewrite (of_uint_cons d k Dk (fun x => eq_refl) eq_refl)
      end;
      cbn [DecimalPos.Unsigned.usize];
      rewrite N2Z.inj_succ, Z.pow_succ_r by lia;
      rewrite N2Z.inj_add, N2Z.inj_mul, N2Z.inj_pow; cbn [Z.of_N]; lia .. ].
Qed.

Lemma digits_value_zeros (k : nat) (cs : list ascii) :
  digits_value 0 true (list_ascii_of_string (zeros k) ++ cs) = digits_value 0 true cs.
Proof. induction k as [|k IH]; [reflexivity|exact IH]. Qed.

Lemma digits_value_start (acc : Z) (cs : list ascii) :
  cs <> [] ->
  Forall (fun c => exists v, digit_value c = Some v) cs ->
  digits_value acc false cs = digits_value acc true cs.
Proof.
  intros Hne H. destruct cs as [|c r]; [contradiction|].
  inversion H as [|? ? [v Hv] _]; subst. simpl. now rewrite Hv.
Qed.

Lemma string_of_uint_nonempty (d : Decimal.uint) :
  d <> Decimal.Nil -> list_ascii_of_string (NilEmpty.string_of_uint d) <> [].
Proof. destruct d; intros H; [contradiction|discriminate ..]. Qed.

Lemma digits_value_zfill (w : nat) (d : Decimal.uint) :
  d <> Decimal.Nil ->
  digits_value 0 false (list_ascii_of_string (zfill w (NilEmpty.string_of_uint d)))
  = Some (Z.of_N (Pos.of_uint d)).
Proof.
  intros Hd. rewrite digits_value_start.
  - unfold zfill. rewrite list_ascii_of_string_app, digits_value_zeros.
    now rewrite digits_value_uint.
  - unfold zfill. rewrite list_ascii_of_string_app. intros H.
    apply app_eq_nil in H. now apply (string_of_uint_nonempty d Hd).
  - apply zfill_digits.
Qed.

Lemma lstrip_no_space (cs : list ascii) :
  Forall (fun c => is_space c = false) cs -> lstrip cs = cs.
Proof. intros H. destruct H as [|c r Hc _]; simpl; [reflexivity|now rewrite Hc]. Qed.

Lemma strip_no_space (cs : list ascii) :
  Forall (fun c => is_space c = false) cs -> strip cs = cs.
Proof.
  intros H. unfold strip. rewrite (lstrip_no_space cs H).
  rewrite lstrip_no_space by now apply Forall_rev.
  apply rev_involutive.
Qed.

Lemma length_zeros (k : nat) : String.length (zeros k) = k.
Proof. induction k; simpl; congruence. Qed.

Lemma string_length_app (a b : string) :
  String.length (a ++ b) = String.length a + String.length b.
Proof. induction a; simpl; congruence. Qed.

Lemma length_list_ascii (s : string) : List.length (list_ascii_of_string s) = String.length s.
Proof. induction s; simpl; congruence. Qed.

Lemma length_zfill (w : nat) (s : string) :
  String.length (zfill w s) = Nat.max w (String.length s).
Proof. unfold zfill. rewrite string_length_app, length_zeros. lia. Qed.

Lemma usize_length (d : Decimal.uint) :
  DecimalPos.Unsigned.usize d = N.of_nat (String.length (NilEmpty.string_of_uint d)).
Proof.
  induction d; cbn [DecimalPos.Unsigned.usize NilEmpty.string_of_uint String.length];
    [reflexivity|rewrite IHd; lia ..].
Qed.

(** A number below [10 ^ k] is written with at most [k] digits. *)
Lemma to_uint_length (n : N) (k : nat) :
  1 <= k ->
  (n < 10 ^ N.of_nat k)%N ->
  String.length (NilEmpty.string_of_uint (N.to_uint n)) <= k.
Proof.
  intros Hk Hn.
  pose proof (DecimalN.Unsigned.of_to n) as Hof.
  pose proof (DecimalN.Unsigned.to_of (N.to_uint n)) as Hnorm.
  rewrite Hof in Hnorm.
  assert (Hbig : forall d' (c : N) (Dk : Decimal.uint -> Decimal.uint),
             N.to_uint n = Dk d' ->
             (forall x, Decimal.revapp (Dk d') x = Decimal.revapp d' (Dk x)) ->
             DecimalPos.Unsigned.of_lu (Dk Decimal.Nil) = c ->
             (1 <= c)%N ->
             S (String.length (NilEmpty.string_of_uint d')) <= k).
  { intros d' c Dk E Hrev Hc Hpos.
    rewrite E in Hof. unfold N.of_uint in Hof.
    rewrite (of_uint_cons d' c Dk Hrev Hc) in Hof.
    assert (Hlt : (10 ^ DecimalPos.Unsigned.usize d' < 10 ^ N.of_nat k)%N) by nia.
    apply N.pow_lt_mono_r_iff in Hlt; [|lia].
    rewrite usize_length in Hlt. lia. }
  destruct (N.to_uint n) as [|d'|d'|d'|d'|d'|d'|d'|d'|d'|d'] eqn:E;
    cbn [NilEmpty.string_of_uint String.length];
    [ lia
    | 
    | eapply Hbig; [reflexivity|intros x; reflexivity|reflexivity|vm_compute; discriminate] .. ].
  rewrite DecimalFacts.unorm_D0 in Hnorm.
  destruct d' as [|d''|d''|d''|d''|d''|d''|d''|d''|d''|d''];
    [ simpl; lia
    | exfalso ..].
  - unfold Decimal.unorm in Hnorm.
    destruct (Decimal.nzhead (Decimal.D0 d'')) eqn:Hz; try discriminate.
    injection Hnorm as Hx. subst.
    now apply (DecimalFacts.nzhead_nonzero (Decimal.D0 d'') (Decimal.D0 d'')).
  - simpl in Hnorm. discriminate.
  - simpl in Hnorm. discriminate.
  - simpl in Hnorm. discriminate.
  - simpl in Hnorm. discriminate.
  - simpl in Hnorm. discriminate.
  - simpl in Hnorm. discriminate.
  - simpl in Hnorm. discriminate.
  - simpl in Hnorm. discriminate.
  - simpl in Hnorm. discriminate.
Qed.

Lemma forallb_digits_ascii (cs : list ascii) :
  Forall (fun c => exists v, digit_value c = Some v) cs -> forallb is_ascii cs = true.
Proof.
  intros H. apply forallb_forall. intros c Hc.
  rewrite Forall_forall in H. destruct (H c Hc) as [v Hv].
  now destruct (digit_char c v Hv) as (_ & Ha & _).
Qed.

Lemma digits_no_space (cs : list ascii) :
  Forall (fun c => exists v, digit_value c = Some v) cs ->
  Forall (fun c => is_space c = false) cs.
Proof.
  apply Forall_impl. intros c [v Hv]. now destruct (digit_char c v Hv).
Qed.

Lemma digits_no_underscore (cs : list ascii) :
  Forall (fun c => exists v, digit_value c = Some v) cs ->
  filter (fun c => negb (Ascii.eqb c "_")) cs = cs.
Proof.
  induction 1 as [|c r [v Hv] _ IH]; simpl; [reflexivity|].
  destruct (digit_char c v Hv) as (_ & _ & Hu & _). now rewrite Hu, IH.
Qed.

(** [int] reads a zero-padded numeral of at most [max_str_digits] digits as
    its value. *)
Lemma int_zfill (w : nat) (d : Decimal.uint) :
  d <> Decimal.Nil ->
  Nat.max w (String.length (NilEmpty.string_of_uint d)) <= max_str_digits ->
  Py.int (zfill w (NilEmpty.string_of_uint d)) = Ok (Z.of_N (Pos.of_uint d)) /\
  Py.int (String "-" (zfill w (NilEmpty.string_of_uint d))) = Ok (- Z.of_N (Pos.of_uint d))%Z.
Proof.
  intros Hd Hlen.
  pose proof (zfill_digits w d) as Hdig.
  pose proof (digits_value_zfill w d Hd) as Hval.
  pose proof (digits_no_underscore _ Hdig) as Hund.
  pose proof (length_zfill w (NilEmpty.string_of_uint d)) as Hl.
  rewrite <- length_list_ascii in Hl.
  set (cs := list_ascii_of_string (zfill w (NilEmpty.string_of_uint d))) in *.
  assert (Hcheck : (List.length cs <=? max_str_digits)%nat = true).
  { apply Nat.leb_le. lia. }
  split.
  - unfold Py.int. fold cs.
    rewrite (forallb_digits_ascii cs Hdig). cbn [negb].
    rewrite (strip_no_space cs (digits_no_space cs Hdig)).
    destruct cs as [|c r] eqn:E; [discriminate Hval|].
    inversion Hdig as [|? ? [v Hv] _]; subst.
    destruct (digit_char c v Hv) as (_ & _ & _ & Hm & Hp).
    rewrite Hm, Hp, Hval, Hund. now rewrite Hcheck.
  - unfold Py.int. cbn [list_ascii_of_string]. fold cs.
    cbn [forallb]. rewrite (forallb_digits_ascii cs Hdig).
    change (is_ascii "-") with true. cbn [andb negb].
    rewrite (strip_no_space ("-"%char :: cs)).
    + change (Ascii.eqb "-" "-") with true. cbv iota.
      rewrite Hval, Hund. now rewrite Hcheck.
    + constructor; [reflexivity|exact (digits_no_space cs Hdig)].
Qed.

Lemma to_uint_nonnil (n : N) : N.to_uint n <> Decimal.Nil.
Proof.
  destruct n; [discriminate|]. apply DecimalPos.Unsigned.to_uint_nonnil.
Qed.

(** The text [format_020] gives a number of the [int64] range is read back
    by [int] as that number, and has twenty characters. *)
Lemma int_format_020 (n : Z) :
  Np.in_int64 n = true ->
  Py.int (format_020 n) = Ok n /\ String.length (format_020 n) = 20.
Proof.
  unfold Np.in_int64. intros H. apply andb_prop in H. destruct H as [Hlo Hhi].
  apply Z.leb_le in Hlo. apply Z.ltb_lt in Hhi.
  assert (Hdigits : String.length (NilEmpty.string_of_uint (N.to_uint (Z.abs_N n))) <= 19).
  { apply to_uint_length; [lia|]. change (10 ^ N.of_nat 19)%N with 10000000000000000000%N.
    change (2 ^ 63)%Z with 9223372036854775808%Z in *. lia. }
  pose proof (DecimalN.Unsigned.of_to (Z.abs_N n)) as Hof. unfold N.of_uint in Hof.
  unfold format_020. destruct (n <? 0)%Z eqn:Hneg.
  - apply Z.ltb_lt in Hneg.
    destruct (int_zfill 19 _ (to_uint_nonnil (Z.abs_N n))) as [_ Hint].
    { unfold max_str_digits. lia. }
    rewrite Hint, Hof. split; [f_equal; lia|].
    cbn [String.length]. rewrite length_zfill. lia.
  - apply Z.ltb_ge in Hneg.
    destruct (int_zfill 20 _ (to_uint_nonnil (Z.abs_N n))) as [Hint _].
    { unfold max_str_digits. lia. }
    rewrite Hint, Hof. split; [f_equal; lia|].
    rewrite length_zfill. lia.
Qed.

(** ** Paths as text and back *)

Lemma split_slash_nonempty (s : string) : split_slash s <> [].
Proof.
  induction s as [|c s IH]; simpl; [discriminate|].
  destruct (Ascii.eqb c "/"); [discriminate|].
  destruct (split_slash s); discriminate.
Qed.

Lemma split_slash_app (a b : string) :
  split_slash (a ++ String "/" b) = split_slash a ++ split_slash b.
Proof.
  induction a as [|c a IH]; [reflexivity|].
  cbn [String.append split_slash]. rewrite IH.
  destruct (Ascii.eqb c "/"); [reflexivity|].
  pose proof (split_slash_nonempty a) as Hne.
  destruct (split_slash a); [contradiction|reflexivity].
Qed.

Lemma Path_app (a b : string) : Path (a ++ String "/" b) = Path a ++ Path b.
Proof. unfold Path. now rewrite split_slash_app, filter_app. Qed.

Lemma proper_name_parts (n : string) :
  proper_name n = true ->
  String.eqb n "" = false /\ String.eqb n "." = false /\
  existsb (Ascii.eqb "/") (list_ascii_of_string n) = false.
Proof.
  unfold proper_name. intros H.
  apply andb_prop in H. destruct H as [H Hslash].
  apply andb_prop in H. destruct H as [Hempty Hdot].
  now apply negb_true_iff in Hslash, Hempty, Hdot.
Qed.

Lemma Path_proper (n : string) : proper_name n = true -> Path n = [n].
Proof.
  intros H. destruct (proper_name_parts n H) as (He & Hd & Hs).
  unfold Path. rewrite (split_slash_no_slash n Hs). simpl. now rewrite He, Hd.
Qed.

Lemma str_snoc_slash (dir : path) (n : string) :
  dir <> [] -> str (dir ++ [n]) = (str dir ++ String "/" n)%string.
Proof.
  intros Hne. induction dir as [|c r IH]; [contradiction|].
  destruct r as [|c' r']; [reflexivity|].
  assert (IH' := IH ltac:(discriminate)).
  change (str ((c :: c' :: r') ++ [n]))
    with (c ++ "/" ++ str (((c' :: r') ++ [n])%list))%string.
  rewrite IH'.
  change (str (c :: c' :: r')) with (c ++ "/" ++ str (c' :: r'))%string.
  now rewrite !string_app_assoc.
Qed.

(** The text of [dir / n] is read back as the path of [dir] followed by
    [n]. *)
Lemma Path_str_snoc (dir : path) (n : string) :
  proper_name n = true -> Path (str (dir ++ [n])) = Path (str dir) ++ [n].
Proof.
  intros H. destruct dir as [|c r].
  - simpl. now rewrite (Path_proper n H).
  - rewrite str_snoc_slash by discriminate.
    now rewrite Path_app, (Path_proper n H).
Qed.

(** [Path(str(p))] is [p]. *)
Lemma Path_str (p : path) : forallb proper_name p = true -> Path (str p) = p.
Proof.
  induction p as [|n p IH] using rev_ind; intros H; [reflexivity|].
  rewrite forallb_app in H. apply andb_prop in H. destruct H as [Hp Hn].
  cbn [forallb] in Hn. rewrite andb_true_r in Hn.
  now rewrite (Path_str_snoc p n Hn), (IH Hp).
Qed.

Lemma name_Path_str (dir : path) (n : string) :
  proper_name n = true -> name (Path (str (dir ++ [n]))) = n.
Proof.
  intros H. rewrite (Path_str_snoc dir n H). unfold name. apply last_last.
Qed.

(** The twenty characters [format_020] gives can name a directory entry. *)
Lemma format_020_proper (n : Z) : proper_name (format_020 n) = true.
Proof.
  assert (Hd : forall cs,
             Forall (fun c => exists v, digit_value c = Some v) cs ->
             existsb (Ascii.eqb "/") cs = false).
  { induction 1 as [|c r [v Hv] _ IH]; [reflexivity|].
    cbn [existsb]. rewrite IH.
    destruct (Ascii.eqb_spec "/" c) as [<-|]; [discriminate Hv|reflexivity]. }
  assert (Hz : forall w d, d <> Decimal.Nil -> 2 <= w ->
             exists c1 c2 r, zfill w (NilEmpty.string_of_uint d) = String c1 (String c2 r) /\
                             exists v, digit_value c1 = Some v).
  { intros w d Hdn Hw.
    pose proof (length_zfill w (NilEmpty.string_of_uint d)) as Hl.
    pose proof (zfill_digits w d) as Hdig.
    destruct (zfill w (NilEmpty.string_of_uint d)) as [|c1 [|c2 r]]; simpl in Hl; try lia.
    exists c1, c2, r. split; [reflexivity|]. now inversion Hdig. }
  unfold format_020, proper_name.
  pose proof (to_uint_nonnil (Z.abs_N n)) as Hn.
  destruct (n <? 0)%Z.
  - cbn [list_ascii_of_string existsb]. rewrite (Hd _ (zfill_digits 19 _)).
    destruct (Hz 19 _ Hn ltac:(lia)) as (c1 & c2 & r & -> & _). reflexivity.
  - rewrite (Hd _ (zfill_digits 20 _)).
    destruct (Hz 20 _ Hn ltac:(lia)) as (c1 & c2 & r & -> & _).
    cbn [String.eqb]. now destruct (Ascii.eqb c1 ".").
Qed.

(** ** Listing the iterations *)

(** With the run given, [get_all_iterations] is a function of the disk and
    leaves the state as it is. *)
Lemma get_all_iterations_given (run : path) (w : world) :
  get_all_iterations (Some run) w
  = ((folders <- glob (root w) (run ++ ["cells"; "json"]) Star ;;
      ns <- traverse (fun f => Py.int (name (Path f))) folders ;;
      Np.sort_ints ns)%outcome, w).
Proof.
  unfold get_all_iterations, bindM, or_last_output_path, ret, disk, lift.
  destruct (glob _ _ _) as [folders| |]; try reflexivity. cbn [Py.bind].
  destruct (traverse _ folders); reflexivity.
Qed.

(** The names are read off the paths [glob] returned. *)
Lemma traverse_int_names (dir : path) (names : list string) :
  forallb proper_name names = true ->
  traverse (fun f => Py.int (name (Path f))) (map (fun n => str (dir ++ [n])) names)
  = traverse Py.int names.
Proof.
  induction names as [|n r IH]; intros H; [reflexivity|].
  cbn [forallb] in H. apply andb_prop in H. destruct H as [Hn Hr].
  cbn [map traverse]. now rewrite (name_Path_str dir n Hn), (IH Hr).
Qed.

Lemma traverse_int_format (its : list Z) :
  forallb Np.in_int64 its = true -> traverse Py.int (map format_020 its) = Ok its.
Proof.
  induction its as [|n r IH]; intros H; [reflexivity|].
  cbn [forallb] in H. apply andb_prop in H. destruct H as [Hn Hr].
  cbn [map traverse]. destruct (int_format_020 n Hn) as [-> _].
  cbn [Py.bind]. now rewrite (IH Hr).
Qed.

Lemma length_lstrip (cs : list ascii) : List.length (lstrip cs) <= List.length cs.
Proof.
  induction cs as [|c r IH]; simpl; [lia|]. destruct (is_space c); simpl; lia.
Qed.

Lemma length_strip (cs : list ascii) : List.length (strip cs) <= List.length cs.
Proof.
  unfold strip. rewrite length_rev.
  pose proof (length_lstrip (rev (lstrip cs))) as H1.
  rewrite length_rev in H1. pose proof (length_lstrip cs). lia.
Qed.

(** On ASCII text of at most [max_str_digits] characters, [int] returns a
    number or raises [ValueError]. *)
Lemma int_cases (s : string) :
  forallb is_ascii (list_ascii_of_string s) = true ->
  String.length s <= max_str_digits ->
  (exists n, Py.int s = Ok n) \/ Py.int s = Raise ValueError.
Proof.
  intros Ha Hl. unfold Py.int. rewrite Ha. cbn [negb].
  pose proof (length_strip (list_ascii_of_string s)) as Hs.
  rewrite length_list_ascii in Hs.
  set (body := strip (list_ascii_of_string s)) in *.
  assert (Hds : forall neg ds,
             List.length ds <= List.length body ->
             (exists n,
                match digits_value 0 false ds with
                | Some v =>
                    if (List.length (filter (fun c => negb (Ascii.eqb c "_")) ds)
                        <=? max_str_digits)%nat
                    then Ok (if neg : bool then (- v)%Z else v)
                    else Unmodelled
                | None => Raise ValueError
                end = Ok n) \/
             match digits_value 0 false ds with
             | Some v =>
                 if (List.length (filter (fun c => negb (Ascii.eqb c "_")) ds)
                     <=? max_str_digits)%nat
                 then Ok (if neg : bool then (- v)%Z else v)
                 else Unmodelled
             | None => Raise ValueError
             end = Raise ValueError).
  { intros neg ds Hle. destruct (digits_value 0 false ds); [|now right].
    pose proof (filter_length_le (fun c => negb (Ascii.eqb c "_")) ds) as Hf.
    replace (_ <=? _)%nat with true; [left; eauto|].
    symmetry. apply Nat.leb_le. lia. }
  destruct body as [|c r]; [apply (Hds false []); simpl; lia|].
  destruct (Ascii.eqb c "-"); [apply (Hds true r); simpl; lia|].
  destruct (Ascii.eqb c "+"); [apply (Hds false r)|apply (Hds false (c :: r))]; simpl; lia.
Qed.

(** ** Entries and what is listed *)

Lemma assoc_in_fst {V : Type} (x : string) (es : list (string * V)) :
  (exists v, assoc x es = Some v) <-> In x (map fst es).
Proof.
  induction es as [|[k v] r IH]; simpl.
  - split; [intros [v H]; discriminate|contradiction].
  - destruct (String.eqb_spec x k) as [->|Hne].
    + split; [now left|eauto].
    + rewrite IH. split; [now right|]. intros [H|H]; [congruence|exact H].
Qed.

(** An entry exists exactly when its directory lists its name. *)
Lemma exists_listdir (d : path) (x : string) :
  forall n, exists_ n (d ++ [x]) = true <-> In x (listdir n d).
Proof.
  unfold exists_, listdir. induction d as [|c d IH]; intros n; simpl.
  - destruct n as [|es]; [split; [discriminate|contradiction]|].
    rewrite in_keys_once. simpl. rewrite <- assoc_in_fst.
    destruct (assoc x es) as [m|].
    + split; [eauto|reflexivity].
    + split; [discriminate|]. intros [_ [v H]]. discriminate.
  - destruct n as [|es]; [split; [discriminate|contradiction]|].
    destruct (assoc c es) as [m|]; [apply IH|].
    split; [discriminate|contradiction].
Qed.

Lemma listing_exists (n : node) (d : path) (pat : pattern) (x : string) :
  In x (listing n d pat) -> exists_ n (d ++ [x]) = true.
Proof.
  unfold listing. intros H. apply filter_In in H. now apply exists_listdir.
Qed.

(** ** Reading the shards, one after the other *)

Lemma read_shard_stored (file : string) (w : world) :
  read_shard file w
  = (stored_records (root w) file, {| root := root w; log := log w ++ [Read file] |}).
Proof.
  unfold read_shard, json_load, stored_records, bindM, emit, disk, lift, ret, raise.
  cbn [root log].
  destruct (walk (root w) (Path file)) as [[[j| |]|es]|]; reflexivity.
Qed.

Lemma for_each_read_ok (files : list string) :
  forall w rss,
    traverse (stored_records (root w)) files = Ok rss ->
    for_each read_shard files w
    = (Ok rss, {| root := root w; log := log w ++ map Read files |}).
Proof.
  induction files as [|f r IH]; intros w rss H.
  - injection H as <-. cbn [for_each map]. rewrite app_nil_r. now destruct w.
  - cbn [traverse] in H.
    destruct (stored_records (root w) f) as [rs| |] eqn:Hf; try discriminate.
    cbn [Py.bind] in H.
    destruct (traverse (stored_records (root w)) r) as [rest| |] eqn:Hr; try discriminate.
    injection H as <-.
    cbn [for_each]. unfold bindM at 1. rewrite read_shard_stored, Hf.
    unfold bindM at 1.
    rewrite (IH {| root := root w; log := log w ++ [Read f] |} rest Hr).
    unfold ret. cbn [root log map]. now rewrite <- app_assoc.
Qed.

Lemma for_each_read_fail (pre post : list string) (f : string) (e : exn) :
  forall w rss,
    traverse (stored_records (root w)) pre = Ok rss ->
    stored_records (root w) f = Raise e ->
    for_each read_shard (pre ++ f :: post) w
    = (Raise e, {| root := root w; log := log w ++ map Read (pre ++ [f]) |}).
Proof.
  induction pre as [|g r IH]; intros w rss H Hf.
  - cbn [app for_each map]. unfold bindM at 1. now rewrite read_shard_stored, Hf.
  - cbn [traverse] in H.
    destruct (stored_records (root w) g) as [rs| |] eqn:Hg; try discriminate.
    cbn [Py.bind] in H.
    destruct (traverse (stored_records (root w)) r) as [rest| |] eqn:Hr; try discriminate.
    change ((g :: r) ++ f :: post) with (g :: (r ++ f :: post)).
    cbn [for_each]. unfold bindM at 1. rewrite read_shard_stored, Hg.
    unfold bindM at 1.
    rewrite (IH {| root := root w; log := log w ++ [Read g] |} rest Hr Hf).
    cbn [root log app map]. now rewrite <- app_assoc.
Qed.

(** A table that is built has one row per record. *)
Lemma to_table_rows (results : list json) (c : cells) :
  to_table results = Ok c ->
  List.length (frame c) = List.length results /\
  List.length (points c) = List.length results /\
  List.length (intracellular c) = List.length results.
Proof.
  unfold to_table.
  destruct (Pd.json_normalize results) as [df| |] eqn:Hdf; try discriminate. cbn [Py.bind].
  destruct (Pd.column df "cell.mechanics.points") as [xs| |] eqn:Hx; try discriminate.
  cbn [Py.bind].
  destruct (traverse reshape_points xs) as [pts| |] eqn:Hp; try discriminate.
  cbn [Py.bind].
  destruct (Pd.column df "cell.intracellular") as [ys| |] eqn:Hy; try discriminate.
  cbn [Py.bind].
  destruct (traverse Np.array_float ys) as [ics| |] eqn:Hi; try discriminate.
  cbn [Py.bind]. intros [= <-]. cbn [frame points intracellular].
  rewrite (proj1 (traverse_ok_nth _ _ _ Hp)), (proj1 (traverse_ok_nth _ _ _ Hi)).
  rewrite (column_length _ _ _ Hx), (column_length _ _ _ Hy).
  unfold Pd.json_normalize in Hdf.
  now rewrite (proj1 (traverse_ok_nth _ _ _ Hdf)).
Qed.

(** ** Files and directories under [mkdir] and [write] *)

(** What was written is what is read. *)
Lemma walk_write (p : path) (c : content) :
  forall n n', write n p c = Ok n' -> walk n' p = Some (File c).
Proof.
  induction p as [|k r IH]; intros n n' H; simpl in H.
  - destruct n; [|discriminate]. now injection H as <-.
  - destruct n as [|es]; [discriminate|].
    destruct (assoc k es) as [m|] eqn:Hk.
    + destruct (write m r c) as [m'| |] eqn:Hw; simpl in H; try discriminate.
      injection H as <-. simpl. rewrite assoc_set_entry. exact (IH m m' Hw).
    + destruct r; [|discriminate]. injection H as <-.
      simpl. now rewrite assoc_set_entry.
Qed.

(** [mkdir] creates no file and changes none. *)
Lemma mkdir_keeps_files (p : path) :
  forall n d,
    mkdir n p = Ok d ->
    forall q c, walk d q = Some (File c) <-> walk n q = Some (File c).
Proof.
  induction p as [|k r IH]; intros n d H q c; simpl in H.
  - destruct n; [discriminate|]. now injection H as <-.
  - destruct n as [|es]; [discriminate|].
    destruct (mkdir _ r) as [m| |] eqn:Hm; simpl in H; try discriminate.
    injection H as <-.
    destruct q as [|k' q']; [split; discriminate|].
    simpl. destruct (String.eqb_spec k' k) as [->|Hne].
    + rewrite assoc_set_entry. rewrite (IH _ m Hm q' c).
      destruct (assoc k es) as [ch|]; [reflexivity|].
      destruct q'; simpl; split; discriminate.
    + now rewrite (assoc_set_entry_other k k' m es Hne).
Qed.

(** [mkdir] creates no entry in the directory it makes. *)
Lemma mkdir_keeps_entries (p : path) (x : string) :
  forall n d, mkdir n p = Ok d -> exists_ d (p ++ [x]) = exists_ n (p ++ [x]).
Proof.
  unfold exists_.
  induction p as [|k r IH]; intros n d H; simpl in H.
  - destruct n; [discriminate|]. now injection H as <-.
  - destruct n as [|es]; [discriminate|].
    destruct (mkdir _ r) as [m| |] eqn:Hm; simpl in H; try discriminate.
    injection H as <-. simpl. rewrite assoc_set_entry.
    rewrite (IH _ m Hm).
    destruct (assoc k es) as [ch|]; [reflexivity|].
    destruct r; reflexivity.
Qed.

(** A disk that lists at least the names of another has at least its
    entries. *)
Lemma exists_incl (n n' : node) (q : path) :
  (forall d, incl (listdir n d) (listdir n' d)) ->
  exists_ n q = true -> exists_ n' q = true.
Proof.
  intros H. destruct q as [|x q _] using rev_ind; [reflexivity|].
  rewrite !exists_listdir. apply H.
Qed.

(** ** Rendering an iteration *)

Lemma plot_rows_axes (viridis : Mpl.cmap_arg -> Mpl.rgba) (lo hi : float)
    (rows : list (Np.matrix * Np.ndarray)) :
  forall ax ax',
    plot_rows viridis ax rows lo hi = Ok ax' ->
    Mpl.xlim ax' = Mpl.xlim ax /\ Mpl.ylim ax' = Mpl.ylim ax /\
    Mpl.axis_on ax' = Mpl.axis_on ax /\
    List.length (Mpl.patches ax') = List.length (Mpl.patches ax) + List.length rows.
Proof.
  induction rows as [|[pos ic] r IH]; intros ax ax' H; simpl in H.
  - injection H as <-. repeat split. simpl. lia.
  - destruct (cell_color viridis lo hi ic) as [c| |]; try discriminate.
    cbn [Py.bind] in H. destruct (IH _ _ H) as (Hx & Hy & Ha & Hp).
    rewrite Hx, Hy, Ha, Hp. cbn [Mpl.add_patch Mpl.xlim Mpl.ylim Mpl.axis_on Mpl.patches].
    repeat split. rewrite length_app. simpl. lia.
Qed.

Section Render.
Variable viridis : Mpl.cmap_arg -> Mpl.rgba.

(** A call that gets past the test of the snapshot and returns has loaded
    the cells, drawn them and written the picture. *)
Lemma plot_cells_at_iter_rendering (it : Z) (lo hi : float) (run : path)
    (sp : option path) (ow tr : bool) (w w' : world) (p : path) (d : node) :
  mkdir (root w) (snapshot_dir run sp) = Ok d ->
  exists_ d (snapshot_dir run sp ++ [snapshot_name it]) && negb ow = false ->
  plot_cells_at_iter viridis it lo hi (Some run) sp ow tr w = (Ok p, w') ->
  exists c w1 ax,
    load_cells it (Some run) {| root := d; log := log w |} = (Ok c, w1) /\
    plot_cells viridis
      (Mpl.set_axis_off (Mpl.set_ylim 0 800 (Mpl.set_xlim 0 800 Mpl.subplots))) c lo hi
    = Ok ax /\
    p = snapshot_dir run sp ++ [snapshot_name it] /\
    write d p (Picture {| Mpl.drawn := ax; Mpl.transparent_background := tr |})
    = Ok (root w') /\
    log w' = log w1 ++ [Draw (List.length (points c)); Save p].
Proof.
  intros Hmk Hex. unfold plot_cells_at_iter.
  unfold bindM at 1. cbn [or_last_output_path]. unfold ret at 1.
  unfold bindM at 1, disk at 1.
  unfold bindM at 1, lift at 1. rewrite Hmk.
  unfold bindM at 1, set_disk at 1.
  unfold bindM at 1, disk at 1. cbn [root log]. rewrite Hex.
  unfold bindM at 1.
  pose proof (reads_load_cells it (Some run) {| root := d; log := log w |}) as Hread.
  destruct (load_cells it (Some run) _) as [[c| |] w1] eqn:Hl; try discriminate.
  cbn [snd root] in Hread.
  unfold bindM at 1, emit at 1.
  unfold bindM at 1, lift at 1.
  destruct (plot_cells viridis _ c lo hi) as [ax| |] eqn:Hp; try discriminate.
  unfold bindM at 1, savefig.
  unfold bindM at 1, emit at 1.
  unfold bindM at 1, disk at 1.
  unfold bindM at 1, lift at 1. cbn [root log].
  destruct (write (root w1) _ _) as [d'| |] eqn:Hw; try discriminate.
  unfold set_disk, ret. intros [= <- <-].
  exists c, w1, ax. cbn [root log]. rewrite Hread in Hw.
  split; [reflexivity|]. split; [exact Hp|]. split; [reflexivity|].
  split; [exact Hw|]. now rewrite <- app_assoc.
Qed.

End Render.

(** ** Sorting is a function of the elements *)

Section SortUnique.
Context {A : Type} (le : A -> A -> bool).
Hypothesis le_total : forall x y, le x y = true \/ le y x = true.
Hypothesis le_trans : forall x y z, le x y = true -> le y z = true -> le x z = true.
Hypothesis le_antisym : forall x y, le x y = true -> le y x = true -> x = y.

Lemma sorted_perm_eq (l : list A) :
  forall l',
    StronglySorted (fun x y => le x y = true) l ->
    StronglySorted (fun x y => le x y = true) l' ->
    Permutation l l' -> l = l'.
Proof.
  induction l as [|x r IH]; intros l' Hl Hl' Hp.
  - apply Permutation_nil in Hp. now subst.
  - destruct l' as [|y r']; [now apply Permutation_sym, Permutation_nil in Hp|].
    apply StronglySorted_inv in Hl. destruct Hl as [Hr Hx].
    apply StronglySorted_inv in Hl'. destruct Hl' as [Hr' Hy].
    rewrite Forall_forall in Hx, Hy.
    assert (E : x = y).
    { assert (Hxin : In x (y :: r')) by (apply (Permutation_in x Hp); now left).
      assert (Hyin : In y (x :: r)).
      { apply (Permutation_in y (Permutation_sym Hp)). now left. }
      destruct Hxin as [->|Hxin]; [reflexivity|].
      destruct Hyin as [->|Hyin]; [reflexivity|].
      apply le_antisym; auto. }
    subst y. f_equal. apply IH; try assumption.
    now apply Permutation_cons_inv in Hp.
Qed.

Lemma sort_perm_eq (l l' : list A) : Permutation l l' -> Py.sort le l = Py.sort le l'.
Proof.
  intros Hp. apply sorted_perm_eq.
  - now apply sort_sorted.
  - now apply sort_sorted.
  - eapply Permutation_trans; [apply Permutation_sym, sort_perm|].
    eapply Permutation_trans; [exact Hp|apply sort_perm].
Qed.

End SortUnique.

Lemma string_leb_antisym (a b : string) :
  String.leb a b = true -> String.leb b a = true -> a = b.
Proof.
  rewrite !string_leb_iff. intros [->|H1] [E|H2]; auto.
  exfalso. apply (OrderedTypeEx.String_as_OT.lt_not_eq a a); [|reflexivity].
  eapply OrderedTypeEx.String_as_OT.lt_trans; eauto.
Qed.

Lemma Z_leb_antisym (x y : Z) : (x <=? y)%Z = true -> (y <=? x)%Z = true -> x = y.
Proof. rewrite !Z.leb_le. lia. Qed.

Lemma traverse_perm {A B : Type} (f : A -> outcome B) (l l' : list A) :
  Permutation l l' ->
  forall r, traverse f l = Ok r -> exists r', traverse f l' = Ok r' /\ Permutation r r'.
Proof.
  induction 1 as [|x l l' _ IH|x y l|l l' l'' _ IH1 _ IH2]; intros r Hr.
  - exists r. split; [exact Hr|apply Permutation_refl].
  - cbn [traverse] in *. destruct (f x) as [b| |]; try discriminate. cbn [Py.bind] in *.
    destruct (traverse f l) as [r0| |]; try discriminate. injection Hr as <-.
    destruct (IH r0 eq_refl) as (r0' & -> & Hp).
    exists (b :: r0'). split; [reflexivity|now apply perm_skip].
  - cbn [traverse] in *.
    destruct (f y) as [b| |]; try discriminate. cbn [Py.bind] in *.
    destruct (f x) as [a| |]; try discriminate. cbn [Py.bind] in *.
    destruct (traverse f l) as [r0| |]; try discriminate. injection Hr as <-.
    exists (a :: b :: r0). split; [reflexivity|apply perm_swap].
  - destruct (IH1 r Hr) as (r1 & H1 & Hp1).
    destruct (IH2 r1 H1) as (r2 & H2 & Hp2).
    exists r2. split; [exact H2|eapply Permutation_trans; eauto].
Qed.

(** ** The names of the snapshots *)

Lemma string_app_inj_l (a b s t : string) :
  String.length a = String.length b -> (a ++ s = b ++ t)%string -> a = b.
Proof.
  revert b. induction a as [|c a IH]; intros [|c' b] Hl H; try discriminate.
  - reflexivity.
  - simpl in Hl, H. injection H as -> H. f_equal. apply IH; [lia|exact H].
Qed.

(** Two iterations of the [int64] range with one snapshot name are one
    iteration. *)
Lemma snapshot_name_inj (n m : Z) :
  Np.in_int64 n = true -> Np.in_int64 m = true ->
  snapshot_name n = snapshot_name m -> n = m.
Proof.
  intros Hn Hm H.
  destruct (int_format_020 n Hn) as [Hint Hlen].
  destruct (int_format_020 m Hm) as [Hint' Hlen'].
  unfold snapshot_name in H. cbn [String.append] in H.
  injection H as H.
  apply string_app_inj_l in H; [|congruence].
  rewrite H in Hint. congruence.
Qed.

Lemma NoDup_map_in {A B : Type} (f : A -> B) (l : list A) :
  (forall x y, In x l -> In y l -> f x = f y -> x = y) -> NoDup l -> NoDup (map f l).
Proof.
  intros Hinj H. induction H as [|x r Hx _ IH]; [constructor|].
  cbn [map]. constructor.
  - intros Hin. apply in_map_iff in Hin. destruct Hin as (y & Hy & Hyr).
    assert (y = x) by (apply Hinj; [now right|now left|exact Hy]).
    now subst.
  - apply IH. intros a b Ha Hb. apply Hinj; now right.
Qed.

(** The iterations [get_all_iterations] returns are of the [int64]
    range. *)
Lemma get_all_iterations_range (op : option path) (w w' : world) (its : list Z) :
  get_all_iterations op w = (Ok its, w') -> forallb Np.in_int64 its = true.
Proof.
  unfold get_all_iterations, bindM.
  destruct (or_last_output_path op w) as [[run| |] w1]; try discriminate.
  unfold disk, lift.
  destruct (glob _ _ _) as [folders| |]; try discriminate.
  destruct (traverse _ _) as [ns| |]; try discriminate.
  unfold Np.sort_ints. destruct (forallb Np.in_int64 ns) eqn:Hr; try discriminate.
  intros [= <- <-]. rewrite forallb_forall in *. intros x Hx. apply Hr.
  exact (Permutation_in x (Permutation_sym (sort_perm Z.leb ns)) Hx).
Qed.

(** ** The pool, job by job *)

Section PoolSteps.
Context {A B : Type} (f : A -> M B).

Lemma find_result_nodup (i : nat) (r : outcome B) (done : list (nat * outcome B)) :
  NoDup (map fst done) -> In (i, r) done -> find_result i done = r.
Proof.
  induction done as [|[j r'] rest IH]; simpl; intros Hnd Hin; [contradiction|].
  inversion Hnd as [|? ? Hj Hrest]; subst.
  destruct Hin as [[= -> ->]|Hin]; [now rewrite Nat.eqb_refl|].
  destruct (Nat.eqb_spec i j) as [->|Hne]; [|now apply IH].
  exfalso. apply Hj. apply in_map_iff. now exists (j, r).
Qed.

(** A pool that handed out a list has run every job to a result. *)
Lemma imap_list_all_ok (schedule : list nat) (xs : list A) (w w' : world) (l : list B) :
  imap_list schedule f xs w = (Ok l, w') ->
  exists done,
    complete f (List.length xs) schedule (combine (seq 0 (List.length xs)) xs) w
    = (done, w') /\
    Forall (fun ir => is_ok (snd ir) = true) done.
Proof.
  unfold imap_list.
  destruct (complete f (List.length xs) schedule
              (combine (seq 0 (List.length xs)) xs) w) as [done w3] eqn:Ec.
  intros [= Ht <-]. exists done. split; [reflexivity|].
  destruct (complete_spec f _ _ _ _ _ _ Ec) as [Hperm _].
  { rewrite length_combine, length_seq. lia. }
  rewrite map_fst_combine_seq in Hperm.
  assert (Hnd : NoDup (map fst done)).
  { eapply Permutation_NoDup; [exact Hperm|apply seq_NoDup]. }
  apply Forall_forall. intros [j r] Hin. cbn [snd].
  assert (Hj : In j (seq 0 (List.length xs))).
  { apply (Permutation_in j (Permutation_sym Hperm)).
    apply in_map_iff. now exists (j, r). }
  destruct (In_nth_error _ _ Hj) as [k Hk].
  destruct (proj2 (traverse_ok_nth _ _ _ Ht) k j Hk) as (b & _ & Hb).
  rewrite (find_result_nodup j r done Hnd Hin) in Hb. now rewrite Hb.
Qed.

(** A property of the jobs still pending and the state, kept by every job
    that returns, holds at the end of a pool in which every job
    returned. *)
Lemma complete_ok_invariant (Q : list (nat * A) -> world -> Prop) :
  (forall pending k i a w b w1,
     nth_error pending k = Some (i, a) ->
     Q pending w -> f a w = (Ok b, w1) -> Q (remove_nth k pending) w1) ->
  forall fuel schedule pending w done w',
    complete f fuel schedule pending w = (done, w') ->
    List.length pending <= fuel ->
    Forall (fun ir => is_ok (snd ir) = true) done ->
    Q pending w -> Q [] w'.
Proof.
  intros Hstep.
  induction fuel as [|fuel IH]; intros schedule pending w done w' H Hlen Hok HQ.
  - destruct pending; [|simpl in Hlen; lia]. now injection H as _ <-.
  - cbn [complete] in H.
    destruct (nth_error pending (hd 0 schedule mod List.length pending))
      as [[i a]|] eqn:En.
    + destruct (f a w) as [r w1] eqn:Ef.
      destruct (complete f fuel (tl schedule)
                  (remove_nth (hd 0 schedule mod List.length pending) pending) w1)
        as [done' w2] eqn:Ec.
      injection H as <- <-.
      inversion Hok as [|? ? Hr Hrest]; subst. cbn [snd] in Hr.
      destruct r as [b| |]; try discriminate.
      pose proof (remove_nth_perm pending _ (i, a) En) as Hp.
      apply (IH _ _ _ _ _ Ec); [|exact Hrest|exact (Hstep _ _ _ _ _ _ _ En HQ Ef)].
      apply Permutation_length in Hp. simpl in Hp. lia.
    + injection H as _ <-.
      apply nth_error_None in En.
      destruct pending as [|p rest]; [exact HQ|].
      pose proof (Nat.mod_upper_bound (hd 0 schedule) (List.length (p :: rest))) as Hk.
      simpl in Hk, En. lia.
Qed.

(** Jobs that return at once on a state, leaving it as it is, leave it as
    it is together. *)
Lemma complete_idle (w : world) :
  forall fuel schedule pending,
    (forall i a, In (i, a) pending -> exists b, f a w = (Ok b, w)) ->
    exists done,
      complete f fuel schedule pending w = (done, w) /\
      Forall (fun ir => is_ok (snd ir) = true) done.
Proof.
  induction fuel as [|fuel IH]; intros schedule pending H.
  - exists []. split; [reflexivity|constructor].
  - cbn [complete].
    destruct (nth_error pending (hd 0 schedule mod List.length pending))
      as [[i a]|] eqn:En; [|exists []; split; [reflexivity|constructor]].
    destruct (H i a (nth_error_In _ _ En)) as [b Hb]. rewrite Hb.
    pose proof (remove_nth_perm pending _ (i, a) En) as Hp.
    destruct (IH (tl schedule)
                (remove_nth (hd 0 schedule mod List.length pending) pending))
      as (done & Hd & Hok).
    { intros j a' Hin. apply (H j a').
      apply (Permutation_in _ (Permutation_sym Hp)). now right. }
    rewrite Hd. exists ((i, Ok b) :: done). split; [reflexivity|].
    constructor; [reflexivity|exact Hok].
Qed.

End PoolSteps.

(** ** A batch and the folders of the iterations *)

Lemma listdir_missing (c : path) (y : string) (r : path) :
  listdir (Dir []) (c ++ y :: r) = [].
Proof. unfold listdir. destruct c; reflexivity. Qed.

(** [mkdir] and [write] below one entry of a directory leave what is
    listed below another entry of it as it was. *)
Lemma mkdir_other_branch (c : path) (x y : string) (r r' : path) :
  x <> y ->
  forall n d,
    mkdir n (c ++ x :: r) = Ok d -> listdir d (c ++ y :: r') = listdir n (c ++ y :: r').
Proof.
  intros Hxy. induction c as [|k c IH]; intros n d H; simpl in H.
  - destruct n as [|es]; [discriminate|].
    destruct (mkdir _ r) as [m| |]; simpl in H; try discriminate.
    injection H as <-. unfold listdir. simpl.
    rewrite assoc_set_entry_other; [reflexivity|now apply not_eq_sym].
  - destruct n as [|es]; [discriminate|].
    destruct (mkdir _ (c ++ x :: r)) as [m| |] eqn:Hm; simpl in H; try discriminate.
    injection H as <-.
    change ((k :: c) ++ y :: r') with (k :: (c ++ y :: r')).
    rewrite (listdir_cons _ k _ m (assoc_set_entry k m es)).
    rewrite (IH _ m Hm).
    destruct (assoc k es) as [ch|] eqn:Hk.
    + now rewrite (listdir_cons es k _ ch Hk).
    + rewrite listdir_missing. unfold listdir. simpl. now rewrite Hk.
Qed.

Lemma write_other_branch (c : path) (x y : string) (r r' : path) (v : content) :
  x <> y ->
  forall n d,
    write n (c ++ x :: r) v = Ok d -> listdir d (c ++ y :: r') = listdir n (c ++ y :: r').
Proof.
  intros Hxy. induction c as [|k c IH]; intros n d H; simpl in H.
  - destruct n as [|es]; [discriminate|].
    destruct (assoc x es) as [m|].
    + destruct (write m r v) as [m'| |]; simpl in H; try discriminate.
      injection H as <-. unfold listdir. simpl.
      rewrite assoc_set_entry_other; [reflexivity|now apply not_eq_sym].
    + destruct r; [|discriminate]. injection H as <-. unfold listdir. simpl.
      rewrite assoc_set_entry_other; [reflexivity|now apply not_eq_sym].
  - destruct n as [|es]; [discriminate|].
    destruct (assoc k es) as [ch|] eqn:Hk.
    + destruct (write ch (c ++ x :: r) v) as [m| |] eqn:Hm; simpl in H; try discriminate.
      injection H as <-.
      change ((k :: c) ++ y :: r') with (k :: (c ++ y :: r')).
      rewrite (listdir_cons _ k _ m (assoc_set_entry k m es)).
      rewrite (IH _ m Hm). now rewrite (listdir_cons es k _ ch Hk).
    + destruct (c ++ x :: r) eqn:E; [destruct c; discriminate|discriminate].
Qed.

(** What [get_all_iterations] returns for a run depends on the names
    listed in its [cells/json]. *)
Lemma get_all_iterations_same_listing (run : path) (w w' : world) :
  listdir (root w') (run ++ ["cells"; "json"]) = listdir (root w) (run ++ ["cells"; "json"]) ->
  fst (get_all_iterations (Some run) w') = fst (get_all_iterations (Some run) w).
Proof.
  intros H. rewrite !get_all_iterations_given. cbn [fst].
  unfold glob, listing. now rewrite H.
Qed.

Lemma nth_in_combine_seq {A : Type} (xs : list A) :
  forall s i a, nth_error xs i = Some a -> In (s + i, a) (combine (seq s (List.length xs)) xs).
Proof.
  induction xs as [|x r IH]; intros s i a H; [destruct i; discriminate|].
  destruct i as [|i]; simpl in H.
  - injection H as <-. left. f_equal. lia.
  - right. replace (s + S i) with (S s + i) by lia. now apply IH.
Qed.

Section BatchSteps.
Variable viridis : Mpl.cmap_arg -> Mpl.rgba.

(** A call for a run that returns leaves the folders of the iterations as
    they were, removes no entry, and leaves the snapshot in place. *)
Lemma plot_cells_at_iter_step (it : Z) (lo hi : float) (run : path) (ow tr : bool)
    (w w' : world) (p : path) :
  plot_cells_at_iter viridis it lo hi (Some run) None ow tr w = (Ok p, w') ->
  listdir (root w') (run ++ ["cells"; "json"]) = listdir (root w) (run ++ ["cells"; "json"]) /\
  (forall q, exists_ (root w) q = true -> exists_ (root w') q = true) /\
  p = run ++ ["images"; snapshot_name it] /\
  exists_ (root w') p = true.
Proof.
  intros H.
  destruct (plot_cells_at_iter_returns viridis it lo hi (Some run) None ow tr w w' p H)
    as (run' & w1 & Hres & Hp & Hex).
  cbn [or_last_output_path] in Hres. unfold ret in Hres. injection Hres as <- <-.
  cbn [snapshot_dir] in Hp. rewrite <- app_assoc in Hp. cbn [app] in Hp.
  split; [|split; [|split; [exact Hp|exact Hex]]].
  - destruct (plot_cells_at_iter_disk viridis it lo hi (Some run) None ow tr w w' p H)
      as (run' & w1 & d & Hres & Hmk & Hdisk).
    cbn [or_last_output_path] in Hres. unfold ret in Hres. injection Hres as <- <-.
    cbn [snapshot_dir] in Hmk, Hdisk.
    assert (Hd : listdir d (run ++ ["cells"; "json"])
                 = listdir (root w) (run ++ ["cells"; "json"])).
    { apply (mkdir_other_branch run "images" "cells" [] ["json"]); [discriminate|exact Hmk]. }
    destruct Hdisk as [->|[x Hw]]; [exact Hd|].
    rewrite <- app_assoc in Hw. cbn [app] in Hw.
    rewrite <- Hd.
    apply (write_other_branch run "images" "cells" [snapshot_name it] ["json"] x);
      [discriminate|exact Hw].
  - intros q. apply exists_incl.
    exact (plot_cells_at_iter_grows viridis it lo hi (Some run) None ow tr w w' p H).
Qed.

(** After a batch for a run that returned, the folders of the iterations
    are as they were and every snapshot is in place. *)
Lemma batch_leaves_snapshots (schedule : list nat) (lo hi : float) (run : path)
    (ow tr : bool) (its : list Z) (w w' : world) (l : list path) :
  imap_list schedule (__plotting_helper viridis) (arguments its lo hi run None ow tr) w
  = (Ok l, w') ->
  listdir (root w') (run ++ ["cells"; "json"]) = listdir (root w) (run ++ ["cells"; "json"]) /\
  forall it, In it its -> exists_ (root w') (run ++ ["images"; snapshot_name it]) = true.
Proof.
  intros H.
  destruct (imap_list_all_ok _ _ _ _ _ _ H) as (done & Hc & Hok).
  set (jobs := arguments its lo hi run None ow tr) in *.
  set (pending0 := combine (seq 0 (List.length jobs)) jobs) in *.
  set (Q := fun (pending : list (nat * job)) (v : world) =>
              listdir (root v) (run ++ ["cells"; "json"])
              = listdir (root w) (run ++ ["cells"; "json"]) /\
              (forall i a, In (i, a) pending -> In a jobs) /\
              (forall it, In it its ->
                 (exists i, In (i, ((it, lo, hi),
                                    {| output_path := Some run; save_path := None;
                                       overwrite := ow; transparent := tr |})) pending) \/
                 exists_ (root v) (run ++ ["images"; snapshot_name it]) = true)).
  assert (HQ : Q [] w').
  { apply (complete_ok_invariant (__plotting_helper viridis) Q) with
      (fuel := List.length jobs) (schedule := schedule) (pending := pending0)
      (w := w) (done := done); try assumption.
    - intros pending k i a v b v1 Hk (Hl & Hjobs & Hits) Hf.
      pose proof (remove_nth_perm pending k (i, a) Hk) as Hperm.
      assert (Ha : In a jobs) by (apply (Hjobs i); eapply nth_error_In; eauto).
      unfold jobs, arguments in Ha. apply in_map_iff in Ha.
      destruct Ha as (it0 & <- & Hit0).
      cbn [__plotting_helper output_path save_path overwrite transparent] in Hf.
      destruct (plot_cells_at_iter_step it0 lo hi run ow tr v v1 b Hf)
        as (Hl1 & Hmono & Hb & Hex).
      split; [now rewrite Hl1|]. split.
      + intros j a' Hin. apply (Hjobs j).
        apply (Permutation_in _ (Permutation_sym Hperm)). now right.
      + intros it Hit. destruct (Hits it Hit) as [[j Hj]|Hthere].
        * apply (Permutation_in _ Hperm) in Hj. destruct Hj as [Hj|Hj].
          { right. injection Hj as _ <-. now rewrite <- Hb. }
          { left. now exists j. }
        * right. now apply Hmono.
    - unfold pending0. rewrite length_combine, length_seq. lia.
    - split; [reflexivity|]. split.
      + intros i a Hin. unfold pending0 in Hin. apply in_combine_r in Hin. exact Hin.
      + intros it Hit. left.
        assert (Hj : In (((it, lo, hi),
                          {| output_path := Some run; save_path := None;
                             overwrite := ow; transparent := tr |}) : job) jobs).
        { unfold jobs, arguments. apply in_map_iff. now exists it. }
        destruct (In_nth_error _ _ Hj) as [i Hi]. exists i.
        unfold pending0.
        exact (nth_in_combine_seq jobs 0 i _ Hi). }
  destruct HQ as (Hl & _ & Hits). split; [exact Hl|].
  intros it Hit. destruct (Hits it Hit) as [[j []]|Hex]. exact Hex.
Qed.

End BatchSteps.

(** ** What is saved *)

Lemma saves_app (a b : list event) : saves (a ++ b) = saves a ++ saves b.
Proof. unfold saves. apply flat_map_app. Qed.

Lemma saves_nothing_ret {A : Type} (a : A) : saves_nothing (ret a).
Proof. intros w. exists []. now rewrite app_nil_r. Qed.

Lemma saves_nothing_raise {A : Type} (e : exn) : saves_nothing (@raise A e).
Proof. intros w. exists []. now rewrite app_nil_r. Qed.

Lemma saves_nothing_lift {A : Type} (m : outcome A) : saves_nothing (lift m).
Proof. intros w. exists []. now rewrite app_nil_r. Qed.

Lemma saves_nothing_disk : saves_nothing disk.
Proof. intros w. exists []. now rewrite app_nil_r. Qed.

Lemma saves_nothing_emit (e : event) : is_save e = false -> saves_nothing (emit e).
Proof. intros H w. exists [e]. split; [reflexivity|]. now destruct e. Qed.

Lemma saves_nothing_bind {A B : Type} (m : M A) (k : A -> M B) :
  saves_nothing m -> (forall a, saves_nothing (k a)) -> saves_nothing (bindM m k).
Proof.
  intros Hm Hk w. unfold bindM. destruct (Hm w) as (n1 & H1 & S1).
  destruct (m w) as [[a| |] w1]; cbn [snd] in *; [|now exists n1 ..].
  destruct (Hk a w1) as (n2 & H2 & S2).
  exists (n1 ++ n2). split.
  - now rewrite H2, H1, app_assoc.
  - now rewrite saves_app, S1, S2.
Qed.

Lemma saves_nothing_for_each {A B : Type} (body : A -> M B) (xs : list A) :
  (forall x, saves_nothing (body x)) -> saves_nothing (for_each body xs).
Proof.
  intros H. induction xs as [|x r IH]; cbn [for_each].
  - apply saves_nothing_ret.
  - apply saves_nothing_bind; [apply H|]. intros y.
    apply saves_nothing_bind; [exact IH|]. intros ys. apply saves_nothing_ret.
Qed.

Ltac unsaved :=
  repeat first
    [ apply saves_nothing_ret | apply saves_nothing_raise | apply saves_nothing_lift
    | apply saves_nothing_disk
    | apply saves_nothing_emit; reflexivity
    | apply saves_nothing_for_each; intros ?
    | apply saves_nothing_bind; [|intros ?]
    | match goal with
      | |- saves_nothing (if ?b then _ else _) => destruct b
      | |- saves_nothing (match ?x with _ => _ end) => destruct x
      end ].

Lemma saves_nothing_load_cells (it : Z) (op : option path) : saves_nothing (load_cells it op).
Proof.
  unfold load_cells, or_last_output_path, get_last_output_path, read_records,
    read_shard, json_load.
  unsaved.
Qed.

Lemma saves_nothing_get_all_iterations (op : option path) :
  saves_nothing (get_all_iterations op).
Proof.
  unfold get_all_iterations, or_last_output_path, get_last_output_path. unsaved.
Qed.

(** Writing a file leaves every other entry as it was. *)
Lemma write_keeps_others (p : path) (x : content) :
  forall n n' q, write n p x = Ok n' -> q <> p -> exists_ n' q = exists_ n q.
Proof.
  unfold exists_.
  induction p as [|k r IH]; intros n n' q H Hq; simpl in H.
  - destruct n; [|discriminate]. injection H as <-.
    destruct q; [contradiction|reflexivity].
  - destruct n as [|es]; [discriminate|].
    destruct q as [|k' q']; [reflexivity|].
    destruct (assoc k es) as [m|] eqn:Hk.
    + destruct (write m r x) as [m'| |] eqn:Hw; simpl in H; try discriminate.
      injection H as <-. simpl.
      destruct (String.eqb_spec k' k) as [->|Hne].
      * rewrite assoc_set_entry, Hk. apply (IH m m' q' Hw). congruence.
      * now rewrite (assoc_set_entry_other k k' m' es Hne).
    + destruct r; [|discriminate]. injection H as <-. simpl.
      destruct (String.eqb_spec k' k) as [->|Hne].
      * rewrite assoc_set_entry, Hk. destruct q'; [contradiction|reflexivity].
      * now rewrite (assoc_set_entry_other k k' _ es Hne).
Qed.

Section JobEffect.
Variable viridis : Mpl.cmap_arg -> Mpl.rgba.

(** What a call for a run that returns has saved, and what it left
    alone. *)
Lemma plot_cells_at_iter_effect (it : Z) (lo hi : float) (run : path) (sp : option path)
    (ow tr : bool) (w w' : world) (p : path) :
  plot_cells_at_iter viridis it lo hi (Some run) sp ow tr w = (Ok p, w') ->
  p = snapshot_dir run sp ++ [snapshot_name it] /\
  saves (log w') = saves (log w) ++ (if exists_ (root w) p && negb ow then [] else [p]) /\
  (forall x, snapshot_dir run sp ++ [x] <> p ->
     exists_ (root w') (snapshot_dir run sp ++ [x])
     = exists_ (root w) (snapshot_dir run sp ++ [x])).
Proof.
  intros H.
  destruct (plot_cells_at_iter_disk viridis it lo hi (Some run) sp ow tr w w' p H)
    as (run' & w0 & d & Hres & Hmk & Hdisk).
  cbn [or_last_output_path] in Hres. unfold ret in Hres. injection Hres as <- <-.
  destruct (plot_cells_at_iter_returns viridis it lo hi (Some run) sp ow tr w w' p H)
    as (run' & w0 & Hres & Hp & _).
  cbn [or_last_output_path] in Hres. unfold ret in Hres. injection Hres as <- <-.
  split; [exact Hp|]. subst p.
  set (p := snapshot_dir run sp ++ [snapshot_name it]) in *.
  pose proof (mkdir_keeps_entries _ (snapshot_name it) _ _ Hmk) as Hsame. fold p in Hsame.
  destruct (exists_ d p && negb ow) eqn:Hex.
  - assert (Hw' : w' = {| root := d; log := log w |}).
    { revert H. unfold plot_cells_at_iter.
      unfold bindM at 1. cbn [or_last_output_path]. unfold ret at 1.
      unfold bindM at 1, disk at 1.
      unfold bindM at 1, lift at 1. rewrite Hmk.
      unfold bindM at 1, set_disk at 1.
      unfold bindM at 1, disk at 1. cbn [root log]. fold p. rewrite Hex.
      unfold ret. intros E. apply (f_equal snd) in E. cbn [snd] in E. now symmetry. }
    subst w'. cbn [root log]. rewrite <- Hsame, Hex, app_nil_r.
    split; [reflexivity|].
    intros x _. exact (mkdir_keeps_entries _ x _ _ Hmk).
  - destruct (plot_cells_at_iter_rendering viridis it lo hi run sp ow tr w w' p d Hmk Hex H)
      as (c & w1 & ax & Hload & _ & _ & Hw & Hlog).
    destruct (saves_nothing_load_cells it (Some run) {| root := d; log := log w |})
      as (new & Hnew & Hs).
    rewrite Hload in Hnew. cbn [snd log] in Hnew.
    rewrite <- Hsame, Hex. split.
    + rewrite Hlog, Hnew, !saves_app, Hs, app_nil_r. reflexivity.
    + intros x Hx. rewrite (write_keeps_others _ _ _ _ _ Hw Hx).
      exact (mkdir_keeps_entries _ x _ _ Hmk).
Qed.

End JobEffect.

Lemma filter_perm {A : Type} (f : A -> bool) (l l' : list A) :
  Permutation l l' -> Permutation (filter f l) (filter f l').
Proof.
  induction 1 as [|x l l' _ IH|x y l|l l' l'' _ IH1 _ IH2]; cbn [filter].
  - constructor.
  - destruct (f x); [now constructor|exact IH].
  - destruct (f x), (f y); try apply Permutation_refl. apply perm_swap.
  - eapply Permutation_trans; eauto.
Qed.

Section BatchSaves.
Variable viridis : Mpl.cmap_arg -> Mpl.rgba.
Variables (lo hi : float) (run : path) (sp : option path) (ow tr : bool).

Let it_of (a : job) : Z := fst (fst (fst a)).

Let target (it : Z) : path := snapshot_dir run sp ++ [snapshot_name it].

(** The saves of a pool over iterations without repetition, every job of
    which returned: one for each snapshot that was missing when the pool
    began, or for each snapshot under [overwrite]. *)
Lemma pool_saves (schedule : list nat) (its : list Z) (w w' : world) (l : list path) :
  forallb Np.in_int64 its = true ->
  NoDup its ->
  imap_list schedule (__plotting_helper viridis) (arguments its lo hi run sp ow tr) w
  = (Ok l, w') ->
  Permutation (saves (log w'))
    (saves (log w) ++
     filter (fun p => ow || negb (exists_ (root w) p))
            (map (fun it => snapshot_dir run sp ++ [snapshot_name it]) its)).
Proof.
  intros Hrange Hnd H.
  change (fun it => snapshot_dir run sp ++ [snapshot_name it]) with target.
  rewrite forallb_forall in Hrange.
  destruct (imap_list_all_ok _ _ _ _ _ _ H) as (done & Hc & Hok).
  set (need := fun p => ow || negb (exists_ (root w) p)).
  set (jobs := arguments its lo hi run sp ow tr) in *.
  set (Q := fun (pending : list (nat * job)) (v : world) =>
              let pits := map (fun ia => it_of (snd ia)) pending in
              NoDup pits /\
              incl pits its /\
              (forall i a, In (i, a) pending -> In a jobs) /\
              (forall it, In it pits ->
                 exists_ (root v) (target it) = exists_ (root w) (target it)) /\
              Permutation (saves (log v) ++ filter need (map target pits))
                          (saves (log w) ++ filter need (map target its))).
  assert (HQ : Q [] w').
  { apply (complete_ok_invariant (__plotting_helper viridis) Q) with
      (fuel := List.length jobs) (schedule := schedule)
      (pending := combine (seq 0 (List.length jobs)) jobs) (w := w) (done := done);
      try assumption.
    - intros pending k i a v b v1 Hk (Hnd1 & Hincl & Hjobs & Hex & Hperm) Hf.
      pose proof (remove_nth_perm pending k (i, a) Hk) as Hp.
      pose proof (Permutation_map (fun ia => it_of (snd ia)) Hp) as Hpits.
      cbn [map snd] in Hpits.
      assert (Ha : In a jobs) by (apply (Hjobs i); eapply nth_error_In; eauto).
      unfold jobs, arguments in Ha. apply in_map_iff in Ha.
      destruct Ha as (it & <- & Hit).
      cbn [__plotting_helper output_path save_path overwrite transparent] in Hf.
      change (it_of (it, lo, hi, _)) with it in Hpits.
      destruct (plot_cells_at_iter_effect viridis it lo hi run sp ow tr v v1 b Hf)
        as (Hb & Hsaves & Hothers).
      fold (target it) in Hb. subst b.
      pose proof (Permutation_NoDup Hpits Hnd1) as Hnd2.
      inversion Hnd2 as [|? ? Hfresh Hnd3]; subst.
      assert (Hin : In it (map (fun ia => it_of (snd ia)) pending)).
      { apply (Permutation_in it (Permutation_sym Hpits)). now left. }
      unfold Q. cbv zeta. split; [exact Hnd3|]. split; [|split; [|split]].
      + intros x Hx. apply Hincl.
        apply (Permutation_in x (Permutation_sym Hpits)). now right.
      + intros j a' Hin'. apply (Hjobs j).
        apply (Permutation_in _ (Permutation_sym Hp)). now right.
      + intros it' Hit'.
        assert (Hin' : In it' (map (fun ia => it_of (snd ia)) pending)).
        { apply (Permutation_in it' (Permutation_sym Hpits)). now right. }
        rewrite <- (Hex it' Hin'). apply Hothers.
        intros E. apply (f_equal (fun p => last p "")) in E.
        unfold target in E. rewrite !last_last in E.
        apply snapshot_name_inj in E; [|apply Hrange; now apply Hincl ..].
        subst it'. contradiction.
      + rewrite Hsaves, (Hex it Hin).
        eapply Permutation_trans; [|exact Hperm].
        rewrite <- app_assoc. apply Permutation_app_head.
        eapply Permutation_trans;
          [|apply Permutation_sym;
            exact (filter_perm need _ _ (Permutation_map target Hpits))].
        cbn [map filter]. unfold need at 2.
        destruct ow; cbn [negb andb orb]; [rewrite andb_false_r; reflexivity|].
        rewrite andb_true_r.
        now destruct (exists_ (root w) (target it)).
    - rewrite length_combine, length_seq. lia.
    - unfold Q. cbv zeta.
      assert (Hpits : map (fun ia : nat * job => it_of (snd ia))
                        (combine (seq 0 (List.length jobs)) jobs) = its).
      { rewrite <- (map_map snd it_of), map_snd_combine by apply length_seq.
        unfold jobs, arguments. rewrite map_map. apply map_id. }
      rewrite Hpits. split; [exact Hnd|]. split; [apply incl_refl|].
      split; [|split; [reflexivity|apply Permutation_refl]].
      intros i a Hin. now apply in_combine_r in Hin. }
  destruct HQ as (_ & _ & _ & _ & Hperm).
  cbn [map filter] in Hperm. now rewrite app_nil_r in Hperm.
Qed.

End BatchSaves.

(** ** The columns of the table *)

(** A member of a dictionary is flattened under the dictionary's name. *)
Lemma flatten_at_member (name : string) (inner : list (string * json)) (k : string)
    (v : json) :
  assoc k inner = Some v ->
  incl (Pd.flatten_at (name ++ "." ++ k) v) (Pd.flatten_at name (JObj inner)).
Proof.
  cbn [Pd.flatten_at].
  assert (H : forall seen,
             existsb (String.eqb k) seen = false ->
             assoc k inner = Some v ->
             incl (Pd.flatten_at (name ++ "." ++ k) v)
               ((fix members (seen : list string) (ms : list (string * json)) {struct ms}
                   : Pd.row :=
                   match ms with
                   | [] => []
                   | (k, x) :: r =>
                       if existsb (String.eqb k) seen then members seen r
                       else Pd.flatten_at (name ++ "." ++ k) x ++ members (k :: seen) r
                   end) seen inner)).
  { induction inner as [|[k' x] r IH]; intros seen Hseen Hk; [discriminate|].
    cbn [assoc] in Hk. destruct (String.eqb_spec k k') as [<-|Hne].
    - injection Hk as <-. rewrite Hseen. apply incl_appl, incl_refl.
    - destruct (existsb (String.eqb k') seen); [now apply IH|].
      apply incl_appr. apply IH; [|exact Hk].
      cbn [existsb]. rewrite Hseen.
      destruct (String.eqb_spec k k'); [contradiction|reflexivity]. }
  now apply H.
Qed.

Lemma flatten_member (ms : list (string * json)) (k : string) (v : json) :
  assoc k ms = Some v -> incl (Pd.flatten_at k v) (Pd.flatten ms).
Proof.
  assert (H : forall seen,
             existsb (String.eqb k) seen = false ->
             assoc k ms = Some v ->
             incl (Pd.flatten_at k v) (Pd.top_dict seen ms ++ Pd.nested_dict seen ms)).
  { induction ms as [|[k' x] r IH]; intros seen Hseen Hk; [discriminate|].
    cbn [assoc] in Hk. cbn [Pd.top_dict Pd.nested_dict].
    destruct (String.eqb_spec k k') as [<-|Hne].
    - injection Hk as <-. rewrite Hseen.
      destruct x; try (apply incl_appl; intros y [<-|[]]; now left).
      apply incl_appr, incl_appl, incl_refl.
    - destruct (existsb (String.eqb k') seen); [now apply IH|].
      assert (Hseen' : existsb (String.eqb k) (k' :: seen) = false).
      { cbn [existsb]. rewrite Hseen.
        destruct (String.eqb_spec k k'); [contradiction|reflexivity]. }
      specialize (IH (k' :: seen) Hseen' Hk).
      intros y Hy. apply IH in Hy. apply in_app_or in Hy. apply in_or_app.
      destruct x; destruct Hy as [Hy|Hy];
        try (left; right; exact Hy); try (left; exact Hy);
        try (right; exact Hy); right; apply in_or_app; now right. }
  now apply H.
Qed.

(** A nested member that is no dictionary becomes the column of its
    dotted name. *)
Lemma flatten_at_field (keys : list string) :
  forall name v x,
    field keys v = Some x ->
    is_dict x = false ->
    In (fold_left (fun n k => n ++ "." ++ k)%string keys name, x) (Pd.flatten_at name v).
Proof.
  induction keys as [|k rest IH]; intros name v x Hf Hx.
  - injection Hf as ->. destruct x; try discriminate; now left.
  - cbn [field] in Hf. destruct v as [| | | | |ms]; try discriminate.
    destruct (assoc k ms) as [y|] eqn:Hk; [|discriminate].
    cbn [fold_left]. apply (flatten_at_member name ms k y Hk). now apply IH.
Qed.

Lemma assoc_distinct {V : Type} (row : list (string * V)) (k : string) (v : V) :
  Pd.distinct (map fst row) = true -> In (k, v) row -> assoc k row = Some v.
Proof.
  induction row as [|[k' v'] r IH]; intros Hd Hin; [contradiction|].
  cbn [map fst Pd.distinct] in Hd. apply andb_prop in Hd. destruct Hd as [Hfresh Hd].
  cbn [assoc]. destruct Hin as [[= -> ->]|Hin]; [now rewrite String.eqb_refl|].
  destruct (String.eqb_spec k k') as [->|Hne]; [|now apply IH].
  exfalso. apply negb_true_iff in Hfresh.
  assert (existsb (String.eqb k') (map fst r) = true); [|congruence].
  apply existsb_exists. exists k'. split; [|apply String.eqb_refl].
  apply in_map_iff. now exists (k', v).
Qed.

(** The column of a dotted name holds, row by row, the nested member of
    the record. *)
Lemma column_field (results : list json) (df : Pd.DataFrame) (k : string)
    (rest : list string) (xs : list json) (i : nat) (r x : json) :
  Pd.json_normalize results = Ok df ->
  Pd.column df (fold_left (fun n k => n ++ "." ++ k)%string rest k) = Ok xs ->
  nth_error results i = Some r ->
  field (k :: rest) r = Some x ->
  is_dict x = false ->
  nth_error xs i = Some x.
Proof.
  intros Hdf Hxs Hr Hf Hx.
  unfold Pd.json_normalize in Hdf.
  destruct (proj2 (traverse_ok_nth _ _ _ Hdf) i r Hr) as (row & Hrow & Hnorm).
  cbn [field] in Hf. destruct r as [| | | | |ms]; try discriminate.
  destruct (assoc k ms) as [y|] eqn:Hk; [|discriminate].
  unfold Pd.normalize_record in Hnorm.
  destruct (Pd.distinct (map fst (Pd.flatten ms))) eqn:Hd; [|discriminate].
  injection Hnorm as <-.
  assert (Hin : In (fold_left (fun n k => n ++ "." ++ k)%string rest k, x)
                   (Pd.flatten ms)).
  { apply (flatten_member ms k y Hk). now apply flatten_at_field. }
  pose proof (assoc_distinct _ _ _ Hd Hin) as Hassoc.
  unfold Pd.column in Hxs. destruct (Pd.has_column df _); [|discriminate].
  injection Hxs as <-.
  rewrite (map_nth_error _ i df Hrow). f_equal.
  change (match assoc (fold_left (fun n k => n ++ "." ++ k)%string rest k)
                  (Pd.flatten ms) with
          | Some v => v
          | None => JNum nan
          end = x).
  now rewrite Hassoc.
Qed.

(** ** Not a number *)

Lemma ltb_nan (x : float) : (nan <? x)%float = false.
Proof. rewrite ltb_spec. reflexivity. Qed.

Lemma sub_nan (x : float) : (nan - x)%float = nan.
Proof. apply Prim2SF_inj. rewrite sub_spec. reflexivity. Qed.

Lemma div_nan (x : float) : (nan / x)%float = nan.
Proof. apply Prim2SF_inj. rewrite div_spec. reflexivity. Qed.

(** ** The directory of the snapshots *)

Lemma mkdir_file (p : path) (c : content) :
  forall n, walk n p = Some (File c) -> mkdir n p = Raise FileExistsError.
Proof.
  induction p as [|k r IH]; intros n H; simpl in *.
  - now injection H as ->.
  - destruct n as [|es]; [discriminate|].
    destruct (assoc k es) as [m|]; [|discriminate].
    now rewrite (IH m H).
Qed.

Lemma mkdir_below_file (p : path) (c : content) (k : string) (rest : path) :
  forall n, walk n p = Some (File c) -> mkdir n (p ++ k :: rest) = Raise NotADirectoryError.
Proof.
  induction p as [|k' r IH]; intros n H; simpl in *.
  - now injection H as ->.
  - destruct n as [|es]; [discriminate|].
    destruct (assoc k' es) as [m|]; [|discriminate].
    now rewrite (IH m H).
Qed.

(** An entry is an entry of a directory. *)
Lemma walk_parent (d : path) (x : string) :
  forall n, exists_ n (d ++ [x]) = true -> exists es, walk n d = Some (Dir es).
Proof.
  unfold exists_. induction d as [|k r IH]; intros n H; simpl in *.
  - destruct n as [|es]; [discriminate|]. now exists es.
  - destruct n as [|es]; [discriminate|].
    destruct (assoc k es) as [m|]; [|discriminate]. now apply IH.
Qed.

(** ** The pictures of a batch *)

(** Writing a file leaves every other file as it was. *)
Lemma write_keeps_other_files (p : path) (x : content) :
  forall n n' q c,
    write n p x = Ok n' -> q <> p ->
    (walk n' q = Some (File c) <-> walk n q = Some (File c)).
Proof.
  induction p as [|k r IH]; intros n n' q c H Hq; simpl in H.
  - destruct n; [|discriminate]. injection H as <-.
    destruct q; [contradiction|]. simpl. split; discriminate.
  - destruct n as [|es]; [discriminate|].
    destruct q as [|k' q'].
    { destruct (assoc k es) as [m|].
      - destruct (write m r x); simpl in H; try discriminate.
        injection H as <-. simpl. split; discriminate.
      - destruct r; [|discriminate]. injection H as <-. simpl. split; discriminate. }
    destruct (assoc k es) as [m|] eqn:Hk.
    + destruct (write m r x) as [m'| |] eqn:Hw; simpl in H; try discriminate.
      injection H as <-. simpl.
      destruct (String.eqb_spec k' k) as [->|Hne].
      * rewrite assoc_set_entry, Hk. apply (IH m m' q' c Hw). congruence.
      * now rewrite (assoc_set_entry_other k k' m' es Hne).
    + destruct r; [|discriminate]. injection H as <-. simpl.
      destruct (String.eqb_spec k' k) as [->|Hne].
      * rewrite assoc_set_entry, Hk.
        destruct q'; [contradiction|]. simpl. split; discriminate.
      * now rewrite (assoc_set_entry_other k k' _ es Hne).
Qed.

Section BatchPictures.
Variable viridis : Mpl.cmap_arg -> Mpl.rgba.
Variables (lo hi : float) (run : path) (sp : option path) (tr : bool).

(** A call with [overwrite] that returns leaves its picture and no other
    file changed. *)
Lemma plot_cells_at_iter_overwrites (it : Z) (w w' : world) (p : path) :
  plot_cells_at_iter viridis it lo hi (Some run) sp true tr w = (Ok p, w') ->
  p = snapshot_dir run sp ++ [snapshot_name it] /\
  pictured tr (root w') p /\
  (forall q c, q <> p ->
     (walk (root w') q = Some (File c) <-> walk (root w) q = Some (File c))).
Proof.
  intros H.
  destruct (plot_cells_at_iter_disk viridis it lo hi (Some run) sp true tr w w' p H)
    as (run' & w0 & d & Hres & Hmk & _).
  cbn [or_last_output_path] in Hres. unfold ret in Hres. injection Hres as <- <-.
  destruct (plot_cells_at_iter_rendering viridis it lo hi run sp true tr w w' p d Hmk
              (andb_false_r _) H)
    as (c & w1 & ax & _ & Hplot & Hp & Hw & _).
  split; [exact Hp|]. split.
  - exists ax. split; [exact (walk_write _ _ _ _ Hw)|].
    unfold plot_cells in Hplot.
    now destruct (plot_rows_axes viridis lo hi _ _ _ Hplot) as (Hx & Hy & Ha & _).
  - intros q c' Hq.
    rewrite (write_keeps_other_files _ _ _ _ q c' Hw Hq).
    exact (mkdir_keeps_files _ _ _ Hmk q c').
Qed.

(** After a pool of jobs with [overwrite], every job of which returned,
    the snapshot of every iteration is a picture. *)
Lemma pool_pictures (schedule : list nat) (its : list Z) (w w' : world) (l : list path) :
  imap_list schedule (__plotting_helper viridis) (arguments its lo hi run sp true tr) w
  = (Ok l, w') ->
  forall it, In it its -> pictured tr (root w') (snapshot_dir run sp ++ [snapshot_name it]).
Proof.
  intros H.
  destruct (imap_list_all_ok _ _ _ _ _ _ H) as (done & Hc & Hok).
  set (jobs := arguments its lo hi run sp true tr) in *.
  set (Q := fun (pending : list (nat * job)) (v : world) =>
              (forall i a, In (i, a) pending -> In a jobs) /\
              (forall it, In it its ->
                 (exists i, In (i, (((it, lo, hi),
                                     {| output_path := Some run; save_path := sp;
                                        overwrite := true; transparent := tr |}) : job))
                               pending) \/
                 pictured tr (root v) (snapshot_dir run sp ++ [snapshot_name it]))).
  assert (HQ : Q [] w').
  { apply (complete_ok_invariant (__plotting_helper viridis) Q) with
      (fuel := List.length jobs) (schedule := schedule)
      (pending := combine (seq 0 (List.length jobs)) jobs) (w := w) (done := done);
      try assumption.
    - intros pending k i a v b v1 Hk (Hjobs & Hits) Hf.
      pose proof (remove_nth_perm pending k (i, a) Hk) as Hperm.
      assert (Ha : In a jobs) by (apply (Hjobs i); eapply nth_error_In; eauto).
      unfold jobs, arguments in Ha. apply in_map_iff in Ha.
      destruct Ha as (it0 & <- & Hit0).
      cbn [__plotting_helper output_path save_path overwrite transparent] in Hf.
      destruct (plot_cells_at_iter_overwrites it0 v v1 b Hf) as (Hb & Hpic & Hothers).
      subst b. split.
      + intros j a' Hin. apply (Hjobs j).
        apply (Permutation_in _ (Permutation_sym Hperm)). now right.
      + intros it Hit. destruct (Hits it Hit) as [[j Hj]|Hthere].
        * apply (Permutation_in _ Hperm) in Hj. destruct Hj as [Hj|Hj].
          { right. injection Hj as _ <-. exact Hpic. }
          { left. now exists j. }
        * right.
          destruct (list_eq_dec string_dec
                      (snapshot_dir run sp ++ [snapshot_name it])
                      (snapshot_dir run sp ++ [snapshot_name it0])) as [E|Hne].
          { rewrite E. exact Hpic. }
          { destruct Hthere as (ax & Hwalk & Hax). exists ax. split; [|exact Hax].
            now apply (Hothers _ _ Hne). }
    - rewrite length_combine, length_seq. lia.
    - split.
      + intros i a Hin. now apply in_combine_r in Hin.
      + intros it Hit. left.
        assert (Hj : In (((it, lo, hi),
                          {| output_path := Some run; save_path := sp;
                             overwrite := true; transparent := tr |}) : job) jobs).
        { unfold jobs, arguments. apply in_map_iff. now exists it. }
        destruct (In_nth_error _ _ Hj) as [i Hi]. exists i.
        exact (nth_in_combine_seq jobs 0 i _ Hi). }
  destruct HQ as (_ & Hits).
  intros it Hit. destruct (Hits it Hit) as [[j []]|Hpic]. exact Hpic.
Qed.

End BatchPictures.

Section BatchParts.
Variable viridis : Mpl.cmap_arg -> Mpl.rgba.

(** A batch that returns has resolved the run, listed its iterations and
    run the pool on them. *)
Lemma batch_returns_parts (schedule : list nat) (lo hi : float) (op sp : option path)
    (ow tr : bool) (w w' : world) (l : list path) :
  plot_cells_at_all_iterations viridis schedule lo hi op sp ow tr w = (Ok l, w') ->
  exists run w1 its,
    or_last_output_path op w = (Ok run, w1) /\
    get_all_iterations (Some run) w1 = (Ok its, w1) /\
    imap_list schedule (__plotting_helper viridis) (arguments its lo hi run sp ow tr) w1
    = (Ok l, w') /\
    l = map (fun it => snapshot_dir run sp ++ [snapshot_name it]) its.
Proof.
  intros Hbatch.
  destruct (or_last_output_path op w) as [[run| |] w1] eqn:Hres;
    try (unfold plot_cells_at_all_iterations, bindM in Hbatch;
         rewrite Hres in Hbatch; discriminate).
  destruct (get_all_iterations (Some run) w1) as [r v] eqn:Hits.
  pose proof Hits as Hgiven. rewrite get_all_iterations_given in Hgiven.
  injection Hgiven as Hr <-.
  destruct r as [its| |];
    try (unfold plot_cells_at_all_iterations, bindM in Hbatch;
         rewrite Hres, Hits in Hbatch; discriminate).
  exists run, w1, its. split; [reflexivity|]. split; [exact Hits|].
  split.
  - now rewrite <- (plot_cells_at_all_iterations_jobs viridis schedule lo hi op sp ow tr
                      w w1 w1 run its Hres Hits).
  - exact (batch_result_in_order viridis schedule lo hi op sp ow tr w w1 w1 w' run its l
             Hres Hits Hbatch).
Qed.

End BatchParts.

(** ** Padded numbers in the order of text *)

Lemma digit_value_range (c : ascii) (d : Z) :
  digit_value c = Some d -> (0 <= d <= 9)%Z /\ d = (Z.of_N (N_of_ascii c) - 48)%Z.
Proof.
  unfold digit_value.
  destruct ((48 <=? N_of_ascii c) && (N_of_ascii c <=? 57))%N eqn:E; [|discriminate].
  intros [= <-]. apply andb_prop in E. destruct E as [E1 E2].
  apply N.leb_le in E1, E2. lia.
Qed.

(** The digits after an accumulator add a number below the power of ten of
    their count. *)
Lemma digits_value_tail (cs : list ascii) :
  Forall (fun c => exists v, digit_value c = Some v) cs ->
  exists v0,
    (0 <= v0 < 10 ^ Z.of_nat (List.length cs))%Z /\
    forall acc,
      digits_value acc true cs = Some (acc * 10 ^ Z.of_nat (List.length cs) + v0)%Z.
Proof.
  induction 1 as [|c r [d Hd] _ (v0 & Hv0 & IH)].
  - exists 0%Z. split; [simpl; lia|]. intros acc. simpl. f_equal. lia.
  - destruct (digit_value_range c d Hd) as [Hr _].
    exists (d * 10 ^ Z.of_nat (List.length r) + v0)%Z.
    cbn [List.length]. rewrite Nat2Z.inj_succ, Z.pow_succ_r by lia.
    split; [nia|].
    intros acc. cbn [digits_value]. rewrite Hd, IH. f_equal. lia.
Qed.

(** Numerals of one length compare as their values do. *)
Lemma digits_compare (s1 : string) :
  forall s2 v1 v2,
    Forall (fun c => exists v, digit_value c = Some v) (list_ascii_of_string s1) ->
    Forall (fun c => exists v, digit_value c = Some v) (list_ascii_of_string s2) ->
    String.length s1 = String.length s2 ->
    digits_value 0 true (list_ascii_of_string s1) = Some v1 ->
    digits_value 0 true (list_ascii_of_string s2) = Some v2 ->
    (v1 < v2)%Z ->
    String.compare s1 s2 = Lt.
Proof.
  induction s1 as [|c1 r1 IH]; intros [|c2 r2] v1 v2 H1 H2 Hlen Hv1 Hv2 Hlt;
    try discriminate.
  - simpl in Hv1, Hv2. injection Hv1 as <-. injection Hv2 as <-. lia.
  - cbn [list_ascii_of_string] in *.
    inversion H1 as [|? ? [d1 Hd1] Hr1]; subst.
    inversion H2 as [|? ? [d2 Hd2] Hr2]; subst.
    destruct (digits_value_tail _ Hr1) as (a1 & Ha1 & Hval1).
    destruct (digits_value_tail _ Hr2) as (a2 & Ha2 & Hval2).
    cbn [digits_value] in Hv1, Hv2. rewrite Hd1, Hval1 in Hv1. rewrite Hd2, Hval2 in Hv2.
    injection Hv1 as <-. injection Hv2 as <-.
    rewrite !length_list_ascii in *. cbn [String.length] in Hlen.
    injection Hlen as Hlen. rewrite <- Hlen in *.
    destruct (digit_value_range c1 d1 Hd1) as [R1 E1].
    destruct (digit_value_range c2 d2 Hd2) as [R2 E2].
    set (P := (10 ^ Z.of_nat (String.length r1))%Z) in *.
    assert (Hle : (d1 <= d2)%Z) by nia.
    cbn [String.compare]. unfold Ascii.compare.
    destruct (Z.eq_dec d1 d2) as [E|Hne].
    + assert (Hn : N_of_ascii c1 = N_of_ascii c2) by lia.
      rewrite Hn, N.compare_refl.
      apply (IH r2 a1 a2 Hr1 Hr2 Hlen).
      * now rewrite Hval1.
      * now rewrite Hval2.
      * subst d2. nia.
    + assert (Hn : (N_of_ascii c1 < N_of_ascii c2)%N) by lia.
      apply N.compare_lt_iff in Hn. now rewrite Hn.
Qed.

Lemma string_compare_app_lt (a : string) :
  forall b s t,
    String.length a = String.length b ->
    String.compare a b = Lt -> String.compare (a ++ s) (b ++ t) = Lt.
Proof.
  induction a as [|c a IH]; intros [|c' b] s t Hl H; try discriminate.
  cbn [String.append String.compare] in *.
  destruct (Ascii.compare c c'); try discriminate; [|reflexivity].
  apply IH; [now injection Hl|exact H].
Qed.

(** The padded text of a smaller number comes first. *)
Lemma format_020_lt (n m : Z) :
  (0 <= n)%Z -> (n < m)%Z -> Np.in_int64 m = true ->
  String.compare (format_020 n) (format_020 m) = Lt.
Proof.
  intros Hn Hlt Hm.
  assert (Hn' : Np.in_int64 n = true).
  { unfold Np.in_int64 in *. apply andb_prop in Hm. destruct Hm as [_ Hhi].
    apply Z.ltb_lt in Hhi. apply andb_true_intro. split.
    - apply Z.leb_le. change (- 2 ^ 63)%Z with (-9223372036854775808)%Z. lia.
    - apply Z.ltb_lt. lia. }
  destruct (int_format_020 n Hn') as [_ Ln].
  destruct (int_format_020 m Hm) as [_ Lm].
  assert (Hval : forall k, (0 <= k)%Z ->
             format_020 k = zfill 20 (NilEmpty.string_of_uint (N.to_uint (Z.abs_N k))) /\
             digits_value 0 true (list_ascii_of_string (format_020 k)) = Some k).
  { intros k Hk. unfold format_020.
    destruct (k <? 0)%Z eqn:E; [apply Z.ltb_lt in E; lia|].
    split; [reflexivity|].
    pose proof (to_uint_nonnil (Z.abs_N k)) as Hnn.
    rewrite <- digits_value_start.
    - rewrite (digits_value_zfill 20 _ Hnn).
      pose proof (DecimalN.Unsigned.of_to (Z.abs_N k)) as Hof.
      unfold N.of_uint in Hof. rewrite Hof. f_equal. lia.
    - unfold zfill. rewrite list_ascii_of_string_app. intros H.
      apply app_eq_nil in H. now apply (string_of_uint_nonempty _ Hnn).
    - apply zfill_digits. }
  destruct (Hval n Hn) as [En Vn]. destruct (Hval m ltac:(lia)) as [Em Vm].
  apply (digits_compare _ _ n m); try assumption; try congruence.
  - rewrite En. apply zfill_digits.
  - rewrite Em. apply zfill_digits.
Qed.

Lemma compare_lt_leb (a b : string) : String.compare a b = Lt -> String.leb a b = true.
Proof. unfold String.leb. now intros ->. Qed.

Lemma string_leb_refl (a : string) : String.leb a a = true.
Proof. destruct (String.leb_total a a); assumption. Qed.

(** A list in the order of [le] is left as it is by sorting. *)
Lemma sort_sorted_id {A : Type} (le : A -> A -> bool) (l : list A) :
  (forall x y, le x y = true \/ le y x = true) ->
  (forall x y z, le x y = true -> le y z = true -> le x z = true) ->
  (forall x y, le x y = true -> le y x = true -> x = y) ->
  StronglySorted (fun x y => le x y = true) l -> Py.sort le l = l.
Proof.
  intros Htot Htrans Hanti Hs. symmetry.
  apply (sorted_perm_eq le Hanti); [exact Hs|now apply sort_sorted|apply sort_perm].
Qed.

Lemma StronglySorted_map_in {A B : Type} (R : A -> A -> Prop) (S : B -> B -> Prop)
    (f : A -> B) (l : list A) :
  (forall x y, In x l -> In y l -> R x y -> S (f x) (f y)) ->
  StronglySorted R l -> StronglySorted S (map f l).
Proof.
  intros H Hs. induction Hs as [|x r Hr IH Hx]; cbn [map]; constructor.
  - apply IH. intros a b Ha Hb. apply H; now right.
  - apply Forall_forall. intros y Hy. apply in_map_iff in Hy.
    destruct Hy as (b & <- & Hb). rewrite Forall_forall in Hx.
    apply H; [now left|now right|now apply Hx].
Qed.

Lemma snapshot_name_lt (n m : Z) :
  (0 <= n)%Z -> (n < m)%Z -> Np.in_int64 m = true ->
  String.compare (snapshot_name n) (snapshot_name m) = Lt.
Proof.
  intros Hn Hlt Hm. unfold snapshot_name. rewrite string_compare_app.
  apply string_compare_app_lt; [|now apply format_020_lt].
  assert (Hn' : Np.in_int64 n = true).
  { unfold Np.in_int64 in *. apply andb_prop in Hm. destruct Hm as [_ Hhi].
    apply Z.ltb_lt in Hhi. apply andb_true_intro. split.
    - apply Z.leb_le. change (- 2 ^ 63)%Z with (-9223372036854775808)%Z. lia.
    - apply Z.ltb_lt. lia. }
  destruct (int_format_020 n Hn') as [_ ->].
  now destruct (int_format_020 m Hm) as [_ ->].
Qed.

(** ** A second batch *)

Section SecondBatch.
Variable viridis : Mpl.cmap_arg -> Mpl.rgba.

(** The list a pool hands out holds the snapshot paths of the iterations,
    in their order. *)
Lemma pool_result_in_order (schedule : list nat) (lo hi : float) (run : path)
    (sp : option path) (ow tr : bool) (its : list Z) (w w' : world) (l : list path) :
  imap_list schedule (__plotting_helper viridis) (arguments its lo hi run sp ow tr) w
  = (Ok l, w') ->
  l = map (fun it => snapshot_dir run sp ++ [snapshot_name it]) its.
Proof.
  intros Hall.
  destruct (imap_list_entries _ _ _ _ _ _ Hall) as [Hlen Hnth].
  rewrite arguments_length in Hlen.
  apply nth_error_ext. intros i. rewrite nth_error_map.
  destruct (nth_error its i) as [it|] eqn:Ei.
  - destruct (Hnth i ((it, lo, hi),
                       {| output_path := Some run; save_path := sp;
                          overwrite := ow; transparent := tr |}))
      as (b & w0 & Hb & Hf).
    { unfold arguments. now rewrite nth_error_map, Ei. }
    destruct (job_returns viridis lo hi sp ow tr its run i _ w0 b
                (map_nth_error _ i its Ei : nth_error (arguments its lo hi run sp ow tr) i = _)
                Hf)
      as (it' & Hi' & ->).
    rewrite Hb. rewrite Ei in Hi'. now injection Hi' as <-.
  - apply nth_error_None. apply nth_error_None in Ei. lia.
Qed.

(** With every snapshot in place, a pool of jobs without [overwrite]
    returns the paths and leaves the state as it is. *)
Lemma pool_short_circuits (schedule : list nat) (lo hi : float) (run : path) (tr : bool)
    (its : list Z) (v : world) :
  (forall it, In it its -> exists_ (root v) (run ++ ["images"; snapshot_name it]) = true) ->
  imap_list schedule (__plotting_helper viridis) (arguments its lo hi run None false tr) v
  = (Ok (map (fun it => snapshot_dir run None ++ [snapshot_name it]) its), v).
Proof.
  intros Hthere.
  set (jobs := arguments its lo hi run None false tr).
  destruct (complete_idle (__plotting_helper viridis) v (List.length jobs) schedule
              (combine (seq 0 (List.length jobs)) jobs)) as (done & Hdone & Hok).
  { intros i a Hin. apply in_combine_r in Hin.
    unfold jobs, arguments in Hin. apply in_map_iff in Hin.
    destruct Hin as (it & <- & Hit).
    cbn [__plotting_helper output_path save_path overwrite transparent].
    eexists.
    apply (plot_cells_at_iter_short_circuit viridis it lo hi (Some run) None tr v v run
             eq_refl).
    cbn [snapshot_dir]. rewrite <- app_assoc. exact (Hthere it Hit). }
  destruct (imap_list_returns _ schedule jobs v v done Hdone Hok) as [l Hl].
  rewrite Hl. now rewrite (pool_result_in_order _ _ _ _ _ _ _ _ _ _ _ Hl).
Qed.

(** A call for a run under a search path that returns leaves the names
    under the search path as they were. *)
Lemma plot_cells_at_iter_keeps_runs (it : Z) (lo hi : float) (search_path : path)
    (m : string) (ow tr : bool) (w w' : world) (p : path) :
  plot_cells_at_iter viridis it lo hi (Some (search_path ++ [m])) None ow tr w = (Ok p, w') ->
  In m (listdir (root w) search_path) ->
  listdir (root w') search_path = listdir (root w) search_path.
Proof.
  intros H Hin.
  destruct (plot_cells_at_iter_disk viridis it lo hi (Some (search_path ++ [m])) None ow tr
              w w' p H) as (run & w1 & d & Hres & Hmk & Hdisk).
  cbn [or_last_output_path] in Hres. unfold ret in Hres. injection Hres as <- <-.
  cbn [snapshot_dir] in Hmk, Hdisk.
  rewrite <- app_assoc in Hmk. cbn [app] in Hmk.
  pose proof (mkdir_keeps_listing search_path m ["images"] _ _ Hmk Hin) as Hd.
  destruct Hdisk as [->|[x Hw]]; [exact Hd|].
  rewrite <- !app_assoc in Hw. cbn [app] in Hw.
  rewrite <- Hd in Hin.
  now rewrite (write_keeps_listing search_path m _ x _ _ Hw Hin).
Qed.

(** A pool for a run under a search path, every job of which returned,
    leaves the names under the search path as they were. *)
Lemma pool_keeps_runs (schedule : list nat) (lo hi : float) (search_path : path)
    (m : string) (ow tr : bool) (its : list Z) (w w' : world) (l : list path) :
  imap_list schedule (__plotting_helper viridis)
    (arguments its lo hi (search_path ++ [m]) None ow tr) w = (Ok l, w') ->
  In m (listdir (root w) search_path) ->
  listdir (root w') search_path = listdir (root w) search_path.
Proof.
  intros H Hin.
  destruct (imap_list_all_ok _ _ _ _ _ _ H) as (done & Hc & Hok).
  set (jobs := arguments its lo hi (search_path ++ [m]) None ow tr) in *.
  set (Q := fun (pending : list (nat * job)) (v : world) =>
              (forall i a, In (i, a) pending -> In a jobs) /\
              listdir (root v) search_path = listdir (root w) search_path).
  assert (HQ : Q [] w').
  { apply (complete_ok_invariant (__plotting_helper viridis) Q) with
      (fuel := List.length jobs) (schedule := schedule)
      (pending := combine (seq 0 (List.length jobs)) jobs) (w := w) (done := done);
      try assumption.
    - intros pending k i a v b v1 Hk (Hjobs & Hl) Hf.
      pose proof (remove_nth_perm pending k (i, a) Hk) as Hperm.
      assert (Ha : In a jobs) by (apply (Hjobs i); eapply nth_error_In; eauto).
      unfold jobs, arguments in Ha. apply in_map_iff in Ha.
      destruct Ha as (it0 & <- & Hit0).
      cbn [__plotting_helper output_path save_path overwrite transparent] in Hf.
      split.
      + intros j a' Hin'. apply (Hjobs j).
        apply (Permutation_in _ (Permutation_sym Hperm)). now right.
      + rewrite <- Hl.
        apply (plot_cells_at_iter_keeps_runs it0 lo hi search_path m ow tr v v1 b Hf).
        now rewrite Hl.
    - rewrite length_combine, length_seq. lia.
    - split; [|reflexivity]. intros i a Hin'. now apply in_combine_r in Hin'. }
  now destruct HQ.
Qed.

End SecondBatch.

(** ** What a call leaves alone *)

Section Frame.
Variable viridis : Mpl.cmap_arg -> Mpl.rgba.

(** A call that returns changes no file but its snapshot. *)
Lemma plot_cells_at_iter_frame (it : Z) (lo hi : float) (op sp : option path)
    (ow tr : bool) (w w' : world) (p : path) :
  plot_cells_at_iter viridis it lo hi op sp ow tr w = (Ok p, w') ->
  forall q c, q <> p ->
    (walk (root w') q = Some (File c) <-> walk (root w) q = Some (File c)).
Proof.
  intros H q c Hq.
  destruct (plot_cells_at_iter_disk viridis it lo hi op sp ow tr w w' p H)
    as (run & w1 & d & Hres & Hmk & Hdisk).
  destruct (plot_cells_at_iter_returns viridis it lo hi op sp ow tr w w' p H)
    as (run' & w1' & Hres' & Hp & _).
  rewrite Hres in Hres'. injection Hres' as <- <-.
  destruct (or_last_output_path_effect op w w1 _ Hres) as [Hroot _].
  rewrite Hroot in Hmk.
  destruct Hdisk as [->|[x Hw]]; [exact (mkdir_keeps_files _ _ _ Hmk q c)|].
  rewrite <- Hp in Hw.
  rewrite (write_keeps_other_files _ _ _ _ q c Hw Hq).
  exact (mkdir_keeps_files _ _ _ Hmk q c).
Qed.

(** A pool every job of which returned changes no file but the
    snapshots. *)
Lemma pool_frame (schedule : list nat) (lo hi : float) (run : path) (sp : option path)
    (ow tr : bool) (its : list Z) (w w' : world) (l : list path) :
  imap_list schedule (__plotting_helper viridis) (arguments its lo hi run sp ow tr) w
  = (Ok l, w') ->
  forall q c, ~ In q l ->
    (walk (root w') q = Some (File c) <-> walk (root w) q = Some (File c)).
Proof.
  intros H q c Hq.
  rewrite (pool_result_in_order viridis _ _ _ _ _ _ _ _ _ _ _ H) in Hq.
  destruct (imap_list_all_ok _ _ _ _ _ _ H) as (done & Hc & Hok).
  set (jobs := arguments its lo hi run sp ow tr) in *.
  set (Q := fun (pending : list (nat * job)) (v : world) =>
              (forall i a, In (i, a) pending -> In a jobs) /\
              (walk (root v) q = Some (File c) <-> walk (root w) q = Some (File c))).
  assert (HQ : Q [] w').
  { apply (complete_ok_invariant (__plotting_helper viridis) Q) with
      (fuel := List.length jobs) (schedule := schedule)
      (pending := combine (seq 0 (List.length jobs)) jobs) (w := w) (done := done);
      try assumption.
    - intros pending k i a v b v1 Hk (Hjobs & Hsame) Hf.
      pose proof (remove_nth_perm pending k (i, a) Hk) as Hperm.
      assert (Ha : In a jobs) by (apply (Hjobs i); eapply nth_error_In; eauto).
      unfold jobs, arguments in Ha. apply in_map_iff in Ha.
      destruct Ha as (it0 & <- & Hit0).
      cbn [__plotting_helper output_path save_path overwrite transparent] in Hf.
      split.
      + intros j a' Hin'. apply (Hjobs j).
        apply (Permutation_in _ (Permutation_sym Hperm)). now right.
      + rewrite <- Hsame.
        apply (plot_cells_at_iter_frame it0 lo hi (Some run) sp ow tr v v1 b Hf).
        destruct (plot_cells_at_iter_returns viridis it0 lo hi (Some run) sp ow tr v v1 b Hf)
          as (run' & v0 & Hres & -> & _).
        cbn [or_last_output_path] in Hres. unfold ret in Hres. injection Hres as <- <-.
        intros ->. apply Hq. apply in_map_iff. now exists it0.
    - rewrite length_combine, length_seq. lia.
    - split; [|reflexivity]. intros i a Hin'. now apply in_combine_r in Hin'. }
  now destruct HQ.
Qed.

End Frame.

(** ** What a call records *)

Lemma loads_app (a b : list event) : loads (a ++ b) = loads a ++ loads b.
Proof. unfold loads. apply flat_map_app. Qed.

Lemma emits_ret {A : Type} (P : event -> Prop) (a : A) : emits P (ret a).
Proof. intros w. exists []. now rewrite app_nil_r. Qed.

Lemma emits_raise {A : Type} (P : event -> Prop) (e : exn) : emits P (@raise A e).
Proof. intros w. exists []. now rewrite app_nil_r. Qed.

Lemma emits_lift {A : Type} (P : event -> Prop) (m : outcome A) : emits P (lift m).
Proof. intros w. exists []. now rewrite app_nil_r. Qed.

Lemma emits_disk (P : event -> Prop) : emits P disk.
Proof. intros w. exists []. now rewrite app_nil_r. Qed.

Lemma emits_set_disk (P : event -> Prop) (n : node) : emits P (set_disk n).
Proof. intros w. exists []. simpl. now rewrite app_nil_r. Qed.

Lemma emits_emit (P : event -> Prop) (e : event) : P e -> emits P (emit e).
Proof. intros H w. exists [e]. split; [reflexivity|]. now constructor. Qed.

Lemma emits_bind {A B : Type} (P : event -> Prop) (m : M A) (k : A -> M B) :
  emits P m -> (forall a, emits P (k a)) -> emits P (bindM m k).
Proof.
  intros Hm Hk w. unfold bindM.
  destruct (Hm w) as (new & Hlog & Hn).
  destruct (m w) as [[a| |] w1]; cbn [snd] in *.
  - destruct (Hk a w1) as (new' & Hlog' & Hn').
    exists (new ++ new'). rewrite Hlog', Hlog, app_assoc. split; [reflexivity|].
    apply Forall_app. now split.
  - now exists new.
  - now exists new.
Qed.

Lemma emits_for_each {A B : Type} (P : event -> Prop) (body : A -> M B) (xs : list A) :
  (forall x, emits P (body x)) -> emits P (for_each body xs).
Proof.
  intros H. induction xs as [|x r IH]; cbn [for_each].
  - apply emits_ret.
  - apply emits_bind; [apply H|]. intros y.
    apply emits_bind; [exact IH|]. intros ys. apply emits_ret.
Qed.

Lemma emits_bind_ret {A B : Type} (P : event -> Prop) (a : A) (k : A -> M B) :
  emits P (k a) -> emits P (bindM (ret a) k).
Proof. intros H w. exact (H w). Qed.

Ltac recording :=
  repeat first
    [ match goal with
      | |- emits _ (bindM (ret _) _) => apply emits_bind_ret
      end
    | apply emits_ret | apply emits_raise | apply emits_lift
    | apply emits_disk | apply emits_set_disk
    | apply emits_emit; first [exact I | split; [assumption|reflexivity]]
    | apply emits_for_each; intros ?
    | apply emits_bind; [|intros ?]
    | match goal with
      | |- emits _ (if ?b then _ else _) => destruct b
      | |- emits _ (match ?x with _ => _ end) => destruct x
      end ].

(** A record without loads and resolutions tells of no load. *)
Lemma loads_of_run_nil (run : path) (new : list event) :
  Forall (of_run run []) new -> loads new = [].
Proof.
  induction 1 as [|e l He _ IH]; [reflexivity|].
  cbn [loads flat_map]. fold (loads l). rewrite IH.
  destruct e; try reflexivity. now destruct He.
Qed.

(** The loads of a record of jobs for [run] are loads from [run]. *)
Lemma loads_of_run (run : path) (its : list Z) (new : list event) :
  Forall (of_run run its) new ->
  Forall (fun l => In (fst l) its /\ snd l = run) (loads new).
Proof.
  induction 1 as [|e l He _ IH]; [constructor|].
  cbn [loads flat_map]. fold (loads l).
  destruct e; cbn [app]; try exact IH. constructor; [exact He|exact IH].
Qed.

(** With the run given, [load_cells] records its load first, and no other
    load after it. *)
Lemma load_cells_loads (it : Z) (run : path) (w : world) :
  exists new,
    log (snd (load_cells it (Some run) w)) = log w ++ Load it run :: new /\
    loads new = [].
Proof.
  unfold load_cells. cbn [or_last_output_path].
  unfold bindM at 1, ret at 1.
  unfold bindM at 1, emit at 1.
  assert (H : emits (of_run run [])
                (bindM (read_records it run) (fun results => lift (to_table results)))).
  { unfold read_records, read_shard, json_load. recording. }
  destruct (H {| root := root w; log := log w ++ [Load it run] |}) as (new & Hlog & Hall).
  exists new. split; [|exact (loads_of_run_nil run new Hall)].
  rewrite Hlog. cbn [log]. now rewrite <- app_assoc.
Qed.

Section JobRecord.
Variable viridis : Mpl.cmap_arg -> Mpl.rgba.

(** A job for an iteration of [its] and for [run] records no resolution,
    and no load but of its iteration from [run], whatever it ends in. *)
Lemma emits_plot_cells_at_iter (it : Z) (lo hi : float) (run : path) (sp : option path)
    (ow tr : bool) (its : list Z) :
  In it its ->
  emits (of_run run its) (plot_cells_at_iter viridis it lo hi (Some run) sp ow tr).
Proof.
  intros Hin.
  unfold plot_cells_at_iter, savefig, load_cells, or_last_output_path, read_records,
    read_shard, json_load.
  recording.
Qed.

Lemma emits_complete {A B : Type} (P : event -> Prop) (f : A -> M B) :
  forall fuel schedule pending,
    (forall i a, In (i, a) pending -> emits P (f a)) ->
    forall w, exists new,
      log (snd (complete f fuel schedule pending w)) = log w ++ new /\
      Forall P new.
Proof.
  induction fuel as [|fuel IH]; intros schedule pending Hq w; cbn [complete].
  - exists []. now rewrite app_nil_r.
  - destruct (nth_error pending (hd 0 schedule mod List.length pending))
      as [[i a]|] eqn:En; [|exists []; now rewrite app_nil_r].
    pose proof (remove_nth_perm pending _ (i, a) En) as Hp.
    destruct (Hq i a (nth_error_In _ _ En) w) as (new & Hlog & Hn).
    destruct (f a w) as [r w1]. cbn [snd] in Hlog.
    destruct (IH (tl schedule)
                (remove_nth (hd 0 schedule mod List.length pending) pending)) with (w := w1)
      as (new' & Hlog' & Hn').
    { intros j b Hj. apply (Hq j b).
      eapply Permutation_in; [symmetry; exact Hp|]. now right. }
    destruct (complete f fuel _ _ w1) as [done w2]. cbn [snd] in *.
    exists (new ++ new'). rewrite Hlog', Hlog, app_assoc. split; [reflexivity|].
    apply Forall_app. now split.
Qed.

Lemma emits_imap_list {A B : Type} (P : event -> Prop) (schedule : list nat)
    (f : A -> M B) (xs : list A) :
  (forall a, In a xs -> emits P (f a)) -> emits P (imap_list schedule f xs).
Proof.
  intros H w. unfold imap_list.
  destruct (emits_complete P f (List.length xs) schedule
              (combine (seq 0 (List.length xs)) xs)) with (w := w) as (new & Hlog & Hn).
  { intros i a Hin. apply H. eapply in_combine_r; eauto. }
  destruct (complete f _ _ _ w) as [done w']. cbn [snd] in *. now exists new.
Qed.

(** The jobs of a batch record no resolution, and no load but of an
    iteration of the batch from its run, whatever they end in. *)
Lemma emits_pool (schedule : list nat) (its : list Z) (lo hi : float) (run : path)
    (sp : option path) (ow tr : bool) :
  emits (of_run run its)
    (imap_list schedule (__plotting_helper viridis) (arguments its lo hi run sp ow tr)).
Proof.
  apply emits_imap_list. intros a Ha.
  unfold arguments in Ha. apply in_map_iff in Ha. destruct Ha as (it & <- & Hit).
  cbn [__plotting_helper output_path save_path overwrite transparent].
  now apply emits_plot_cells_at_iter.
Qed.

(** The jobs are for the iterations, one each, in order. *)
Lemma arguments_iterations (its : list Z) (lo hi : float) (run : path)
    (sp : option path) (ow tr : bool) :
  map iteration_of (arguments its lo hi run sp ow tr) = its.
Proof. unfold arguments. rewrite map_map. apply map_id. Qed.

(** What a call for a run that returns has loaded. *)
Lemma plot_cells_at_iter_loads (it : Z) (lo hi : float) (run : path) (sp : option path)
    (ow tr : bool) (w w' : world) (p : path) :
  plot_cells_at_iter viridis it lo hi (Some run) sp ow tr w = (Ok p, w') ->
  loads (log w')
  = loads (log w) ++
    (if exists_ (root w) (snapshot_dir run sp ++ [snapshot_name it]) && negb ow
     then [] else [(it, run)]).
Proof.
  intros H.
  destruct (plot_cells_at_iter_disk viridis it lo hi (Some run) sp ow tr w w' p H)
    as (run' & w0 & d & Hres & Hmk & Hdisk).
  cbn [or_last_output_path] in Hres. unfold ret in Hres. injection Hres as <- <-.
  set (q := snapshot_dir run sp ++ [snapshot_name it]) in *.
  pose proof (mkdir_keeps_entries _ (snapshot_name it) _ _ Hmk) as Hsame. fold q in Hsame.
  destruct (exists_ d q && negb ow) eqn:Hex.
  - assert (Hw' : w' = {| root := d; log := log w |}).
    { revert H. unfold plot_cells_at_iter.
      unfold bindM at 1. cbn [or_last_output_path]. unfold ret at 1.
      unfold bindM at 1, disk at 1.
      unfold bindM at 1, lift at 1. rewrite Hmk.
      unfold bindM at 1, set_disk at 1.
      unfold bindM at 1, disk at 1. cbn [root log]. fold q. rewrite Hex.
      unfold ret. intros E. apply (f_equal snd) in E. cbn [snd] in E. now symmetry. }
    subst w'. cbn [root log]. now rewrite <- Hsame, Hex, app_nil_r.
  - destruct (plot_cells_at_iter_rendering viridis it lo hi run sp ow tr w w' p d Hmk Hex H)
      as (c & w1 & ax & Hload & _ & _ & _ & Hlog).
    destruct (load_cells_loads it run {| root := d; log := log w |}) as (new & Hnew & Hs).
    rewrite Hload in Hnew. cbn [snd log] in Hnew.
    rewrite <- Hsame, Hex, Hlog, Hnew, !loads_app.
    cbn [loads flat_map app]. fold (loads new). rewrite Hs. cbn [app].
    now rewrite app_nil_r.
Qed.

(** Once the run is resolved, the call goes on as a call that was given
    it. *)
Lemma plot_cells_at_iter_resolved (it : Z) (lo hi : float) (op sp : option path)
    (ow tr : bool) (w w1 : world) (run : path) :
  or_last_output_path op w = (Ok run, w1) ->
  plot_cells_at_iter viridis it lo hi op sp ow tr w
  = plot_cells_at_iter viridis it lo hi (Some run) sp ow tr w1.
Proof.
  intros Hres. unfold plot_cells_at_iter.
  unfold bindM at 1. rewrite Hres.
  unfold bindM at 2. cbn [or_last_output_path]. unfold ret at 2. reflexivity.
Qed.

(** A call whose run cannot be resolved raises what the resolution raised,
    before the directory of the snapshots is made or looked at. *)
Lemma plot_cells_at_iter_unresolved (it : Z) (lo hi : float) (op sp : option path)
    (ow tr : bool) (w w1 : world) (e : exn) :
  or_last_output_path op w = (Raise e, w1) ->
  plot_cells_at_iter viridis it lo hi op sp ow tr w = (Raise e, w1).
Proof.
  intros Hres. unfold plot_cells_at_iter.
  unfold bindM at 1. now rewrite Hres.
Qed.

End JobRecord.

Section BatchLoads.
Variable viridis : Mpl.cmap_arg -> Mpl.rgba.
Variables (lo hi : float) (run : path) (sp : option path) (ow tr : bool).

(** The loads of a pool over iterations without repetition, every job of
    which returned: one from the run for each iteration whose snapshot was
    missing when the pool began, or for each iteration under [overwrite]. *)
Lemma pool_loads (schedule : list nat) (its : list Z) (w w' : world) (l : list path) :
  forallb Np.in_int64 its = true ->
  NoDup its ->
  imap_list schedule (__plotting_helper viridis) (arguments its lo hi run sp ow tr) w
  = (Ok l, w') ->
  Permutation (loads (log w'))
    (loads (log w) ++
     map (fun it => (it, run))
         (filter (fun it => ow || negb (exists_ (root w)
                                          (snapshot_dir run sp ++ [snapshot_name it])))
                 its)).
Proof.
  intros Hrange Hnd H.
  set (target := fun it : Z => snapshot_dir run sp ++ [snapshot_name it]).
  set (need := fun it : Z => ow || negb (exists_ (root w) (target it))).
  set (mk := fun it : Z => (it, run)).
  change (Permutation (loads (log w')) (loads (log w) ++ map mk (filter need its))).
  rewrite forallb_forall in Hrange.
  destruct (imap_list_all_ok _ _ _ _ _ _ H) as (done & Hc & Hok).
  set (jobs := arguments its lo hi run sp ow tr) in *.
  set (Q := fun (pending : list (nat * job)) (v : world) =>
              let pits := map (fun ia => iteration_of (snd ia)) pending in
              NoDup pits /\
              incl pits its /\
              (forall i a, In (i, a) pending -> In a jobs) /\
              (forall it, In it pits ->
                 exists_ (root v) (target it) = exists_ (root w) (target it)) /\
              Permutation (loads (log v) ++ map mk (filter need pits))
                          (loads (log w) ++ map mk (filter need its))).
  assert (HQ : Q [] w').
  { apply (complete_ok_invariant (__plotting_helper viridis) Q) with
      (fuel := List.length jobs) (schedule := schedule)
      (pending := combine (seq 0 (List.length jobs)) jobs) (w := w) (done := done);
      try assumption.
    - intros pending k i a v b v1 Hk (Hnd1 & Hincl & Hjobs & Hex & Hperm) Hf.
      pose proof (remove_nth_perm pending k (i, a) Hk) as Hp.
      pose proof (Permutation_map (fun ia => iteration_of (snd ia)) Hp) as Hpits.
      cbn [map snd] in Hpits.
      assert (Ha : In a jobs) by (apply (Hjobs i); eapply nth_error_In; eauto).
      unfold jobs, arguments in Ha. apply in_map_iff in Ha.
      destruct Ha as (it & <- & Hit).
      cbn [__plotting_helper output_path save_path overwrite transparent] in Hf.
      change (iteration_of (it, lo, hi, _)) with it in Hpits.
      destruct (plot_cells_at_iter_effect viridis it lo hi run sp ow tr v v1 b Hf)
        as (Hb & _ & Hothers).
      pose proof (plot_cells_at_iter_loads viridis it lo hi run sp ow tr v v1 b Hf)
        as Hloads.
      fold (target it) in Hb, Hloads. subst b.
      pose proof (Permutation_NoDup Hpits Hnd1) as Hnd2.
      inversion Hnd2 as [|? ? Hfresh Hnd3]; subst.
      assert (Hin : In it (map (fun ia => iteration_of (snd ia)) pending)).
      { apply (Permutation_in it (Permutation_sym Hpits)). now left. }
      unfold Q. cbv zeta. split; [exact Hnd3|]. split; [|split; [|split]].
      + intros x Hx. apply Hincl.
        apply (Permutation_in x (Permutation_sym Hpits)). now right.
      + intros j a' Hin'. apply (Hjobs j).
        apply (Permutation_in _ (Permutation_sym Hp)). now right.
      + intros it' Hit'.
        assert (Hin' : In it' (map (fun ia => iteration_of (snd ia)) pending)).
        { apply (Permutation_in it' (Permutation_sym Hpits)). now right. }
        rewrite <- (Hex it' Hin'). apply Hothers.
        intros E. apply (f_equal (fun p => last p "")) in E.
        unfold target in E. rewrite !last_last in E.
        apply snapshot_name_inj in E; [|apply Hrange; now apply Hincl ..].
        subst it'. contradiction.
      + rewrite Hloads, (Hex it Hin).
        eapply Permutation_trans; [|exact Hperm].
        rewrite <- app_assoc. apply Permutation_app_head.
        eapply Permutation_trans;
          [|apply Permutation_sym;
            exact (Permutation_map mk (filter_perm need _ _ Hpits))].
        cbn [map filter]. unfold need at 2.
        destruct ow; cbn [negb andb orb]; [rewrite andb_false_r; reflexivity|].
        rewrite andb_true_r.
        now destruct (exists_ (root w) (target it)).
    - rewrite length_combine, length_seq. lia.
    - unfold Q. cbv zeta.
      assert (Hpits : map (fun ia : nat * job => iteration_of (snd ia))
                        (combine (seq 0 (List.length jobs)) jobs) = its).
      { rewrite <- (map_map snd iteration_of), map_snd_combine by apply length_seq.
        apply arguments_iterations. }
      rewrite Hpits. split; [exact Hnd|]. split; [apply incl_refl|].
      split; [|split; [reflexivity|apply Permutation_refl]].
      intros i a Hin. now apply in_combine_r in Hin. }
  destruct HQ as (_ & _ & _ & _ & Hperm).
  cbn [map filter] in Hperm. now rewrite app_nil_r in Hperm.
Qed.

End BatchLoads.

Section Once.
Variable viridis : Mpl.cmap_arg -> Mpl.rgba.

(** A call that returns has resolved a run and returns the path of the
    snapshot under it; the snapshot is there after the call; the call saved
    it, once, and loaded the cells of the iteration from the run, once,
    unless it found the snapshot and [overwrite] was false, when it saved
    and loaded nothing; and a snapshot it saved is the picture it drew. *)
Lemma plot_cells_at_iter_once (it : Z) (lo hi : float) (op sp : option path)
    (ow tr : bool) (w w' : world) (p : path) :
  plot_cells_at_iter viridis it lo hi op sp ow tr w = (Ok p, w') ->
  exists run,
    fst (or_last_output_path op w) = Ok run /\
    p = snapshot_dir run sp ++ [snapshot_name it] /\
    exists_ (root w') p = true /\
    saves (log w')
    = saves (log w) ++ (if exists_ (root w) p && negb ow then [] else [p]) /\
    loads (log w')
    = loads (log w) ++ (if exists_ (root w) p && negb ow then [] else [(it, run)]) /\
    (exists_ (root w) p && negb ow = false -> pictured tr (root w') p).
Proof.
  intros H.
  destruct (plot_cells_at_iter_returns viridis it lo hi op sp ow tr w w' p H)
    as (run & w1 & Hres & Hp & Hex).
  destruct (or_last_output_path_effect op w w1 _ Hres) as [Hroot Hlog].
  rewrite (plot_cells_at_iter_resolved viridis it lo hi op sp ow tr w w1 run Hres) in H.
  destruct (plot_cells_at_iter_effect viridis it lo hi run sp ow tr w1 w' p H)
    as (_ & Hsaves & _).
  pose proof (plot_cells_at_iter_loads viridis it lo hi run sp ow tr w1 w' p H) as Hloads.
  rewrite <- Hp in Hloads. rewrite Hroot in Hsaves, Hloads.
  assert (Hs : saves (log w1) = saves (log w)).
  { rewrite Hlog, saves_app. destruct op; cbn; now rewrite app_nil_r. }
  assert (Hl : loads (log w1) = loads (log w)).
  { rewrite Hlog, loads_app. destruct op; cbn; now rewrite app_nil_r. }
  rewrite Hs in Hsaves. rewrite Hl in Hloads.
  exists run. rewrite Hres. split; [reflexivity|]. split; [exact Hp|].
  split; [exact Hex|]. split; [exact Hsaves|]. split; [exact Hloads|].
  intros Hfresh.
  destruct (plot_cells_at_iter_disk viridis it lo hi (Some run) sp ow tr w1 w' p H)
    as (run' & w0 & d & Hres' & Hmk & _).
  cbn [or_last_output_path] in Hres'. unfold ret in Hres'. injection Hres' as <- <-.
  assert (Hex' : exists_ d (snapshot_dir run sp ++ [snapshot_name it]) && negb ow = false).
  { rewrite (mkdir_keeps_entries _ _ _ _ Hmk), Hroot, <- Hp. exact Hfresh. }
  destruct (plot_cells_at_iter_rendering viridis it lo hi run sp ow tr w1 w' p d Hmk Hex' H)
    as (c & w2 & ax & _ & Hplot & _ & Hw & _).
  unfold plot_cells in Hplot.
  destruct (plot_rows_axes viridis lo hi _ _ _ Hplot) as (Hx & Hy & Ha & _).
  exists ax. split; [exact (walk_write _ _ _ _ Hw)|]. now repeat split.
Qed.

End Once.

(** ** The entry that is taken for the latest run *)

Lemma filter_all {A : Type} (f : A -> bool) (l : list A) :
  (forall x, In x l -> f x = true) -> filter f l = l.
Proof.
  induction l as [|x r IH]; intros H; cbn [filter]; [reflexivity|].
  rewrite (H x (or_introl eq_refl)). f_equal. apply IH. intros y Hy. apply H. now right.
Qed.

(** [get_last_output_path] raises when [glob] lists no name in the search
    root, and returns the path of the maximal listed name otherwise. *)
Lemma get_last_output_path_max_listed (search_path : path) (w : world) :
  existsb has_magic search_path = false ->
  let names := listing (root w) search_path Star in
  (names = [] ->
   fst (get_last_output_path search_path w) = Raise ValueError) /\
  (names <> [] ->
   exists m,
     In m names /\
     (forall n, In n names -> String.leb n m = true) /\
     fst (get_last_output_path search_path w) = Ok (Path (str (search_path ++ [m])))).
Proof.
  intros Hliteral names.
  unfold get_last_output_path, bindM, emit, disk, raise, ret, lift, glob; simpl.
  rewrite Hliteral. fold names.
  split.
  - intros ->. reflexivity.
  - intros Hne.
    set (g := fun n => str (search_path ++ [n])).
    assert (Hlen : List.length (Py.sorted (map g names)) <> O).
    { unfold Py.sorted.
      rewrite <- (Permutation_length (sort_perm String.leb (map g names))).
      rewrite length_map. destruct names; [contradiction|discriminate]. }
    destruct (Nat.eqb_spec (List.length (Py.sorted (map g names))) 0) as [E|_];
      [contradiction|].
    destruct (last_item_nonempty (Py.sorted (map g names))) as [x Hx].
    { intros E. apply Hlen. now rewrite E. }
    rewrite Hx.
    destruct (sorted_last_is_max String.leb String.leb_total (Py.sorted (map g names)) x)
      as [Hin Hmax].
    { apply sort_sorted; [apply String.leb_total|apply string_leb_trans]. }
    { exact Hx. }
    apply (Permutation_in x (Permutation_sym (sort_perm String.leb (map g names)))) in Hin.
    apply in_map_iff in Hin. destruct Hin as (m & <- & Hm).
    exists m. split; [exact Hm|]. split; [|reflexivity].
    intros n Hn.
    rewrite Forall_forall in Hmax.
    assert (Hgn : In (g n) (Py.sorted (map g names))).
    { apply (Permutation_in (g n) (sort_perm String.leb (map g names))).
      now apply in_map. }
    specialize (Hmax _ Hgn). cbv beta in Hmax.
    destruct (str_snoc search_path) as [pre Hpre].
    unfold g in Hmax. rewrite !Hpre in Hmax.
    now rewrite string_leb_app in Hmax.
Qed.

(** In a search root all of whose entries are directories with names that
    do not start with a dot, [glob] lists the subdirectories. *)
Lemma listing_subdirectories (d : node) (search_path : path) :
  (forall n, In n (listdir d search_path) ->
     hidden n = false /\ exists es, walk d (search_path ++ [n]) = Some (Dir es)) ->
  listing d search_path Star = subdirectories d search_path.
Proof.
  intros H. unfold listing, subdirectories.
  rewrite !filter_all; [reflexivity| |].
  - intros n Hn. destruct (H n Hn) as [_ [es ->]]. reflexivity.
  - intros n Hn. destruct (H n Hn) as [Hh _]. unfold matches. now rewrite Hh.
Qed.

(** * The claims *)

(** ** C1: the colour of a cell *)

(** C1.  For colour-scale bounds [intra_low < intra_high], with
    [t = intracellular[2]] and the midpoint
    [intra_low + 0.5 * (intra_high - intra_low)]: a cell with [t] below the
    midpoint is coloured [viridis(0)], a cell with [t] at or above it is
    coloured [viridis((t - intra_low) / (intra_high - intra_low))], and
    [plot_cells] adds the cells' polygons in order with these colours.  For
    the bounds 0 and 4, [t = 1.9] gives [viridis(0)], [t = 2.0] gives
    [viridis(0.5)] and [t = 4.0] gives [viridis(1.0)]. *)
Theorem plot_cells_threshold_colouring (viridis : Mpl.cmap_arg -> Mpl.rgba)
    (intra_low intra_high : float) :
  (intra_low <? intra_high)%float = true ->
  (forall ic t,
     Np.getitem_2 ic = Ok t ->
     ((t <? intra_low + 0.5 * (intra_high - intra_low))%float = true ->
      cell_color viridis intra_low intra_high ic = Ok (viridis (Mpl.CInt 0))) /\
     ((intra_low + 0.5 * (intra_high - intra_low) <=? t)%float = true ->
      cell_color viridis intra_low intra_high ic
      = Ok (viridis (Mpl.CFloat ((t - intra_low) / (intra_high - intra_low))%float)))) /\
  (forall ax df ax',
     plot_cells viridis ax df intra_low intra_high = Ok ax' ->
     exists new,
       Mpl.patches ax' = Mpl.patches ax ++ new /\
       Forall2 (fun row p =>
                  Mpl.xy p = Np.rows (fst row) /\
                  cell_color viridis intra_low intra_high (snd row) = Ok (Mpl.facecolor p) /\
                  exists t,
                    Np.getitem_2 (snd row) = Ok t /\
                    Mpl.facecolor p
                    = if (t <? intra_low + 0.5 * (intra_high - intra_low))%float
                      then viridis (Mpl.CInt 0)
                      else viridis (Mpl.CFloat
                                      ((t - intra_low) / (intra_high - intra_low))%float))
               (combine (points df) (intracellular df)) new) /\
  (forall ic,
     (Np.getitem_2 ic = Ok 1.9%float ->
      cell_color viridis 0 4 ic = Ok (viridis (Mpl.CInt 0))) /\
     (Np.getitem_2 ic = Ok 2%float ->
      cell_color viridis 0 4 ic = Ok (viridis (Mpl.CFloat 0.5))) /\
     (Np.getitem_2 ic = Ok 4%float ->
      cell_color viridis 0 4 ic = Ok (viridis (Mpl.CFloat 1)))).
Proof.
  intros _. split; [|split].
  - intros ic t Ht. split.
    + now apply cell_color_below.
    + now apply cell_color_from_midpoint.
  - intros ax df ax' H. unfold plot_cells in H.
    destruct (plot_rows_patches viridis intra_low intra_high _ _ _ H) as (new & Hp & Hall).
    exists new. split; [exact Hp|].
    revert Hall. apply Forall2_impl.
    intros row q [Hxy Hc]. split; [exact Hxy|]. split; [exact Hc|].
    unfold cell_color, threshold in Hc.
    destruct (Np.getitem_2 (snd row)) as [t| |]; try discriminate.
    exists t. split; [reflexivity|]. cbn [Py.bind] in Hc.
    destruct (t <? intra_low + 0.5 * (intra_high - intra_low))%float;
      now injection Hc as <-.
  - intros ic. repeat split; intros Ht.
    + now apply (cell_color_below viridis 0 4 ic _ Ht).
    + now rewrite (cell_color_from_midpoint viridis 0 4 ic _ Ht).
    + now rewrite (cell_color_from_midpoint viridis 0 4 ic _ Ht).
Qed.

(** C1 on the bounds 0 and 4 and the vector [[0; 0; 3]], which lies above
    the midpoint and is coloured [viridis(0.75)]. *)
Lemma plot_cells_threshold_colouring_witness :
  cell_color Sample.grey 0 4 (Np.Arr1 [0; 0; 3]%float)
  = Ok (Sample.grey (Mpl.CFloat 0.75)).
Proof.
  exact (proj2 (proj1 (plot_cells_threshold_colouring Sample.grey 0 4 eq_refl)
                  (Np.Arr1 [0; 0; 3]%float) 3%float eq_refl) eq_refl).
Defined.

(** ** C2: the reshape of the points *)

(** C2.  A flat coordinate array of length [2 * n] is reshaped into [n]
    points; point [i] pairs entry [i] of the first half with entry [i] of
    the second half; and the first coordinates in order, followed by the
    second coordinates in order, are the input array again. *)
Theorem reshape_points_round_trip (xs : list float) (n : nat) :
  List.length xs = 2 * n ->
  exists m,
    reshape_points (JArr (map JNum xs)) = Ok m /\
    List.length (Np.rows m) = n /\
    (forall i, i < n ->
       nth i (Np.rows m) [] = [nth i xs 0%float; nth (n + i) xs 0%float]) /\
    map (fun p => nth 0 p 0%float) (Np.rows m) ++
    map (fun p => nth 1 p 0%float) (Np.rows m) = xs.
Proof.
  intros Hlen.
  assert (Hmod : (2 * n) mod 2 = 0) by (rewrite Nat.mul_comm; apply Nat.Div0.mod_mul).
  assert (Hdiv : 2 * n / 2 = n) by (rewrite Nat.mul_comm; now apply Nat.div_mul).
  unfold reshape_points, Np.array_float. rewrite scalars_nums.
  unfold Py.bind, Np.reshape_2. cbn [Np.ravel]. rewrite Hlen, Hmod, Hdiv.
  cbn [Nat.eqb].
  eexists. split; [reflexivity|].
  unfold Np.rows, Np.T, Np.item. cbn [Np.nrows Np.ncols Np.row_stride Np.col_stride Np.buffer].
  cbn [seq map].
  assert (Hrow : forall i,
             [nth (i * 1 + 0 * n) xs 0%float; nth (i * 1 + 1 * n) xs 0%float]
             = [nth i xs 0%float; nth (n + i) xs 0%float]).
  { intros i.
    replace (i * 1 + 0 * n) with i by lia.
    replace (i * 1 + 1 * n) with (n + i) by lia. reflexivity. }
  split; [now rewrite length_map, length_seq|].
  split.
  - intros i Hi.
    rewrite (nth_indep _ [] [nth (0 * 1 + 0 * n) xs 0%float; nth (0 * 1 + 1 * n) xs 0%float])
      by (now rewrite length_map, length_seq).
    rewrite (map_nth (fun i => [nth (i * 1 + 0 * n) xs 0%float; nth (i * 1 + 1 * n) xs 0%float])).
    rewrite seq_nth by exact Hi. apply Hrow.
  - rewrite !map_map. cbn [nth].
    rewrite (map_ext _ (fun i => nth (0 + i) xs 0%float))
      by (intros i; f_equal; lia).
    rewrite (map_ext (fun i => nth (i * 1 + 1 * n) xs 0%float)
                     (fun i => nth (n + i) xs 0%float))
      by (intros i; f_equal; lia).
    rewrite !map_nth_seq by lia.
    rewrite skipn_0.
    rewrite (firstn_all2 (skipn n xs)) by (rewrite length_skipn; lia).
    apply firstn_skipn.
Qed.

(** C2 on six coordinates: three points. *)
Lemma reshape_points_round_trip_witness :
  exists m,
    reshape_points (JArr (map JNum [1; 2; 3; 4; 5; 6]%float)) = Ok m /\
    List.length (Np.rows m) = 3 /\
    (forall i, i < 3 ->
       nth i (Np.rows m) []
       = [nth i [1; 2; 3; 4; 5; 6]%float 0%float;
          nth (3 + i) [1; 2; 3; 4; 5; 6]%float 0%float]) /\
    map (fun p => nth 0 p 0%float) (Np.rows m) ++
    map (fun p => nth 1 p 0%float) (Np.rows m) = [1; 2; 3; 4; 5; 6]%float.
Proof.
  exact (reshape_points_round_trip [1; 2; 3; 4; 5; 6]%float 3 eq_refl).
Defined.

(** ** C3: a snapshot that exists is not rendered again *)

(** C3, as the code has it.  The run is resolved before the snapshot is
    looked at: a call that is given no run raises [ValueError] when the
    search root lists nothing, whether or not the snapshot exists.  Once
    the run is resolved, when the snapshot file exists and [overwrite] is
    false, [plot_cells_at_iter] returns its path at once: the disk is left
    as it was and nothing is recorded but the resolution, so no cell data is
    loaded, nothing is drawn and nothing is saved.  A call with
    [overwrite=False] that returns leaves the snapshot at the path it
    returns: it saved it, once, as the picture it drew from one load of the
    cells, when the snapshot was missing, and saved and loaded nothing when
    it was there.  Hence, of two calls with [overwrite=False] that resolve
    the same run, the second returns the path the first returned, leaves
    the disk as the first left it, and loads nothing, and the two together
    have saved the file once when it was missing and never when it was
    there.  The two calls do resolve the same run: with the run given, the
    second call changes nothing at all; with the directory of the
    snapshots given, the second call finds the snapshot whichever run it
    resolves; and with neither given, the first call adds no name under
    the search path, whose entries are taken to have the names entries can
    have. *)
Theorem plot_cells_at_iter_skips_existing (viridis : Mpl.cmap_arg -> Mpl.rgba)
    (it : Z) (lo hi : float) (op sp : option path) (tr : bool) (w : world) :
  (forall run w1,
     or_last_output_path op w = (Ok run, w1) ->
     exists_ (root w1) (snapshot_dir run sp ++ [snapshot_name it]) = true ->
     plot_cells_at_iter viridis it lo hi op sp false tr w
     = (Ok (snapshot_dir run sp ++ [snapshot_name it]), w1) /\
     root w1 = root w /\
     log w1 = log w ++ match op with
                       | None => [Resolve default_search_path]
                       | Some _ => []
                       end) /\
  ((forall e w1,
      or_last_output_path op w = (Raise e, w1) ->
      plot_cells_at_iter viridis it lo hi op sp false tr w = (Raise e, w1)) /\
   (listing (root w) default_search_path Star = [] ->
    plot_cells_at_iter viridis it lo hi None sp false tr w
    = (Raise ValueError,
       {| root := root w; log := log w ++ [Resolve default_search_path] |}))) /\
  (forall p w',
     plot_cells_at_iter viridis it lo hi op sp false tr w = (Ok p, w') ->
     exists run,
       fst (or_last_output_path op w) = Ok run /\
       p = snapshot_dir run sp ++ [snapshot_name it] /\
       exists_ (root w') p = true /\
       saves (log w') = saves (log w) ++ (if exists_ (root w) p then [] else [p]) /\
       loads (log w') = loads (log w) ++ (if exists_ (root w) p then [] else [(it, run)]) /\
       (exists_ (root w) p = false -> pictured tr (root w') p)) /\
  (forall p w',
     plot_cells_at_iter viridis it lo hi op sp false tr w = (Ok p, w') ->
     fst (or_last_output_path op w') = fst (or_last_output_path op w) ->
     exists w'',
       plot_cells_at_iter viridis it lo hi op sp false tr w' = (Ok p, w'') /\
       root w'' = root w' /\
       log w'' = log w' ++ match op with
                           | None => [Resolve default_search_path]
                           | Some _ => []
                           end) /\
  (forall run p w',
     plot_cells_at_iter viridis it lo hi (Some run) sp false tr w = (Ok p, w') ->
     plot_cells_at_iter viridis it lo hi (Some run) sp false tr w' = (Ok p, w')) /\
  (forall save p w',
     plot_cells_at_iter viridis it lo hi None (Some save) false tr w = (Ok p, w') ->
     exists w'',
       plot_cells_at_iter viridis it lo hi None (Some save) false tr w' = (Ok p, w'') /\
       root w'' = root w' /\
       log w'' = log w' ++ [Resolve default_search_path]) /\
  (forall p w',
     forallb proper_name (listing (root w) default_search_path Star) = true ->
     plot_cells_at_iter viridis it lo hi None None false tr w = (Ok p, w') ->
     exists w'',
       plot_cells_at_iter viridis it lo hi None None false tr w' = (Ok p, w'') /\
       root w'' = root w' /\
       log w'' = log w' ++ [Resolve default_search_path]) /\
  (forall p w' w'',
     plot_cells_at_iter viridis it lo hi op sp false tr w = (Ok p, w') ->
     plot_cells_at_iter viridis it lo hi op sp false tr w' = (Ok p, w'') ->
     saves (log w'') = saves (log w) ++ (if exists_ (root w) p then [] else [p]) /\
     loads (log w'') = loads (log w') /\
     exists_ (root w'') p = true).
Proof.
  split; [|split; [|split; [|split; [|split; [|split; [|split]]]]]].
  - intros run w1 Hres Hex.
    split; [now apply plot_cells_at_iter_short_circuit|].
    exact (or_last_output_path_effect op w w1 _ Hres).
  - split.
    + intros e w1 Hres. now apply plot_cells_at_iter_unresolved.
    + intros Hnone. apply plot_cells_at_iter_unresolved.
      cbn [or_last_output_path]. unfold get_last_output_path.
      unfold bindM at 1, emit at 1.
      unfold bindM at 1, disk at 1.
      unfold bindM at 1, lift at 1. cbn [root log].
      unfold glob. cbn [existsb default_search_path].
      change (has_magic "out" || (has_magic "cr_trichome" || false)) with false.
      cbv iota. rewrite Hnone. reflexivity.
  - intros p w' Hfirst.
    destruct (plot_cells_at_iter_once viridis it lo hi op sp false tr w w' p Hfirst)
      as (run & Hres & Hp & Hex & Hsaves & Hloads & Hpic).
    cbn [negb] in Hsaves, Hloads, Hpic. rewrite andb_true_r in Hsaves, Hloads, Hpic.
    exists run. now repeat split.
  - intros p w' Hfirst Hsame.
    exact (plot_cells_at_iter_again viridis it lo hi op sp tr w w' p Hfirst Hsame).
  - intros run p w' Hfirst.
    destruct (plot_cells_at_iter_returns viridis it lo hi (Some run) sp false tr w w' p Hfirst)
      as (run' & w1 & Hres & -> & Hex).
    cbn [or_last_output_path] in Hres. unfold ret in Hres. injection Hres as <- <-.
    now apply plot_cells_at_iter_short_circuit.
  - intros save p w' Hfirst.
    exact (plot_cells_at_iter_again_saved viridis it lo hi save tr w w' p Hfirst).
  - intros p w' Hproper Hfirst.
    apply (plot_cells_at_iter_again viridis it lo hi None None tr w w' p Hfirst).
    exact (plot_cells_at_iter_keeps_resolution viridis it lo hi tr w w' p Hproper Hfirst).
  - intros p w' w'' Hfirst Hsecond.
    destruct (plot_cells_at_iter_once viridis it lo hi op sp false tr w w' p Hfirst)
      as (run & _ & _ & Hex & Hsaves & _ & _).
    destruct (plot_cells_at_iter_once viridis it lo hi op sp false tr w' w'' p Hsecond)
      as (run' & _ & _ & Hex' & Hsaves' & Hloads' & _).
    rewrite Hex in Hsaves', Hloads'. cbn [negb andb] in Hsaves, Hsaves', Hloads'.
    rewrite andb_true_r in Hsaves. rewrite app_nil_r in Hsaves', Hloads'.
    split; [now rewrite Hsaves'|]. split; [exact Hloads'|exact Hex'].
Qed.

(** C3 on the sample tree: iteration 1 is rendered by a first call, and a
    second call returns the same path with the disk unchanged and only the
    resolution of the run recorded. *)
Lemma plot_cells_at_iter_skips_existing_witness :
  exists w' w'',
    plot_cells_at_iter Sample.grey 1 0 4 None None false true (Sample.world_of Sample.tree)
    = (Ok ["out"; "cr_trichome"; "2024-07-31-T17-34-57"; "images";
           "snapshot-00000000000000000001.png"], w') /\
    plot_cells_at_iter Sample.grey 1 0 4 None None false true w'
    = (Ok ["out"; "cr_trichome"; "2024-07-31-T17-34-57"; "images";
           "snapshot-00000000000000000001.png"], w'') /\
    root w'' = root w' /\
    log w'' = log w' ++ [Resolve default_search_path].
Proof.
  eexists. 
  assert (H1 : plot_cells_at_iter Sample.grey 1 0 4 None None false true
                 (Sample.world_of Sample.tree)
               = (Ok ["out"; "cr_trichome"; "2024-07-31-T17-34-57"; "images";
                      "snapshot-00000000000000000001.png"],
                  snd (plot_cells_at_iter Sample.grey 1 0 4 None None false true
                         (Sample.world_of Sample.tree)))).
  { vm_compute. reflexivity. }
  destruct (proj1 (proj2 (proj2 (proj2 (proj2 (proj2 (proj2
              (plot_cells_at_iter_skips_existing Sample.grey 1 0 4 None None true
                 (Sample.world_of Sample.tree)))))))) _ _ eq_refl H1)
    as (w'' & H2 & Hroot & Hlog).
  exists w''. split; [exact H1|]. split; [exact H2|]. split; [exact Hroot|exact Hlog].
Defined.

(** C3 as stated fails.  The snapshot of iteration 1 exists in the
    directory given for the snapshots and [overwrite] is false, yet the
    call, given no run and finding none under the search root, raises
    [ValueError] instead of returning the path of the snapshot. *)
Lemma plot_cells_at_iter_needs_a_run :
  exists_ Cases.snapshot_without_run ["shots"; snapshot_name 1] = true /\
  plot_cells_at_iter Sample.grey 1 0 4 None (Some ["shots"]) false true
    (Sample.world_of Cases.snapshot_without_run)
  = (Raise ValueError,
     {| root := Cases.snapshot_without_run; log := [Resolve default_search_path] |}).
Proof. split; vm_compute; reflexivity. Qed.

(** ** C4: the order of the batch result *)

(** C4.  Once the run is resolved and its iterations are listed, the
    iterations are in ascending order; whatever order the workers finish
    in, a batch that returns a list returns the snapshot path of the i-th
    iteration at position i; and a batch in which no job failed returns
    that list. *)
Theorem plot_cells_at_all_iterations_in_order (viridis : Mpl.cmap_arg -> Mpl.rgba)
    (schedule : list nat) (lo hi : float) (op sp : option path) (ow tr : bool)
    (w w1 w2 : world) (run : path) (its : list Z) :
  or_last_output_path op w = (Ok run, w1) ->
  get_all_iterations (Some run) w1 = (Ok its, w2) ->
  StronglySorted Z.le its /\
  (forall l w',
     plot_cells_at_all_iterations viridis schedule lo hi op sp ow tr w = (Ok l, w') ->
     l = map (fun it => snapshot_dir run sp ++ [snapshot_name it]) its) /\
  (forall done w3,
     complete (__plotting_helper viridis) (List.length its) schedule
       (combine (seq 0 (List.length its)) (arguments its lo hi run sp ow tr)) w2
     = (done, w3) ->
     Forall (fun ir => is_ok (snd ir) = true) done ->
     plot_cells_at_all_iterations viridis schedule lo hi op sp ow tr w
     = (Ok (map (fun it => snapshot_dir run sp ++ [snapshot_name it]) its), w3)).
Proof.
  intros Hres Hits. split; [exact (get_all_iterations_sorted _ _ _ _ Hits)|]. split.
  - intros l w'. now apply (batch_result_in_order viridis schedule lo hi op sp ow tr w w1 w2).
  - intros done w3 Hc Hok.
    rewrite <- (arguments_length lo hi sp ow tr its run) in Hc.
    destruct (imap_list_returns _ _ _ _ _ _ Hc Hok) as [l Hl].
    rewrite <- (plot_cells_at_all_iterations_jobs viridis schedule lo hi op sp ow tr
                  w w1 w2 run its Hres Hits) in Hl.
    rewrite Hl. f_equal. f_equal.
    exact (batch_result_in_order viridis schedule lo hi op sp ow tr w w1 w2 w3 run its l
             Hres Hits Hl).
Qed.

(** C4 on the sample run, whose iterations are listed as 5, 1, 3, with the
    job of iteration 5 finishing first and that of iteration 1 last. *)
Lemma plot_cells_at_all_iterations_in_order_witness :
  StronglySorted Z.le [1; 3; 5]%Z /\
  fst (plot_cells_at_all_iterations Sample.grey [2; 1; 0] 0 4 None None false true
         (Sample.world_of Sample.tree))
  = Ok (map (fun it => ["out"; "cr_trichome"; "2024-07-31-T17-34-57"; "images";
                        snapshot_name it]) [1; 3; 5]%Z).
Proof.
  destruct (plot_cells_at_all_iterations_in_order Sample.grey [2; 1; 0] 0 4 None None
              false true (Sample.world_of Sample.tree)
              {| root := Sample.tree; log := [Resolve default_search_path] |}
              {| root := Sample.tree; log := [Resolve default_search_path] |}
              ["out"; "cr_trichome"; "2024-07-31-T17-34-57"] [1; 3; 5]%Z
              eq_refl eq_refl) as (Hsorted & _ & Hreturns).
  split; [exact Hsorted|].
  erewrite Hreturns.
  - reflexivity.
  - vm_compute. reflexivity.
  - repeat constructor.
Defined.

(** ** C5: the latest run *)

(** C5.  [get_last_output_path] does not tell the subdirectories of the
    search root from its other entries: it takes what [glob] lists there,
    files and directories alike, and no name that starts with a dot.  A
    search root that holds a file and no subdirectory does not make it fail:
    the path of the file is returned as the latest run.  A file whose name
    sorts after the names of the subdirectories is returned in their place,
    and a subdirectory with a hidden name is not seen, so that a root with
    no other entry raises [ValueError].  For every search root (named
    without pattern characters and without [..]) the call raises
    [ValueError] when [glob] lists no name, and returns the path of the
    lexicographically maximal listed name otherwise; where every entry of
    the root is a directory whose name does not start with a dot, that is
    the maximal subdirectory, and the call raises exactly when there is
    none. *)
Theorem get_last_output_path_takes_any_entry :
  (subdirectories Cases.only_a_file default_search_path = [] /\
   get_last_output_path default_search_path (Sample.world_of Cases.only_a_file)
   = (Ok ["out"; "cr_trichome"; "notes.txt"],
      {| root := Cases.only_a_file; log := [Resolve default_search_path] |}) /\
   walk Cases.only_a_file ["out"; "cr_trichome"; "notes.txt"] = Some (File Blob)) /\
  (subdirectories Cases.runs_and_a_file default_search_path
   = ["2024-07-31-T17-34-27"; "2024-07-31-T17-34-57"] /\
   fst (get_last_output_path default_search_path (Sample.world_of Cases.runs_and_a_file))
   = Ok ["out"; "cr_trichome"; "notes.txt"]) /\
  (subdirectories Cases.only_hidden default_search_path = [".2024-07-31-T17-34-57"] /\
   fst (get_last_output_path default_search_path (Sample.world_of Cases.only_hidden))
   = Raise ValueError) /\
  (forall (search_path : path) (w : world),
     existsb has_magic search_path = false ->
     let names := listing (root w) search_path Star in
     (names = [] ->
      fst (get_last_output_path search_path w) = Raise ValueError) /\
     (names <> [] ->
      exists m,
        In m names /\
        (forall n, In n names -> String.leb n m = true) /\
        fst (get_last_output_path search_path w) = Ok (Path (str (search_path ++ [m]))) /\
        (forallb proper_name (search_path ++ [m]) = true ->
         fst (get_last_output_path search_path w) = Ok (search_path ++ [m])))) /\
  (forall (search_path : path) (w : world),
     existsb has_magic search_path = false ->
     (forall n, In n (listdir (root w) search_path) ->
        hidden n = false /\
        exists es, walk (root w) (search_path ++ [n]) = Some (Dir es)) ->
     let dirs := subdirectories (root w) search_path in
     (dirs = [] ->
      fst (get_last_output_path search_path w) = Raise ValueError) /\
     (dirs <> [] ->
      exists m,
        In m dirs /\
        (forall n, In n dirs -> String.leb n m = true) /\
        fst (get_last_output_path search_path w) = Ok (Path (str (search_path ++ [m]))))).
Proof.
  split; [|split; [|split; [|split]]].
  - repeat split; vm_compute; reflexivity.
  - split; vm_compute; reflexivity.
  - split; vm_compute; reflexivity.
  - intros search_path w Hliteral names.
    destruct (get_last_output_path_max_listed search_path w Hliteral) as [Hnone Hsome].
    split; [exact Hnone|]. intros Hne.
    destruct (Hsome Hne) as (m & Hm & Hmax & Hres).
    exists m. split; [exact Hm|]. split; [exact Hmax|]. split; [exact Hres|].
    intros Hproper. now rewrite Hres, Path_str.
  - intros search_path w Hliteral Hdirs dirs.
    pose proof (get_last_output_path_max_listed search_path w Hliteral) as H.
    cbv zeta in H.
    rewrite (listing_subdirectories (root w) search_path Hdirs) in H. exact H.
Qed.

(** C5 on the sample tree, whose search root holds three run directories
    and nothing else: the latest is returned; and on a root without
    entries, which raises. *)
Lemma get_last_output_path_takes_any_entry_witness :
  (exists m,
     In m (subdirectories Sample.tree default_search_path) /\
     (forall n, In n (subdirectories Sample.tree default_search_path) ->
        String.leb n m = true) /\
     fst (get_last_output_path default_search_path (Sample.world_of Sample.tree))
     = Ok (Path (str (default_search_path ++ [m])))) /\
  fst (get_last_output_path ["empty"] (Sample.world_of Sample.tree)) = Raise ValueError.
Proof.
  pose proof (proj2 (proj2 (proj2 (proj2 get_last_output_path_takes_any_entry)))) as H.
  split.
  - apply (H default_search_path (Sample.world_of Sample.tree) eq_refl).
    + intros n Hn. vm_compute in Hn.
      destruct Hn as [<-|[<-|[<-|[]]]]; (split; [reflexivity|eexists; reflexivity]).
    + vm_compute. discriminate.
  - apply (H ["empty"] (Sample.world_of Sample.tree) eq_refl).
    + intros n Hn. destruct Hn.
    + reflexivity.
Defined.

(** ** C6: the iterations of a run *)

(** C6, as the code has it.  When every listed name spells an integer that
    fits numpy's [int64], [get_all_iterations] returns those integers in
    ascending order, each as often as it is spelled: two names of one
    number are both kept and nothing is raised for them.  The result is
    strictly ascending when the names spell distinct numbers, and for the
    names [00000000000000000003] and [00000000000000000001] it is
    [[1; 3]]. *)
Theorem get_all_iterations_ascending (output_path : option path) (w w1 : world)
    (run : path) (ns : list Z) :
  or_last_output_path output_path w = (Ok run, w1) ->
  (folders <- glob (root w1) (run ++ ["cells"; "json"]) Star ;;
   traverse (fun f => Py.int (name (Path f))) folders)%outcome = Ok ns ->
  forallb Np.in_int64 ns = true ->
  (exists l,
     fst (get_all_iterations output_path w) = Ok l /\
     StronglySorted Z.le l /\
     Permutation ns l /\
     (NoDup ns -> StronglySorted Z.lt l)) /\
  fst (get_all_iterations (Some ["run"]) (Sample.world_of Sample.two_iterations))
  = Ok [1; 3]%Z.
Proof.
  intros Hrun Hns Hfit. split; [|reflexivity].
  exists (Py.sort Z.leb ns).
  assert (Hs : StronglySorted (fun a b => (a <=? b)%Z = true) (Py.sort Z.leb ns)).
  { apply sort_sorted; [apply Z_leb_total|apply Z_leb_trans]. }
  repeat split.
  - unfold get_all_iterations, bindM. rewrite Hrun.
    unfold disk, lift.
    destruct (glob (root w1) (run ++ ["cells"; "json"]) Star) as [folders| |];
      try discriminate.
    cbn [Py.bind] in Hns. rewrite Hns.
    unfold Np.sort_ints. now rewrite Hfit.
  - eapply StronglySorted_impl; [|exact Hs]. intros x y. apply Z.leb_le.
  - apply sort_perm.
  - intros Hnd. apply sorted_le_nodup_lt; [exact Hs|].
    eapply Permutation_NoDup; [apply sort_perm|exact Hnd].
Qed.

(** C6 run on the sample run, whose iterations are listed as 5, 1, 3. *)
Lemma get_all_iterations_ascending_witness :
  exists l,
    fst (get_all_iterations None (Sample.world_of Sample.tree)) = Ok l /\
    StronglySorted Z.le l /\
    Permutation [5; 1; 3]%Z l /\
    (NoDup [5; 1; 3]%Z -> StronglySorted Z.lt l).
Proof.
  refine (proj1 (get_all_iterations_ascending None (Sample.world_of Sample.tree)
                   {| root := Sample.tree; log := [Resolve default_search_path] |}
                   ["out"; "cr_trichome"; "2024-07-31-T17-34-57"] [5; 1; 3]%Z _ _ _));
    reflexivity.
Defined.

(** C6 as stated fails: two names of the number 1 give [[1; 1]], which is
    not strictly ascending, and no error is raised. *)
Lemma get_all_iterations_keeps_duplicates :
  fst (get_all_iterations (Some ["run"]) (Sample.world_of Sample.same_number_twice))
  = Ok [1; 1]%Z /\
  ~ StronglySorted Z.lt [1; 1]%Z.
Proof.
  split; [reflexivity|].
  intros H. inversion H as [|? ? _ Hall]; subst.
  inversion Hall as [|? ? Hlt _]; subst. lia.
Qed.

(** ** C7: a render that fails in the batch *)

(** C7, as the code has it.  A failed render is not dropped: the batch
    call ends with the exception of the failed job that has the lowest
    index, and returns no list.  (A batch that returns holds one path per
    iteration and nothing else, see C4.) *)
Theorem batch_failure_is_raised (viridis : Mpl.cmap_arg -> Mpl.rgba)
    (schedule : list nat) (lo hi : float) (op sp : option path) (ow tr : bool)
    (w w1 w2 w3 : world) (run : path) (its : list Z)
    (done : list (nat * outcome path)) (i : nat) (e : exn) :
  or_last_output_path op w = (Ok run, w1) ->
  get_all_iterations (Some run) w1 = (Ok its, w2) ->
  complete (__plotting_helper viridis) (List.length its) schedule
    (combine (seq 0 (List.length its)) (arguments its lo hi run sp ow tr)) w2
  = (done, w3) ->
  i < List.length its ->
  find_result i done = Raise e ->
  (forall j, j < i -> is_ok (find_result j done) = true) ->
  fst (plot_cells_at_all_iterations viridis schedule lo hi op sp ow tr w) = Raise e.
Proof.
  intros Hres Hits Hc Hi He Hbefore.
  rewrite (plot_cells_at_all_iterations_jobs viridis schedule lo hi op sp ow tr
             w w1 w2 run its Hres Hits).
  rewrite <- (arguments_length lo hi sp ow tr its run) in Hc, Hi.
  now rewrite (imap_list_first_failure _ _ _ _ _ _ i e Hc Hi He Hbefore).
Qed.

(** C7 on a run whose second iteration has no shard: the first iteration
    is rendered and the batch ends with the second one's [KeyError]. *)
Lemma batch_failure_is_raised_witness :
  fst (plot_cells_at_all_iterations Sample.grey [1; 0] 0 4 (Some ["run"]) None false true
         (Sample.world_of Sample.second_iteration_empty))
  = Raise (KeyError (KStr "cell.mechanics.points")).
Proof.
  erewrite (batch_failure_is_raised Sample.grey [1; 0] 0 4 (Some ["run"]) None false true
              (Sample.world_of Sample.second_iteration_empty) _ _ _ ["run"] [1; 2]%Z _ 1).
  - reflexivity.
  - reflexivity.
  - reflexivity.
  - vm_compute. reflexivity.
  - simpl. lia.
  - reflexivity.
  - intros j Hj. assert (j = 0) as -> by lia. reflexivity.
Defined.

(** C7 as stated fails.  A batch over a run whose snapshot is missing and a
    batch over the same run with the snapshot in place return the same
    list, though the first saved a file and the second did not; and the
    batch over a run whose second iteration has no shard returns no list
    at all, though its first iteration was rendered and saved. *)
Lemma batch_result_has_no_status :
  fst (plot_cells_at_all_iterations Sample.grey [] 0 4 (Some ["run"]) None false true
         (Sample.world_of Sample.not_rendered))
  = fst (plot_cells_at_all_iterations Sample.grey [] 0 4 (Some ["run"]) None false true
           (Sample.world_of Sample.rendered)) /\
  existsb is_save
    (log (snd (plot_cells_at_all_iterations Sample.grey [] 0 4 (Some ["run"]) None false true
                 (Sample.world_of Sample.not_rendered)))) = true /\
  existsb is_save
    (log (snd (plot_cells_at_all_iterations Sample.grey [] 0 4 (Some ["run"]) None false true
                 (Sample.world_of Sample.rendered)))) = false /\
  fst (plot_cells_at_all_iterations Sample.grey [] 0 4 (Some ["run"]) None false true
         (Sample.world_of Sample.second_iteration_empty))
  = Raise (KeyError (KStr "cell.mechanics.points")) /\
  existsb is_save
    (log (snd (plot_cells_at_all_iterations Sample.grey [] 0 4 (Some ["run"]) None false true
                 (Sample.world_of Sample.second_iteration_empty)))) = true.
Proof. repeat split; vm_compute; reflexivity. Qed.

(** ** C8: an iteration without records *)

(** C8, as the code has it.  When [glob] finds no shard file of the
    iteration, or every shard file holds no record, [load_cells] raises the
    [KeyError] of
    the column [cell.mechanics.points]; and every table whose records lack
    that column raises the same [KeyError], so the error does not tell an
    empty iteration from records without an outline. *)
Theorem load_cells_empty_iteration (iteration : Z) (run : path) (w : world)
    (files : list string) :
  glob (root w) (run ++ ["cells"; "json"; format_020 iteration]) (StarSuffix ".json")
  = Ok files ->
  (forall f,
     In f files ->
     exists batch,
       walk (root w) (Path f) = Some (File (Doc batch)) /\ elements batch = Ok []) ->
  fst (load_cells iteration (Some run) w)
  = Raise (KeyError (KStr "cell.mechanics.points")) /\
  (forall results df,
     Pd.json_normalize results = Ok df ->
     Pd.has_column df "cell.mechanics.points" = false ->
     to_table results = Raise (KeyError (KStr "cell.mechanics.points"))).
Proof.
  intros Hglob H. split.
  - set (w0 := {| root := root w; log := log w ++ [Load iteration run] |}).
    destruct (for_each_no_records files w0) as (w' & Hr & _).
    { exact H. }
    rewrite (load_cells_records iteration run w w' []).
    + reflexivity.
    + unfold read_records, bindM, disk, lift. fold w0.
      change (root w0) with (root w).
      rewrite Hglob, Hr. unfold ret. now rewrite concat_nils.
  - intros results df Hdf Hcol. unfold to_table. rewrite Hdf.
    unfold Py.bind, Pd.column. now rewrite Hcol.
Qed.

(** C8 on an iteration directory without shard files. *)
Lemma load_cells_empty_iteration_witness :
  fst (load_cells 7 (Some ["run"]) (Sample.world_of Sample.no_shards))
  = Raise (KeyError (KStr "cell.mechanics.points")).
Proof.
  refine (proj1 (load_cells_empty_iteration 7 ["run"] (Sample.world_of Sample.no_shards)
                   [] eq_refl _)).
  intros f Hf. destruct Hf.
Defined.

(** C8 as stated fails: an iteration without shards, an iteration whose
    shard holds no record, and a shard whose records lack their outline all
    end in one and the same exception. *)
Lemma empty_iteration_error_not_distinct :
  fst (load_cells 7 (Some ["run"]) (Sample.world_of Sample.no_shards))
  = Raise (KeyError (KStr "cell.mechanics.points")) /\
  fst (load_cells 7 (Some ["run"]) (Sample.world_of Sample.no_records))
  = Raise (KeyError (KStr "cell.mechanics.points")) /\
  fst (load_cells 7 (Some ["run"]) (Sample.world_of Sample.records_without_points))
  = Raise (KeyError (KStr "cell.mechanics.points")).
Proof. repeat split; reflexivity. Qed.

(** ** C9: records that do not fit *)

(** C9, as the code has it.  A table in which some record's flat
    coordinate list has odd length is refused by the loader with
    [ValueError] (the specification's [MalformedRecordError]).  The loader
    does not look at the length of the intracellular vector: a table of
    even-length outlines is loaded whatever the vectors' lengths.  A vector
    with fewer than three entries fails later, in the renderer, with
    [IndexError], and the call of [plot_cells_at_iter] that renders the
    iteration raises it. *)
Theorem malformed_records (viridis : Mpl.cmap_arg -> Mpl.rgba) :
  (forall results df xs,
     Pd.json_normalize results = Ok df ->
     Pd.column df "cell.mechanics.points" = Ok xs ->
     Forall flat xs ->
     Exists flat_odd xs ->
     to_table results = Raise ValueError) /\
  (forall results df xs ls,
     Pd.json_normalize results = Ok df ->
     Pd.column df "cell.mechanics.points" = Ok xs ->
     Forall flat_even xs ->
     Pd.column df "cell.intracellular" = Ok (map (fun l => JArr (map JNum l)) ls) ->
     exists pts,
       to_table results
       = Ok {| frame := df; points := pts; intracellular := map Np.Arr1 ls |}) /\
  (forall it lo hi (run : path) (sp : option path) ow tr w w' d c,
     mkdir (root w) (snapshot_dir run sp) = Ok d ->
     exists_ d (snapshot_dir run sp ++ [snapshot_name it]) && negb ow = false ->
     load_cells it (Some run) {| root := d; log := log w |} = (Ok c, w') ->
     Forall one_dimensional (intracellular c) ->
     Exists too_short (intracellular c) ->
     fst (plot_cells_at_iter viridis it lo hi (Some run) sp ow tr w) = Raise IndexError).
Proof.
  split; [|split].
  - intros results df xs Hdf Hxs Hflat Hodd.
    unfold to_table. rewrite Hdf. cbn [Py.bind]. rewrite Hxs. cbn [Py.bind].
    rewrite (traverse_first_raise reshape_points ValueError xs); [reflexivity| |].
    + eapply Forall_impl; [|exact Hflat].
      intros x [l ->]. apply reshape_points_flat.
    + eapply Exists_impl; [|exact Hodd].
      intros x (l & -> & Hl). now apply reshape_points_odd.
  - intros results df xs ls Hdf Hxs Heven Hys.
    assert (Hpts : exists pts, traverse reshape_points xs = Ok pts).
    { clear Hxs. induction Heven as [|x r (l & -> & Hl) _ IH].
      - exists []. reflexivity.
      - destruct (reshape_points_even l Hl) as [m Hm].
        destruct IH as [pts Hp]. exists (m :: pts). simpl. now rewrite Hm, Hp. }
    destruct Hpts as [pts Hpts]. exists pts.
    unfold to_table. rewrite Hdf. cbn [Py.bind]. rewrite Hxs. cbn [Py.bind].
    rewrite Hpts. cbn [Py.bind]. rewrite Hys. cbn [Py.bind].
    rewrite (traverse_all_ok Np.array_float _ (map Np.Arr1 ls)); [reflexivity|].
    clear. induction ls as [|l r IH]; simpl; constructor; [apply array_float_flat|exact IH].
  - intros it lo hi run sp ow tr w w' d c Hmk Hex Hload Hone Hshort.
    rewrite (plot_cells_at_iter_renders viridis it lo hi run sp ow tr w w' d c
               Hmk Hex Hload).
    unfold bindM at 1, lift at 1, plot_cells.
    pose proof (map_snd_combine (points c) (intracellular c)
                  (load_cells_lengths _ _ _ _ _ Hload)) as Hsnd.
    rewrite (plot_rows_too_short viridis lo hi); [reflexivity| |]; now rewrite Hsnd.
Qed.

(** C9 on the sample shards: three coordinates are refused by the loader,
    and a vector of two entries is refused by the renderer. *)
Lemma malformed_records_witness :
  to_table [Sample.cell [1; 2; 3]%float [0; 0; 1]%float] = Raise ValueError /\
  fst (plot_cells_at_iter Sample.grey 7 0 4 (Some ["run"]) None false true
         (Sample.world_of Sample.short_vector))
  = Raise IndexError.
Proof.
  split.
  - eapply (proj1 (malformed_records Sample.grey)).
    + reflexivity.
    + reflexivity.
    + constructor; [|constructor]. exists [1; 2; 3]%float. reflexivity.
    + constructor. exists [1; 2; 3]%float. split; reflexivity.
  - eapply (proj2 (proj2 (malformed_records Sample.grey))).
    + reflexivity.
    + reflexivity.
    + reflexivity.
    + constructor; [|constructor]. now exists [0; 1]%float.
    + constructor. exists [0; 1]%float. split; [reflexivity|simpl; lia].
Defined.

(** C9 as stated fails: a record whose intracellular vector has two
    entries is loaded, and the table holds the vector as it is. *)
Lemma short_vector_is_loaded :
  exists c,
    fst (load_cells 7 (Some ["run"]) (Sample.world_of Sample.short_vector)) = Ok c /\
    intracellular c = [Np.Arr1 [0; 1]%float].
Proof. eexists. split; reflexivity. Qed.

(** ** C10: one resolution of the run per batch *)

(** C10.  A batch resolves the run once when no run is given and never
    when one is given.  Once the run is resolved and its iterations are
    listed, the batch is the pool over one job for each iteration, in
    order, and the resolved run is placed, as an explicit path, in every
    job; hence no job resolves the run again, although
    [plot_cells_at_iter] and [load_cells] do resolve it when called without
    a run.  Whatever the jobs end in, the batch records nothing but the
    resolution before the pool starts, the jobs record no resolution, and
    every load they record is the load of an iteration of the batch from
    the resolved run.  When the batch returns and no iteration is listed
    twice, the loads are exactly those of the iterations whose snapshot was
    missing (of all iterations under [overwrite]), each once and each from
    the resolved run. *)
Theorem batch_resolves_run_once (viridis : Mpl.cmap_arg -> Mpl.rgba)
    (schedule : list nat) (lo hi : float) (op sp : option path) (ow tr : bool)
    (w : world) :
  (exists new,
     log (snd (plot_cells_at_all_iterations viridis schedule lo hi op sp ow tr w))
     = log w ++ new /\
     resolutions new = match op with None => 1 | Some _ => 0 end) /\
  (forall run w1 its w2,
     or_last_output_path op w = (Ok run, w1) ->
     get_all_iterations (Some run) w1 = (Ok its, w2) ->
     plot_cells_at_all_iterations viridis schedule lo hi op sp ow tr w
     = imap_list schedule (__plotting_helper viridis)
         (arguments its lo hi run sp ow tr) w2 /\
     Forall (fun j : job => output_path (snd j) = Some run)
            (arguments its lo hi run sp ow tr) /\
     Forall (fun j : job => counts 0 (__plotting_helper viridis j))
            (arguments its lo hi run sp ow tr) /\
     map iteration_of (arguments its lo hi run sp ow tr) = its /\
     root w2 = root w /\
     log w2 = log w ++ match op with
                       | None => [Resolve default_search_path]
                       | Some _ => []
                       end /\
     (exists new,
        log (snd (plot_cells_at_all_iterations viridis schedule lo hi op sp ow tr w))
        = log w2 ++ new /\
        Forall (of_run run its) new /\
        resolutions new = 0 /\
        Forall (fun l => In (fst l) its /\ snd l = run) (loads new)) /\
     (forall l w',
        plot_cells_at_all_iterations viridis schedule lo hi op sp ow tr w = (Ok l, w') ->
        NoDup its ->
        Permutation (loads (log w'))
          (loads (log w) ++
           map (fun it => (it, run))
               (filter (fun it => ow || negb (exists_ (root w)
                                                (snapshot_dir run sp ++ [snapshot_name it])))
                       its)))) /\
  (forall it,
     counts 1 (plot_cells_at_iter viridis it lo hi None sp ow tr) /\
     counts 1 (load_cells it None)).
Proof.
  assert (Hjobs : forall its run a,
             In a (arguments its lo hi run sp ow tr) ->
             counts 0 (__plotting_helper viridis a)).
  { intros its run a Ha. unfold arguments in Ha.
    apply in_map_iff in Ha. destruct Ha as (it & <- & _).
    cbn [__plotting_helper output_path save_path overwrite transparent].
    exact (counts_plot_cells_at_iter viridis it lo hi (Some run) sp ow tr). }
  split; [|split].
  - apply (counts_bind _ (or_last_output_path op)); [apply counts_or_last_output_path|].
    intros run. apply counts_bind; [apply counts_get_all_iterations|].
    intros its. apply counts_imap_list. apply Hjobs.
  - intros run w1 its w2 Hres Hits.
    pose proof (plot_cells_at_all_iterations_jobs viridis schedule lo hi op sp ow tr
                  w w1 w2 run its Hres Hits) as Hbatch.
    destruct (or_last_output_path_effect op w w1 _ Hres) as [Hroot Hlog].
    pose proof (get_all_iterations_range _ _ _ _ Hits) as Hrange.
    rewrite get_all_iterations_given in Hits.
    assert (Hw2 : w2 = w1) by (apply (f_equal snd) in Hits; now symmetry).
    subst w2.
    split; [exact Hbatch|].
    split; [apply arguments_output_path|].
    split; [apply Forall_forall; apply Hjobs|].
    split; [apply arguments_iterations|].
    split; [exact Hroot|]. split; [exact Hlog|]. split.
    + rewrite Hbatch.
      destruct (emits_pool viridis schedule its lo hi run sp ow tr w1) as (new & Hnew & Hall).
      exists new. split; [exact Hnew|]. split; [exact Hall|]. split.
      * unfold resolutions. clear Hnew.
        induction Hall as [|e l He _ IH]; [reflexivity|].
        cbn [filter]. destruct e; cbn [is_resolve]; try exact IH. destruct He.
      * exact (loads_of_run run its new Hall).
    + intros l w' Hok Hnd. rewrite Hbatch in Hok.
      pose proof (pool_loads viridis lo hi run sp ow tr schedule its w1 w' l
                    Hrange Hnd Hok) as Hperm.
      rewrite Hroot in Hperm.
      assert (Hl : loads (log w1) = loads (log w)).
      { rewrite Hlog, loads_app. destruct op; cbn; now rewrite app_nil_r. }
      now rewrite Hl in Hperm.
  - intros it. split.
    + exact (counts_plot_cells_at_iter viridis it lo hi None sp ow tr).
    + unfold load_cells.
      apply counts_bind; [exact (counts_or_last_output_path None)|].
      intros run. unfold read_records. quiet.
Qed.

(** C10 on the sample tree, with no run given: one resolution for the
    three jobs, one for each of the iterations 1, 3 and 5, each holding the
    resolved run; the batch returns, and its loads are those of the three
    iterations from that run. *)
Lemma batch_resolves_run_once_witness :
  resolutions
    (log (snd (plot_cells_at_all_iterations Sample.grey [2; 1; 0] 0 4 None None false true
                 (Sample.world_of Sample.tree)))) = 1 /\
  Forall (fun j : job => output_path (snd j)
                         = Some ["out"; "cr_trichome"; "2024-07-31-T17-34-57"])
         (arguments [1; 3; 5]%Z 0 4 ["out"; "cr_trichome"; "2024-07-31-T17-34-57"]
                    None false true) /\
  map iteration_of
      (arguments [1; 3; 5]%Z 0 4 ["out"; "cr_trichome"; "2024-07-31-T17-34-57"]
                 None false true) = [1; 3; 5]%Z /\
  Permutation
    (loads (log (snd (plot_cells_at_all_iterations Sample.grey [2; 1; 0] 0 4 None None
                        false true (Sample.world_of Sample.tree)))))
    [(1, ["out"; "cr_trichome"; "2024-07-31-T17-34-57"]);
     (3, ["out"; "cr_trichome"; "2024-07-31-T17-34-57"]);
     (5, ["out"; "cr_trichome"; "2024-07-31-T17-34-57"])]%Z.
Proof.
  pose proof (batch_resolves_run_once Sample.grey [2; 1; 0] 0 4 None None false true
                (Sample.world_of Sample.tree)) as (Hcount & Hjobs & _).
  specialize (Hjobs ["out"; "cr_trichome"; "2024-07-31-T17-34-57"]
                {| root := Sample.tree; log := [Resolve default_search_path] |}
                [1; 3; 5]%Z
                {| root := Sample.tree; log := [Resolve default_search_path] |}
                eq_refl eq_refl).
  destruct Hjobs as (_ & Hrun & _ & Hits & _ & _ & _ & Hloads).
  split; [|split; [exact Hrun|split; [exact Hits|]]].
  - destruct Hcount as (new & Hlog & Hn). rewrite Hlog. exact Hn.
  - refine (Hloads
              (match fst (plot_cells_at_all_iterations Sample.grey [2; 1; 0] 0 4 None None
                            false true (Sample.world_of Sample.tree)) with
               | Ok l => l
               | _ => []
               end) _ _ _).
    + vm_compute. reflexivity.
    + repeat constructor; cbn; intuition discriminate.
Defined.

(** * Further properties of the code *)

(** ** The names of the iteration folders *)

(** X1.  The folder [load_cells] looks an iteration up in is read back by
    [get_all_iterations] as that iteration: for a number [n] of the
    [int64] range, [int(Path(f).name)] on the path
    [output_path / "cells/json/{:020}".format(n)] is [n].  The formatted
    number has twenty characters, and two numbers of the range that are
    formatted alike are equal. *)
Theorem iteration_folder_round_trip (run : path) (n : Z) :
  Np.in_int64 n = true ->
  Py.int (name (Path (str (run ++ ["cells"; "json"; format_020 n])))) = Ok n /\
  String.length (format_020 n) = 20 /\
  (forall m, Np.in_int64 m = true -> format_020 m = format_020 n -> m = n).
Proof.
  intros Hn. destruct (int_format_020 n Hn) as [Hint Hlen].
  split; [|split].
  - change (run ++ ["cells"; "json"; format_020 n])
      with (run ++ ["cells"; "json"] ++ [format_020 n]).
    rewrite app_assoc, name_Path_str; [exact Hint|apply format_020_proper].
  - exact Hlen.
  - intros m Hm E. destruct (int_format_020 m Hm) as [Hint' _].
    rewrite E, Hint in Hint'. congruence.
Qed.

(** X1 on iteration 7 of a run stored under [out/run]. *)
Lemma iteration_folder_round_trip_witness :
  Py.int (name (Path (str (["out"; "run"] ++ ["cells"; "json"; format_020 7])))) = Ok 7%Z /\
  String.length (format_020 7) = 20 /\
  (forall m, Np.in_int64 m = true -> format_020 m = format_020 7 -> m = 7%Z).
Proof. exact (iteration_folder_round_trip ["out"; "run"] 7 eq_refl). Defined.

(** X2.  When the entries of [cells/json] are named as [load_cells] names
    the folder of an iteration, [get_all_iterations] returns the
    iterations so named, in ascending order, and changes nothing; and the
    folder of every iteration it returns exists. *)
Theorem get_all_iterations_of_named_folders (run : path) (w : world) (its : list Z) :
  existsb has_magic (run ++ ["cells"; "json"]) = false ->
  listing (root w) (run ++ ["cells"; "json"]) Star = map format_020 its ->
  forallb Np.in_int64 its = true ->
  get_all_iterations (Some run) w = (Ok (Py.sort Z.leb its), w) /\
  (forall it,
     In it (Py.sort Z.leb its) ->
     exists_ (root w) (run ++ ["cells"; "json"; format_020 it]) = true).
Proof.
  intros Hmagic Hnames Hrange. split.
  - rewrite get_all_iterations_given. unfold glob. rewrite Hmagic, Hnames.
    cbn [Py.bind]. rewrite traverse_int_names.
    + rewrite (traverse_int_format its Hrange). cbn [Py.bind].
      unfold Np.sort_ints. now rewrite Hrange.
    + apply forallb_forall. intros x Hx. apply in_map_iff in Hx.
      destruct Hx as (n & <- & _). apply format_020_proper.
  - intros it Hit.
    apply (Permutation_in it (Permutation_sym (sort_perm Z.leb its))) in Hit.
    change (run ++ ["cells"; "json"; format_020 it])
      with (run ++ ["cells"; "json"] ++ [format_020 it]).
    rewrite app_assoc. apply (listing_exists _ _ Star).
    rewrite Hnames. now apply in_map.
Qed.

(** X2 on the sample run, whose folders are listed as 5, 1, 3. *)
Lemma get_all_iterations_of_named_folders_witness :
  get_all_iterations (Some ["out"; "cr_trichome"; "2024-07-31-T17-34-57"])
    (Sample.world_of Sample.tree)
  = (Ok [1; 3; 5]%Z, Sample.world_of Sample.tree) /\
  (forall it,
     In it [1; 3; 5]%Z ->
     exists_ Sample.tree
       (["out"; "cr_trichome"; "2024-07-31-T17-34-57"] ++ ["cells"; "json"; format_020 it])
     = true).
Proof.
  exact (get_all_iterations_of_named_folders
           ["out"; "cr_trichome"; "2024-07-31-T17-34-57"]
           (Sample.world_of Sample.tree) [5; 1; 3]%Z eq_refl eq_refl eq_refl).
Defined.

(** X3.  An entry of [cells/json] whose name is not a number stops the
    listing: when the names [glob] matches there (hidden ones are not
    matched) are plain text and one of them is refused by [int],
    [get_all_iterations] raises [ValueError], and so does
    [plot_cells_at_all_iterations], before any job is started and with
    nothing changed. *)
Theorem get_all_iterations_stray_entry (viridis : Mpl.cmap_arg -> Mpl.rgba)
    (schedule : list nat) (lo hi : float) (sp : option path) (ow tr : bool)
    (run : path) (w : world) :
  existsb has_magic (run ++ ["cells"; "json"]) = false ->
  forallb plain_name (listing (root w) (run ++ ["cells"; "json"]) Star) = true ->
  Exists (fun n => Py.int n = Raise ValueError)
         (listing (root w) (run ++ ["cells"; "json"]) Star) ->
  get_all_iterations (Some run) w = (Raise ValueError, w) /\
  plot_cells_at_all_iterations viridis schedule lo hi (Some run) sp ow tr w
  = (Raise ValueError, w).
Proof.
  intros Hmagic Hplain Hstray.
  assert (Hits : get_all_iterations (Some run) w = (Raise ValueError, w)).
  { rewrite get_all_iterations_given. unfold glob. rewrite Hmagic. cbn [Py.bind].
    rewrite forallb_forall in Hplain.
    rewrite traverse_int_names.
    - rewrite (traverse_first_raise Py.int ValueError); [reflexivity| |exact Hstray].
      apply Forall_forall. intros n Hn. specialize (Hplain n Hn).
      unfold plain_name in Hplain.
      apply andb_prop in Hplain. destruct Hplain as [Hplain Hlen].
      apply andb_prop in Hplain. destruct Hplain as [_ Hascii].
      apply Nat.leb_le in Hlen. now apply int_cases.
    - apply forallb_forall. intros n Hn. specialize (Hplain n Hn).
      unfold plain_name in Hplain.
      apply andb_prop in Hplain. destruct Hplain as [Hplain _].
      apply andb_prop in Hplain. now destruct Hplain. }
  split; [exact Hits|].
  unfold plot_cells_at_all_iterations, bindM. cbn [or_last_output_path]. unfold ret at 1.
  now rewrite Hits.
Qed.

(** X3 on a run with a note beside its iteration: the hidden file is not
    matched, the note is, and [int] refuses its name. *)
Lemma get_all_iterations_stray_entry_witness :
  get_all_iterations (Some ["run"]) (Sample.world_of Cases.with_note)
  = (Raise ValueError, Sample.world_of Cases.with_note) /\
  plot_cells_at_all_iterations Sample.grey [] 0 4 (Some ["run"]) None false true
    (Sample.world_of Cases.with_note)
  = (Raise ValueError, Sample.world_of Cases.with_note).
Proof.
  apply (get_all_iterations_stray_entry Sample.grey [] 0 4 None false true ["run"]
           (Sample.world_of Cases.with_note) eq_refl eq_refl).
  apply Exists_cons_tl. apply Exists_cons_hd. reflexivity.
Defined.

(** X4.  A run in which [glob] matches nothing under [cells/json], be it
    because the directory is missing or empty, has no iterations:
    [get_all_iterations] returns the empty list instead of raising, and
    [plot_cells_at_all_iterations] returns the empty list whatever the
    other arguments are, without creating the directory of the snapshots
    or changing anything else. *)
Theorem no_iterations_empty_batch (viridis : Mpl.cmap_arg -> Mpl.rgba)
    (schedule : list nat) (lo hi : float) (sp : option path) (ow tr : bool)
    (run : path) (w : world) :
  existsb has_magic (run ++ ["cells"; "json"]) = false ->
  listing (root w) (run ++ ["cells"; "json"]) Star = [] ->
  get_all_iterations (Some run) w = (Ok [], w) /\
  plot_cells_at_all_iterations viridis schedule lo hi (Some run) sp ow tr w = (Ok [], w).
Proof.
  intros Hmagic Hnone.
  assert (Hits : get_all_iterations (Some run) w = (Ok [], w)).
  { rewrite get_all_iterations_given. unfold glob. now rewrite Hmagic, Hnone. }
  split; [exact Hits|].
  unfold plot_cells_at_all_iterations, bindM. cbn [or_last_output_path]. unfold ret at 1.
  now rewrite Hits.
Qed.

(** X4 on a run that was never written to. *)
Lemma no_iterations_empty_batch_witness :
  get_all_iterations (Some ["run"]) (Sample.world_of Cases.bare)
  = (Ok [], Sample.world_of Cases.bare) /\
  plot_cells_at_all_iterations Sample.grey [0] 0 4 (Some ["run"]) None true true
    (Sample.world_of Cases.bare)
  = (Ok [], Sample.world_of Cases.bare).
Proof.
  exact (no_iterations_empty_batch Sample.grey [0] 0 4 None true true ["run"]
           (Sample.world_of Cases.bare) eq_refl eq_refl).
Defined.

(** ** The shards of an iteration *)

(** X5.  What [read_shard] gives for a file is what the disk stores for
    it.  With the run given, [load_cells] opens the files [glob] matched
    with [*.json] in the folder of the iteration, each once and in the
    order [glob] gave them, and nothing else; it leaves the disk as it
    was.  When every shard can be read, the table is built from the
    records of all shards, shard after shard, and a table that is built
    has one row, one outline and one intracellular vector per record. *)
Theorem load_cells_reads_every_shard (iteration : Z) (run : path) (w : world)
    (files : list string) (rss : list (list json)) :
  glob (root w) (run ++ ["cells"; "json"; format_020 iteration]) (StarSuffix ".json")
  = Ok files ->
  traverse (stored_records (root w)) files = Ok rss ->
  (forall f v, fst (read_shard f v) = stored_records (root v) f) /\
  load_cells iteration (Some run) w
  = (to_table (List.concat rss),
     {| root := root w; log := log w ++ Load iteration run :: map Read files |}) /\
  (forall f, In f files ->
     exists n,
       f = str (run ++ ["cells"; "json"; format_020 iteration] ++ [n]) /\
       ends_with ".json" n = true /\ hidden n = false) /\
  (forall c,
     to_table (List.concat rss) = Ok c ->
     List.length (frame c) = List.length (List.concat rss) /\
     List.length (points c) = List.length (List.concat rss) /\
     List.length (intracellular c) = List.length (List.concat rss)).
Proof.
  intros Hglob Hread. split; [|split; [|split]].
  - intros f v. now rewrite read_shard_stored.
  - apply load_cells_records.
    unfold read_records, bindM, disk, lift. cbn [root log].
    rewrite Hglob.
    rewrite (for_each_read_ok files
               {| root := root w; log := log w ++ [Load iteration run] |} rss Hread).
    unfold ret. cbn [root log]. now rewrite <- app_assoc.
  - intros f Hf. unfold glob in Hglob.
    destruct (existsb has_magic _); [discriminate|].
    injection Hglob as <-. apply in_map_iff in Hf. destruct Hf as (n & <- & Hn).
    unfold listing in Hn. apply filter_In in Hn. destruct Hn as [_ Hm].
    unfold matches in Hm. apply andb_prop in Hm. destruct Hm as [Hh He].
    exists n. rewrite <- app_assoc. split; [reflexivity|].
    split; [exact He|]. now apply negb_true_iff in Hh.
  - intros c Hc. exact (to_table_rows _ c Hc).
Qed.

(** X5 on iteration 1 of the sample run, which has two shards. *)
Lemma load_cells_reads_every_shard_witness :
  load_cells 1 (Some ["out"; "cr_trichome"; "2024-07-31-T17-34-57"])
    (Sample.world_of Sample.tree)
  = (to_table [Sample.segment; Sample.bright],
     {| root := Sample.tree;
        log := [Load 1 ["out"; "cr_trichome"; "2024-07-31-T17-34-57"];
                Read "out/cr_trichome/2024-07-31-T17-34-57/cells/json/00000000000000000001/batch_0.json";
                Read "out/cr_trichome/2024-07-31-T17-34-57/cells/json/00000000000000000001/batch_1.json"] |}).
Proof.
  exact (proj1 (proj2 (load_cells_reads_every_shard 1
                         ["out"; "cr_trichome"; "2024-07-31-T17-34-57"]
                         (Sample.world_of Sample.tree) _ _ eq_refl eq_refl))).
Defined.

(** X6.  The first shard that cannot be read ends [load_cells] with the
    exception it raised -- a missing key ["data"] or ["element"] is a
    [KeyError], an empty ["element"] an [IndexError], a file that holds
    no JSON document a [ValueError] -- and the shards after it are not
    opened. *)
Theorem load_cells_first_bad_shard (iteration : Z) (run : path) (w : world)
    (pre post : list string) (f : string) (rss : list (list json)) (e : exn) :
  glob (root w) (run ++ ["cells"; "json"; format_020 iteration]) (StarSuffix ".json")
  = Ok (pre ++ f :: post) ->
  traverse (stored_records (root w)) pre = Ok rss ->
  stored_records (root w) f = Raise e ->
  load_cells iteration (Some run) w
  = (Raise e,
     {| root := root w; log := log w ++ Load iteration run :: map Read (pre ++ [f]) |}) /\
  (forall ms, assoc "data" ms = None ->
     elements (JObj ms) = Raise (KeyError (KStr "data"))) /\
  (forall ms bs cs,
     assoc "data" ms = Some (JArr (bs ++ JObj cs :: nil)) ->
     Forall (fun b => is_ok (e <- getitem_str b "element" ;; getitem_0 e)%outcome = true) bs ->
     (assoc "element" cs = None ->
      elements (JObj ms) = Raise (KeyError (KStr "element"))) /\
     (assoc "element" cs = Some (JArr []) ->
      elements (JObj ms) = Raise IndexError)).
Proof.
  intros Hglob Hpre Hf. split; [|split].
  - unfold load_cells, or_last_output_path, bindM at 1 2, ret, emit.
    unfold bindM at 1. unfold read_records, bindM at 1 2, disk, lift. cbn [root log].
    rewrite Hglob.
    unfold bindM.
    rewrite (for_each_read_fail pre post f e
               {| root := root w; log := log w ++ [Load iteration run] |} rss Hpre Hf).
    cbn [root log]. now rewrite <- app_assoc.
  - intros ms H. unfold elements, getitem_str. now rewrite H.
  - intros ms bs cs Hdata Hbs.
    assert (Hgen : forall e',
               (e0 <- getitem_str (JObj cs) "element" ;; getitem_0 e0)%outcome = Raise e' ->
               elements (JObj ms) = Raise e').
    { intros e' He'. unfold elements, getitem_str at 1. rewrite Hdata.
      cbn [Py.bind iterate].
      apply traverse_raise_after_ok; [|exact He'].
      intros y Hy. rewrite Forall_forall in Hbs. now apply Hbs. }
    split; intros Hel; apply Hgen; unfold getitem_str; now rewrite Hel.
Qed.

(** X6 on an iteration whose second shard of three lacks ["data"]: the
    third shard is not opened. *)
Lemma load_cells_first_bad_shard_witness :
  load_cells 7 (Some ["run"]) (Sample.world_of Cases.bad_second_shard)
  = (Raise (KeyError (KStr "data")),
     {| root := Cases.bad_second_shard;
        log := [Load 7 ["run"];
                Read "run/cells/json/00000000000000000007/batch_0.json";
                Read "run/cells/json/00000000000000000007/batch_1.json"] |}).
Proof.
  exact (proj1 (load_cells_first_bad_shard 7 ["run"] (Sample.world_of Cases.bad_second_shard)
                  ["run/cells/json/00000000000000000007/batch_0.json"]
                  ["run/cells/json/00000000000000000007/batch_2.json"]
                  "run/cells/json/00000000000000000007/batch_1.json"
                  _ (KeyError (KStr "data")) eq_refl eq_refl eq_refl)).
Defined.

(** ** What the functions leave on the disk *)

(** X7.  [get_last_output_path], [get_all_iterations] and [load_cells]
    only read: whatever they return or raise, the disk after the call is
    the disk before it. *)
Theorem readers_leave_the_disk (search_path : path) (output_path : option path)
    (iteration : Z) (w : world) :
  root (snd (get_last_output_path search_path w)) = root w /\
  root (snd (get_all_iterations output_path w)) = root w /\
  root (snd (load_cells iteration output_path w)) = root w.
Proof.
  split; [|split].
  - revert w. change (reads_only (get_last_output_path search_path)).
    unfold get_last_output_path. reading.
  - revert w. change (reads_only (get_all_iterations output_path)).
    unfold get_all_iterations, or_last_output_path, get_last_output_path. reading.
  - apply reads_load_cells.
Qed.

(** X8.  A call of [plot_cells_at_iter] that returns, with [overwrite]
    set or with no snapshot there before, leaves at the returned path the
    picture of that iteration: the cells [load_cells] gives for it, drawn
    by [plot_cells] on axes from 0 to 800 both ways with the frame off,
    one polygon per cell, saved with the transparency asked for.  The call
    records one drawing and one save, after the load. *)
Theorem plot_cells_at_iter_saves_the_picture (viridis : Mpl.cmap_arg -> Mpl.rgba)
    (it : Z) (lo hi : float) (run : path) (sp : option path) (ow tr : bool)
    (w w' : world) (p : path) :
  plot_cells_at_iter viridis it lo hi (Some run) sp ow tr w = (Ok p, w') ->
  ow = true \/ exists_ (root w) (snapshot_dir run sp ++ [snapshot_name it]) = false ->
  exists d c w1 ax,
    mkdir (root w) (snapshot_dir run sp) = Ok d /\
    load_cells it (Some run) {| root := d; log := log w |} = (Ok c, w1) /\
    plot_cells viridis
      (Mpl.set_axis_off (Mpl.set_ylim 0 800 (Mpl.set_xlim 0 800 Mpl.subplots))) c lo hi
    = Ok ax /\
    p = snapshot_dir run sp ++ [snapshot_name it] /\
    walk (root w') p
    = Some (File (Picture {| Mpl.drawn := ax; Mpl.transparent_background := tr |})) /\
    Mpl.xlim ax = (0, 800)%float /\ Mpl.ylim ax = (0, 800)%float /\
    Mpl.axis_on ax = false /\
    List.length (Mpl.patches ax) = List.length (points c) /\
    log w' = log w1 ++ [Draw (List.length (points c)); Save p].
Proof.
  intros Hcall Hfresh.
  destruct (plot_cells_at_iter_disk viridis it lo hi (Some run) sp ow tr w w' p Hcall)
    as (run' & w0 & d & Hres & Hmk & _).
  cbn [or_last_output_path] in Hres. unfold ret in Hres. injection Hres as <- <-.
  assert (Hex : exists_ d (snapshot_dir run sp ++ [snapshot_name it]) && negb ow = false).
  { destruct Hfresh as [->|Hno]; [apply andb_false_r|].
    now rewrite (mkdir_keeps_entries _ _ _ _ Hmk), Hno. }
  destruct (plot_cells_at_iter_rendering viridis it lo hi run sp ow tr w w' p d Hmk Hex Hcall)
    as (c & w1 & ax & Hload & Hplot & Hp & Hw & Hlog).
  exists d, c, w1, ax.
  split; [exact Hmk|]. split; [exact Hload|]. split; [exact Hplot|]. split; [exact Hp|].
  split; [exact (walk_write _ _ _ _ Hw)|].
  unfold plot_cells in Hplot.
  destruct (plot_rows_axes viridis lo hi _ _ _ Hplot) as (Hx & Hy & Ha & Hn).
  split; [exact Hx|]. split; [exact Hy|]. split; [exact Ha|].
  split; [|exact Hlog].
  rewrite Hn, length_combine, <- (load_cells_lengths _ _ _ _ _ Hload).
  simpl. lia.
Qed.

(** X8 on a run with one iteration and no snapshot yet. *)
Lemma plot_cells_at_iter_saves_the_picture_witness :
  exists d c w1 ax w',
    mkdir Sample.not_rendered ["run"; "images"] = Ok d /\
    load_cells 1 (Some ["run"]) {| root := d; log := [] |} = (Ok c, w1) /\
    plot_cells Sample.grey
      (Mpl.set_axis_off (Mpl.set_ylim 0 800 (Mpl.set_xlim 0 800 Mpl.subplots))) c 0 4
    = Ok ax /\
    walk (root w') ["run"; "images"; "snapshot-00000000000000000001.png"]
    = Some (File (Picture {| Mpl.drawn := ax; Mpl.transparent_background := true |})) /\
    List.length (Mpl.patches ax) = List.length (points c).
Proof.
  destruct (plot_cells_at_iter_saves_the_picture Sample.grey 1 0 4 ["run"] None false true
              (Sample.world_of Sample.not_rendered)
              (snd (plot_cells_at_iter Sample.grey 1 0 4 (Some ["run"]) None false true
                      (Sample.world_of Sample.not_rendered)))
              ["run"; "images"; "snapshot-00000000000000000001.png"])
    as (d & c & w1 & ax & Hmk & Hload & Hplot & _ & Hwalk & _ & _ & _ & Hn & _).
  { vm_compute. reflexivity. }
  { right. vm_compute. reflexivity. }
  exists d, c, w1, ax. eexists.
  split; [exact Hmk|]. split; [exact Hload|]. split; [exact Hplot|].
  split; [exact Hwalk|exact Hn].
Defined.

(** X9.  A call of [plot_cells_at_iter] that raises writes no file and
    changes none, and removes nothing: every file is there after the call
    exactly when it was there before, with the content it had, and every
    entry that existed still exists.  Once the run is resolved and the
    directory of the snapshots is made, a call that raises leaves exactly
    the disk with that directory made -- so a failed load or a failed
    drawing leaves the directory behind, without a snapshot in it. *)
Theorem plot_cells_at_iter_failure_writes_nothing (viridis : Mpl.cmap_arg -> Mpl.rgba)
    (it : Z) (lo hi : float) (op sp : option path) (ow tr : bool)
    (w w' : world) (e : exn) :
  plot_cells_at_iter viridis it lo hi op sp ow tr w = (Raise e, w') ->
  (forall q c, walk (root w') q = Some (File c) <-> walk (root w) q = Some (File c)) /\
  (forall q, exists_ (root w) q = true -> exists_ (root w') q = true) /\
  (forall run w1 d,
     or_last_output_path op w = (Ok run, w1) ->
     mkdir (root w) (snapshot_dir run sp) = Ok d ->
     root w' = d).
Proof.
  intros Hcall.
  assert (Hcases : (root w' = root w /\
                    forall run w1 d,
                      or_last_output_path op w = (Ok run, w1) ->
                      mkdir (root w) (snapshot_dir run sp) = Ok d -> False) \/
                   exists run w1 d,
                     or_last_output_path op w = (Ok run, w1) /\
                     mkdir (root w) (snapshot_dir run sp) = Ok d /\ root w' = d).
  { revert Hcall. unfold plot_cells_at_iter.
    unfold bindM at 1.
    destruct (or_last_output_path op w) as [r w1] eqn:Hres.
    destruct (or_last_output_path_effect op w w1 r Hres) as [Hroot _].
    destruct r as [run| |];
      [|intros [= <- <-]; left; split; [exact Hroot|discriminate]|discriminate].
    unfold bindM at 1, disk at 1.
    unfold bindM at 1, lift at 1. rewrite Hroot.
    destruct (mkdir (root w) (snapshot_dir run sp)) as [d| |] eqn:Hmk;
      [|intros [= <- <-]; left; split; [exact Hroot|];
        intros run' w1' d' [= <- <-] Hmk'; rewrite Hmk in Hmk'; discriminate
       |discriminate].
    unfold bindM at 1, set_disk at 1.
    unfold bindM at 1, disk at 1. cbn [root log].
    destruct (exists_ d _ && negb ow); [discriminate|].
    intros Hrest. right. exists run, w1, d. split; [reflexivity|]. split; [exact Hmk|].
    revert Hrest. unfold bindM at 1.
    pose proof (reads_load_cells it (Some run) {| root := d; log := log w1 |}) as Hread.
    destruct (load_cells it (Some run) _) as [[c| |] w2]; cbn [snd root] in Hread;
      [|intros [= <- <-]; exact Hread|discriminate].
    unfold bindM at 1, emit at 1.
    unfold bindM at 1, lift at 1.
    destruct (plot_cells viridis _ c lo hi) as [ax| |];
      [|intros [= <- <-]; exact Hread|discriminate].
    unfold bindM at 1, savefig.
    unfold bindM at 1, emit at 1.
    unfold bindM at 1, disk at 1.
    unfold bindM at 1, lift at 1. cbn [root log].
    destruct (write (root w2) _ _) as [d'| |];
      [discriminate|intros [= <- <-]; exact Hread|discriminate]. }
  destruct Hcases as [[Hsame Hnot]|(run & w1 & d & Hres & Hmk & Hd)].
  - rewrite Hsame. split; [reflexivity|]. split; [auto|].
    intros run w1 d Hres Hmk. destruct (Hnot run w1 d Hres Hmk).
  - rewrite Hd. split; [|split].
    + intros q c. exact (mkdir_keeps_files _ _ _ Hmk q c).
    + intros q. apply exists_incl. exact (mkdir_incl _ _ _ Hmk).
    + intros run' w1' d' Hres' Hmk'. rewrite Hres in Hres'.
      injection Hres' as <- <-. rewrite Hmk in Hmk'. now injection Hmk' as <-.
Qed.

(** X9 on an iteration whose only record has an outline of three
    coordinates: the load fails, and the directory of the snapshots is
    left behind, empty. *)
Lemma plot_cells_at_iter_failure_writes_nothing_witness :
  exists w',
    plot_cells_at_iter Sample.grey 7 0 4 (Some ["run"]) None false true
      (Sample.world_of Sample.odd_outline)
    = (Raise ValueError, w') /\
    walk (root w') ["run"; "images"] = Some (Dir []) /\
    (forall q c,
       walk (root w') q = Some (File c) <-> walk Sample.odd_outline q = Some (File c)).
Proof.
  eexists. split; [vm_compute; reflexivity|]. split; [reflexivity|].
  apply (plot_cells_at_iter_failure_writes_nothing Sample.grey 7 0 4 (Some ["run"]) None
           false true (Sample.world_of Sample.odd_outline) _ ValueError).
  vm_compute. reflexivity.
Defined.

(** ** The order in which the system lists a directory *)

(** X10.  The order in which the entries of a directory are listed does
    not matter: on two disks whose search path lists the same names in
    any order [get_last_output_path] gives the same result, and on two
    disks whose [cells/json] lists the same names in any order
    [get_all_iterations], where it returns, returns the same
    iterations. *)
Theorem listing_order_is_immaterial (search_path run : path) (w w' : world) :
  Permutation (listing (root w) search_path Star) (listing (root w') search_path Star) ->
  Permutation (listing (root w) (run ++ ["cells"; "json"]) Star)
              (listing (root w') (run ++ ["cells"; "json"]) Star) ->
  fst (get_last_output_path search_path w) = fst (get_last_output_path search_path w') /\
  (forall its,
     fst (get_all_iterations (Some run) w) = Ok its ->
     fst (get_all_iterations (Some run) w') = Ok its).
Proof.
  intros Hruns Hits. split.
  - unfold get_last_output_path, bindM, emit, disk, raise, ret, lift, glob. cbn [root log].
    destruct (existsb has_magic search_path); [reflexivity|].
    unfold Py.sorted.
    rewrite (sort_perm_eq String.leb String.leb_total string_leb_trans string_leb_antisym
               _ _ (Permutation_map (fun n => str (search_path ++ [n])) Hruns)).
    destruct (Nat.eqb _ 0); [reflexivity|].
    now destruct (last_item _).
  - intros its. rewrite !get_all_iterations_given. cbn [fst]. unfold glob.
    destruct (existsb has_magic (run ++ ["cells"; "json"])); [discriminate|].
    cbn [Py.bind].
    destruct (traverse _ (map _ (listing (root w) _ _))) as [ns| |] eqn:Hns;
      try discriminate.
    destruct (traverse_perm _ _ _
                (Permutation_map (fun n => str ((run ++ ["cells"; "json"]) ++ [n])) Hits)
                ns Hns) as (ns' & -> & Hp).
    cbn [Py.bind]. unfold Np.sort_ints.
    destruct (forallb Np.in_int64 ns) eqn:Hr; [|discriminate].
    assert (Hr' : forallb Np.in_int64 ns' = true).
    { rewrite forallb_forall in *. intros x Hx. apply Hr.
      exact (Permutation_in x (Permutation_sym Hp) Hx). }
    rewrite Hr'. intros [= <-]. f_equal. symmetry.
    now apply (sort_perm_eq Z.leb Z_leb_total Z_leb_trans Z_leb_antisym).
Qed.

(** X10 on the sample tree and the same entries listed in another
    order. *)
Lemma listing_order_is_immaterial_witness :
  fst (get_last_output_path default_search_path (Sample.world_of Sample.tree))
  = fst (get_last_output_path default_search_path (Sample.world_of Cases.reordered)) /\
  fst (get_all_iterations (Some ["out"; "cr_trichome"; "2024-07-31-T17-34-57"])
         (Sample.world_of Cases.reordered))
  = Ok [1; 3; 5]%Z.
Proof.
  destruct (listing_order_is_immaterial default_search_path
              ["out"; "cr_trichome"; "2024-07-31-T17-34-57"]
              (Sample.world_of Sample.tree) (Sample.world_of Cases.reordered))
    as [Hlast Hits].
  - exact (Permutation_cons_app ["2024-07-31-T17-34-57"; "2024-07-31-T17-34-40"] []
             "2024-07-31-T17-34-27" (Permutation_refl _)).
  - exact (Permutation_cons_app ["00000000000000000003"] ["00000000000000000001"]
             "00000000000000000005" (perm_swap _ _ [])).
  - split; [exact Hlast|]. apply Hits. reflexivity.
Defined.

(** ** The run that is resolved *)

(** X11.  The path [get_last_output_path] returns is an entry of the
    search path: the search path followed by one of the names listed in
    it, and it exists.  (The path is read back from the text [glob]
    returned; the components of the search path and the names in it are
    names a directory entry can have.) *)
Theorem get_last_output_path_is_an_entry (search_path : path) (w : world) (run : path) :
  forallb proper_name search_path = true ->
  forallb proper_name (listing (root w) search_path Star) = true ->
  fst (get_last_output_path search_path w) = Ok run ->
  exists m,
    run = search_path ++ [m] /\
    In m (listing (root w) search_path Star) /\
    name run = m /\
    exists_ (root w) run = true.
Proof.
  intros Hsp Hnames Hrun.
  destruct (get_last_output_path_listed search_path w run Hrun) as (m & Hm & ->).
  rewrite forallb_forall in Hnames.
  rewrite Path_str.
  - exists m. split; [reflexivity|]. split; [exact Hm|].
    split; [apply last_last|exact (listing_exists _ _ _ _ Hm)].
  - rewrite forallb_app, Hsp. cbn [forallb]. now rewrite (Hnames m Hm).
Qed.

(** X11 on the sample tree. *)
Lemma get_last_output_path_is_an_entry_witness :
  exists m,
    ["out"; "cr_trichome"; "2024-07-31-T17-34-57"] = default_search_path ++ [m] /\
    In m (listing Sample.tree default_search_path Star) /\
    name ["out"; "cr_trichome"; "2024-07-31-T17-34-57"] = m /\
    exists_ Sample.tree ["out"; "cr_trichome"; "2024-07-31-T17-34-57"] = true.
Proof.
  exact (get_last_output_path_is_an_entry default_search_path
           (Sample.world_of Sample.tree) _ eq_refl eq_refl eq_refl).
Defined.

(** ** The files of a batch *)

(** X12.  Iterations that differ are saved to files that differ: the
    snapshot names of two numbers of the [int64] range are equal only when
    the numbers are, the iterations of a batch are of that range, and a
    batch over iterations without repetition returns as many paths as
    there are iterations, without repetition. *)
Theorem batch_paths_are_distinct (viridis : Mpl.cmap_arg -> Mpl.rgba)
    (schedule : list nat) (lo hi : float) (op sp : option path) (ow tr : bool)
    (w w1 w2 w' : world) (run : path) (its : list Z) (l : list path) :
  or_last_output_path op w = (Ok run, w1) ->
  get_all_iterations (Some run) w1 = (Ok its, w2) ->
  plot_cells_at_all_iterations viridis schedule lo hi op sp ow tr w = (Ok l, w') ->
  NoDup its ->
  (forall n m, In n its -> In m its -> snapshot_name n = snapshot_name m -> n = m) /\
  List.length l = List.length its /\
  NoDup l.
Proof.
  intros Hres Hits Hbatch Hnd.
  pose proof (get_all_iterations_range _ _ _ _ Hits) as Hrange.
  rewrite forallb_forall in Hrange.
  assert (Hinj : forall n m, In n its -> In m its ->
                             snapshot_name n = snapshot_name m -> n = m).
  { intros n m Hn Hm. apply snapshot_name_inj; auto. }
  rewrite (batch_result_in_order viridis schedule lo hi op sp ow tr w w1 w2 w' run its l
             Hres Hits Hbatch).
  split; [exact Hinj|]. split; [apply length_map|].
  apply NoDup_map_in; [|exact Hnd].
  intros n m Hn Hm E. apply (f_equal (fun p => last p "")) in E.
  rewrite !last_last in E. now apply Hinj.
Qed.

(** X12 on the sample run. *)
Lemma batch_paths_are_distinct_witness :
  exists l,
    fst (plot_cells_at_all_iterations Sample.grey [2; 1; 0] 0 4 None None false true
           (Sample.world_of Sample.tree)) = Ok l /\
    List.length l = 3 /\
    NoDup l.
Proof.
  eexists. split; [vm_compute; reflexivity|].
  refine (proj2 (batch_paths_are_distinct Sample.grey [2; 1; 0] 0 4 None None false true
                   (Sample.world_of Sample.tree) _ _ _
                   ["out"; "cr_trichome"; "2024-07-31-T17-34-57"] [1; 3; 5]%Z _
                   eq_refl eq_refl _ _)).
  - vm_compute. reflexivity.
  - repeat constructor; simpl; intuition discriminate.
Defined.

(** X13.  After a batch for a run that returned, a batch for that run
    with [overwrite=False] and the default directory of the snapshots
    renders nothing: whatever order its workers finish in and whatever
    colour bounds and transparency it is given, it returns the list the
    first batch returned and leaves the disk and the record as they are --
    no cell data is loaded, nothing is drawn, nothing is saved. *)
Theorem batch_again_renders_nothing (viridis : Mpl.cmap_arg -> Mpl.rgba)
    (schedule : list nat) (lo hi : float) (run : path) (ow tr : bool)
    (w w' : world) (l : list path) :
  plot_cells_at_all_iterations viridis schedule lo hi (Some run) None ow tr w = (Ok l, w') ->
  forall schedule' lo' hi' tr',
    plot_cells_at_all_iterations viridis schedule' lo' hi' (Some run) None false tr' w'
    = (Ok l, w').
Proof.
  intros Hfirst schedule' lo' hi' tr'.
  assert (Hres : forall v, or_last_output_path (Some run) v = (Ok run, v)) by reflexivity.
  destruct (get_all_iterations (Some run) w) as [r v] eqn:Hits.
  pose proof Hits as Hgiven. rewrite get_all_iterations_given in Hgiven.
  injection Hgiven as Hr <-.
  destruct r as [its| |];
    [|unfold plot_cells_at_all_iterations, bindM in Hfirst;
      rewrite Hres, Hits in Hfirst; discriminate ..].
  pose proof Hfirst as Hpool.
  rewrite (plot_cells_at_all_iterations_jobs viridis schedule lo hi (Some run) None ow tr
             w w w run its (Hres w) Hits) in Hpool.
  destruct (batch_leaves_snapshots viridis schedule lo hi run ow tr its w w' l Hpool)
    as [Hlist Hthere].
  assert (Hits' : get_all_iterations (Some run) w' = (Ok its, w')).
  { pose proof (get_all_iterations_same_listing run w w' Hlist) as E.
    rewrite Hits in E. cbn [fst] in E.
    rewrite get_all_iterations_given in *. cbn [fst] in E. now rewrite E. }
  rewrite (plot_cells_at_all_iterations_jobs viridis schedule' lo' hi' (Some run) None
             false tr' w' w' w' run its (Hres w') Hits').
  rewrite (pool_short_circuits viridis schedule' lo' hi' run tr' its w' Hthere).
  now rewrite (batch_result_in_order viridis schedule lo hi (Some run) None ow tr
                 w w w w' run its l (Hres w) Hits Hfirst).
Qed.

(** X13 on the sample run: a second batch, its workers finishing in
    another order, changes nothing. *)
Lemma batch_again_renders_nothing_witness :
  exists l w',
    plot_cells_at_all_iterations Sample.grey [2; 1; 0] 0 4
      (Some ["out"; "cr_trichome"; "2024-07-31-T17-34-57"]) None true true
      (Sample.world_of Sample.tree) = (Ok l, w') /\
    plot_cells_at_all_iterations Sample.grey [0; 0; 0] 1 2
      (Some ["out"; "cr_trichome"; "2024-07-31-T17-34-57"]) None false false w'
    = (Ok l, w').
Proof.
  eexists. eexists.
  assert (H : plot_cells_at_all_iterations Sample.grey [2; 1; 0] 0 4
                (Some ["out"; "cr_trichome"; "2024-07-31-T17-34-57"]) None true true
                (Sample.world_of Sample.tree)
              = (Ok (map (fun it => ["out"; "cr_trichome"; "2024-07-31-T17-34-57"; "images";
                                     snapshot_name it]) [1; 3; 5]%Z),
                 snd (plot_cells_at_all_iterations Sample.grey [2; 1; 0] 0 4
                        (Some ["out"; "cr_trichome"; "2024-07-31-T17-34-57"]) None true true
                        (Sample.world_of Sample.tree)))).
  { vm_compute. reflexivity. }
  split; [exact H|].
  exact (batch_again_renders_nothing Sample.grey [2; 1; 0] 0 4
           ["out"; "cr_trichome"; "2024-07-31-T17-34-57"] true true
           (Sample.world_of Sample.tree) _ _ H [0; 0; 0] 1%float 2%float false).
Defined.

(** X14.  A batch that returns distinct paths has saved exactly the
    snapshots that were called for: with [overwrite] set every path it
    returns, otherwise those of the returned paths at which nothing
    existed when the batch began; each of them once, whatever order the
    workers finished in. *)
Theorem batch_saves_what_is_missing (viridis : Mpl.cmap_arg -> Mpl.rgba)
    (schedule : list nat) (lo hi : float) (op sp : option path) (ow tr : bool)
    (w w' : world) (l : list path) :
  plot_cells_at_all_iterations viridis schedule lo hi op sp ow tr w = (Ok l, w') ->
  NoDup l ->
  Permutation (saves (log w'))
    (saves (log w) ++ filter (fun p => ow || negb (exists_ (root w) p)) l) /\
  (ow = true -> Permutation (saves (log w')) (saves (log w) ++ l)).
Proof.
  intros Hbatch Hnd.
  assert (Hmain : Permutation (saves (log w'))
                    (saves (log w) ++ filter (fun p => ow || negb (exists_ (root w) p)) l)).
  { destruct (or_last_output_path op w) as [[run| |] w1] eqn:Hres;
      try (unfold plot_cells_at_all_iterations, bindM in Hbatch;
           rewrite Hres in Hbatch; discriminate).
    destruct (or_last_output_path_effect op w w1 _ Hres) as [Hroot Hlog].
    destruct (get_all_iterations (Some run) w1) as [r v] eqn:Hits.
    pose proof Hits as Hgiven. rewrite get_all_iterations_given in Hgiven.
    injection Hgiven as Hr <-.
    destruct r as [its| |];
      try (unfold plot_cells_at_all_iterations, bindM in Hbatch;
           rewrite Hres, Hits in Hbatch; discriminate).
    pose proof (batch_result_in_order viridis schedule lo hi op sp ow tr w w1 w1 w' run its l
                  Hres Hits Hbatch) as Hl.
    rewrite (plot_cells_at_all_iterations_jobs viridis schedule lo hi op sp ow tr
               w w1 w1 run its Hres Hits) in Hbatch.
    assert (Hnd' : NoDup its) by (rewrite Hl in Hnd; exact (NoDup_map_inv _ _ Hnd)).
    pose proof (pool_saves viridis lo hi run sp ow tr schedule its w1 w' l
                  (get_all_iterations_range _ _ _ _ Hits) Hnd' Hbatch) as Hp.
    rewrite Hroot, <- Hl in Hp.
    replace (saves (log w1)) with (saves (log w)) in Hp; [exact Hp|].
    rewrite Hlog, saves_app. destruct op; cbn; now rewrite app_nil_r. }
  split; [exact Hmain|].
  intros ->. cbn [orb] in Hmain.
  replace (filter (fun _ => true) l) with l in Hmain; [exact Hmain|].
  clear. induction l as [|x r IH]; cbn [filter]; congruence.
Qed.

(** X14 on a run with one iteration: with the snapshot in place nothing
    is saved, without it the snapshot is. *)
Lemma batch_saves_what_is_missing_witness :
  saves (log (snd (plot_cells_at_all_iterations Sample.grey [] 0 4 (Some ["run"]) None
                     false true (Sample.world_of Sample.rendered)))) = [] /\
  Permutation
    (saves (log (snd (plot_cells_at_all_iterations Sample.grey [] 0 4 (Some ["run"]) None
                        false true (Sample.world_of Sample.not_rendered)))))
    [["run"; "images"; "snapshot-00000000000000000001.png"]].
Proof.
  split.
  - apply Permutation_nil. apply Permutation_sym.
    refine (proj1 (batch_saves_what_is_missing Sample.grey [] 0 4 (Some ["run"]) None
                     false true (Sample.world_of Sample.rendered) _
                     [["run"; "images"; "snapshot-00000000000000000001.png"]] _ _)).
    + vm_compute. reflexivity.
    + repeat constructor. simpl. tauto.
  - refine (proj1 (batch_saves_what_is_missing Sample.grey [] 0 4 (Some ["run"]) None
                     false true (Sample.world_of Sample.not_rendered) _
                     [["run"; "images"; "snapshot-00000000000000000001.png"]] _ _)).
    + vm_compute. reflexivity.
    + repeat constructor. simpl. tauto.
Defined.

(** ** The rows of the table *)

(** X15.  The table [load_cells] builds holds the records row by row: for
    record [i] of the records read, [points] holds at [i] the list
    [record["cell"]["mechanics"]["points"]] as an array reshaped to
    points, and [intracellular] holds at [i] the list
    [record["cell"]["intracellular"]] as an array. *)
Theorem table_rows_hold_the_records (results : list json) (c : cells) (i : nat)
    (r : json) :
  to_table results = Ok c ->
  nth_error results i = Some r ->
  (forall x,
     field ["cell"; "mechanics"; "points"] r = Some x -> is_dict x = false ->
     exists m, nth_error (points c) i = Some m /\ reshape_points x = Ok m) /\
  (forall y,
     field ["cell"; "intracellular"] r = Some y -> is_dict y = false ->
     exists a, nth_error (intracellular c) i = Some a /\ Np.array_float y = Ok a).
Proof.
  unfold to_table. intros Ht Hr.
  destruct (Pd.json_normalize results) as [df| |] eqn:Hdf; try discriminate.
  cbn [Py.bind] in Ht.
  destruct (Pd.column df "cell.mechanics.points") as [xs| |] eqn:Hx; try discriminate.
  cbn [Py.bind] in Ht.
  destruct (traverse reshape_points xs) as [pts| |] eqn:Hp; try discriminate.
  cbn [Py.bind] in Ht.
  destruct (Pd.column df "cell.intracellular") as [ys| |] eqn:Hy; try discriminate.
  cbn [Py.bind] in Ht.
  destruct (traverse Np.array_float ys) as [ics| |] eqn:Hi; try discriminate.
  injection Ht as <-. cbn [points intracellular].
  split.
  - intros x Hf Hd.
    pose proof (column_field results df "cell" ["mechanics"; "points"] xs i r x
                  Hdf Hx Hr Hf Hd) as Hnth.
    destruct (proj2 (traverse_ok_nth _ _ _ Hp) i x Hnth) as (m & Hm & Hres).
    now exists m.
  - intros y Hf Hd.
    pose proof (column_field results df "cell" ["intracellular"] ys i r y
                  Hdf Hy Hr Hf Hd) as Hnth.
    destruct (proj2 (traverse_ok_nth _ _ _ Hi) i y Hnth) as (a & Ha & Hres).
    now exists a.
Qed.

(** X15 on two records: the second row holds the second record. *)
Lemma table_rows_hold_the_records_witness :
  exists c m a,
    to_table [Sample.segment; Sample.bright] = Ok c /\
    nth_error (points c) 1 = Some m /\
    reshape_points (JArr (map JNum [7; 8; 9; 10]%float)) = Ok m /\
    nth_error (intracellular c) 1 = Some a /\
    Np.array_float (JArr (map JNum [0; 0; 4; 7]%float)) = Ok a.
Proof.
  assert (H : to_table [Sample.segment; Sample.bright]
              = Ok match to_table [Sample.segment; Sample.bright] with
                   | Ok c => c
                   | _ => {| frame := []; points := []; intracellular := [] |}
                   end).
  { vm_compute. reflexivity. }
  destruct (table_rows_hold_the_records [Sample.segment; Sample.bright] _ 1 Sample.bright
              H eq_refl) as [Hpts Hics].
  destruct (Hpts _ eq_refl eq_refl) as (m & Hm & Hres).
  destruct (Hics _ eq_refl eq_refl) as (a & Ha & Hres').
  eexists. exists m, a.
  split; [exact H|]. split; [exact Hm|]. split; [exact Hres|]. split; [exact Ha|exact Hres'].
Defined.

(** ** The directory of the snapshots *)

(** X16.  The directory of the snapshots is made with its parents, and
    what stands in its way ends the call before any cell data is loaded:
    a file at its path is a [FileExistsError] and a file at a path above
    it a [NotADirectoryError], with nothing changed and nothing recorded;
    after a call that returns, the directory is there. *)
Theorem snapshot_directory_is_made_or_refused (viridis : Mpl.cmap_arg -> Mpl.rgba)
    (it : Z) (lo hi : float) (run : path) (sp : option path) (ow tr : bool) (w : world) :
  (forall c,
     walk (root w) (snapshot_dir run sp) = Some (File c) ->
     plot_cells_at_iter viridis it lo hi (Some run) sp ow tr w = (Raise FileExistsError, w)) /\
  (forall above k below c,
     snapshot_dir run sp = above ++ k :: below ->
     walk (root w) above = Some (File c) ->
     plot_cells_at_iter viridis it lo hi (Some run) sp ow tr w
     = (Raise NotADirectoryError, w)) /\
  (forall p w',
     plot_cells_at_iter viridis it lo hi (Some run) sp ow tr w = (Ok p, w') ->
     exists entries,
       walk (root w') (snapshot_dir run sp) = Some (Dir entries) /\
       In (snapshot_name it) (map fst entries)).
Proof.
  assert (Hraise : forall e,
             mkdir (root w) (snapshot_dir run sp) = Raise e ->
             plot_cells_at_iter viridis it lo hi (Some run) sp ow tr w = (Raise e, w)).
  { intros e He. unfold plot_cells_at_iter.
    unfold bindM at 1. cbn [or_last_output_path]. unfold ret at 1.
    unfold bindM at 1, disk at 1.
    unfold bindM at 1, lift at 1. now rewrite He. }
  split; [|split].
  - intros c Hc. apply Hraise. exact (mkdir_file _ c _ Hc).
  - intros above k below c E Hc. apply Hraise. rewrite E.
    exact (mkdir_below_file above c k below _ Hc).
  - intros p w' H.
    destruct (plot_cells_at_iter_returns viridis it lo hi (Some run) sp ow tr w w' p H)
      as (run' & w1 & Hres & -> & Hex).
    cbn [or_last_output_path] in Hres. unfold ret in Hres. injection Hres as <- <-.
    destruct (walk_parent _ _ _ Hex) as [es Hes]. exists es. split; [exact Hes|].
    apply exists_listdir in Hex. unfold listdir in Hex. rewrite Hes in Hex.
    now apply in_keys_once in Hex.
Qed.

(** X16 on a run in which a file named [images] stands in the way. *)
Lemma snapshot_directory_is_made_or_refused_witness :
  plot_cells_at_iter Sample.grey 1 0 4 (Some ["run"]) None true true
    (Sample.world_of Cases.images_is_a_file)
  = (Raise FileExistsError, Sample.world_of Cases.images_is_a_file) /\
  plot_cells_at_iter Sample.grey 1 0 4 (Some ["run"]) (Some ["run"; "images"; "png"])
    true true (Sample.world_of Cases.images_is_a_file)
  = (Raise NotADirectoryError, Sample.world_of Cases.images_is_a_file).
Proof.
  split.
  - exact (proj1 (snapshot_directory_is_made_or_refused Sample.grey 1 0 4 ["run"] None
                    true true (Sample.world_of Cases.images_is_a_file)) Blob eq_refl).
  - exact (proj1 (proj2 (snapshot_directory_is_made_or_refused Sample.grey 1 0 4 ["run"]
                           (Some ["run"; "images"; "png"]) true true
                           (Sample.world_of Cases.images_is_a_file)))
             ["run"; "images"] "png" [] Blob eq_refl eq_refl).
Defined.

(** ** Values that are not numbers *)

(** X17.  A cell whose third intracellular value is not a number is never
    taken for a cell below the threshold: whatever the bounds are, the
    comparison fails and the colormap is called with [nan].  A [null] in
    the stored vector is such a value. *)
Theorem cell_color_of_nan (viridis : Mpl.cmap_arg -> Mpl.rgba) (lo hi : float) :
  (forall ic,
     Np.getitem_2 ic = Ok nan ->
     cell_color viridis lo hi ic = Ok (viridis (Mpl.CFloat nan))) /\
  (forall a b rest,
     Np.array_float (JArr (JNum a :: JNum b :: JNull :: map JNum rest))
     = Ok (Np.Arr1 (a :: b :: nan :: rest)) /\
     cell_color viridis lo hi (Np.Arr1 (a :: b :: nan :: rest))
     = Ok (viridis (Mpl.CFloat nan))).
Proof.
  assert (H : forall ic, Np.getitem_2 ic = Ok nan ->
                         cell_color viridis lo hi ic = Ok (viridis (Mpl.CFloat nan))).
  { intros ic Hic. unfold cell_color. rewrite Hic. cbn [Py.bind].
    now rewrite ltb_nan, sub_nan, div_nan. }
  split; [exact H|].
  intros a b rest. split; [|now apply H].
  unfold Np.array_float. cbn [Np.scalars Np.scalar]. now rewrite scalars_nums.
Qed.

(** X17 on a stored vector whose third entry is [null]. *)
Lemma cell_color_of_nan_witness :
  Np.array_float (JArr (JNum 0 :: JNum 0 :: JNull :: map JNum [1%float]))
  = Ok (Np.Arr1 [0; 0; nan; 1]%float) /\
  cell_color Sample.grey 0 4 (Np.Arr1 [0; 0; nan; 1]%float)
  = Ok (Sample.grey (Mpl.CFloat nan)).
Proof. exact (proj2 (cell_color_of_nan Sample.grey 0 4) 0%float 0%float [1%float]). Defined.

(** ** The pictures of a batch *)

(** X18.  After a batch with [overwrite] that returns, every path it
    returned holds a picture saved with the transparency asked for, drawn
    on axes from 0 to 800 both ways with the frame off -- also where a
    file of another kind was in place before, and whatever order the
    workers finished in. *)
Theorem batch_overwrite_leaves_pictures (viridis : Mpl.cmap_arg -> Mpl.rgba)
    (schedule : list nat) (lo hi : float) (op sp : option path) (tr : bool)
    (w w' : world) (l : list path) :
  plot_cells_at_all_iterations viridis schedule lo hi op sp true tr w = (Ok l, w') ->
  forall p, In p l -> pictured tr (root w') p.
Proof.
  intros Hbatch p Hp.
  destruct (batch_returns_parts viridis schedule lo hi op sp true tr w w' l Hbatch)
    as (run & w1 & its & _ & _ & Hpool & ->).
  apply in_map_iff in Hp. destruct Hp as (it & <- & Hit).
  exact (pool_pictures viridis lo hi run sp tr schedule its w1 w' _ Hpool it Hit).
Qed.

(** X18 on a run whose snapshot is a file of another kind. *)
Lemma batch_overwrite_leaves_pictures_witness :
  pictured true
    (root (snd (plot_cells_at_all_iterations Sample.grey [] 0 4 (Some ["run"]) None true true
                  (Sample.world_of Sample.rendered))))
    ["run"; "images"; "snapshot-00000000000000000001.png"].
Proof.
  refine (batch_overwrite_leaves_pictures Sample.grey [] 0 4 (Some ["run"]) None true
            (Sample.world_of Sample.rendered) _
            [["run"; "images"; "snapshot-00000000000000000001.png"]] _ _ _).
  - vm_compute. reflexivity.
  - now left.
Defined.

(** ** The script *)

(** X19.  The plotting step of [run_sim.py], when it returns: the run it
    plotted is the one [get_last_output_path] gives for [out/cr_trichome],
    resolved once; the list it returns holds, for the iterations of that
    run in ascending order, the path [images/snapshot-<iteration>.png]
    under the run; every such path holds a picture with a transparent
    background on axes from 0 to 800; and when no iteration is listed
    twice, each of them was saved once, whether or not a snapshot was
    there before. *)
Theorem run_sim_plots_the_latest_run (viridis : Mpl.cmap_arg -> Mpl.rgba)
    (schedule : list nat) (w w' : world) (l : list path) :
  Run_sim.plot_step viridis schedule w = (Ok l, w') ->
  exists run its,
    fst (get_last_output_path default_search_path w) = Ok run /\
    fst (get_all_iterations (Some run) w) = Ok its /\
    StronglySorted Z.le its /\
    l = map (fun it => run ++ ["images"; snapshot_name it]) its /\
    (forall p, In p l -> pictured true (root w') p) /\
    (NoDup its -> Permutation (saves (log w')) (saves (log w) ++ l)) /\
    (exists new,
       log w' = log w ++ Resolve default_search_path :: new /\ resolutions new = 0).
Proof.
  unfold Run_sim.plot_step. intros Hbatch.
  destruct (batch_returns_parts viridis schedule 0 4 None None true true w w' l Hbatch)
    as (run & w1 & its & Hres & Hits & Hpool & Hl).
  destruct (or_last_output_path_effect None w w1 _ Hres) as [Hroot Hlog].
  exists run, its.
  split; [cbn [or_last_output_path] in Hres; now rewrite Hres|].
  split.
  { rewrite (get_all_iterations_same_listing run w1 w); [now rewrite Hits|].
    now rewrite Hroot. }
  split; [exact (get_all_iterations_sorted _ _ _ _ Hits)|].
  split.
  { rewrite Hl. apply map_ext. intros it. cbn [snapshot_dir].
    now rewrite <- app_assoc. }
  split.
  { intros p Hp. rewrite Hl in Hp. apply in_map_iff in Hp. destruct Hp as (it & <- & Hit).
    exact (pool_pictures viridis 0 4 run None true schedule its w1 w' _ Hpool it Hit). }
  split.
  - intros Hnd.
    pose proof (pool_saves viridis 0 4 run None true true schedule its w1 w' l
                  (get_all_iterations_range _ _ _ _ Hits) Hnd Hpool) as Hp.
    cbn [orb] in Hp. rewrite <- Hl in Hp.
    replace (filter (fun _ => true) l) with l in Hp.
    + rewrite Hlog, saves_app in Hp. cbn in Hp. now rewrite app_nil_r in Hp.
    + clear. induction l as [|x r IH]; cbn [filter]; congruence.
  - destruct (counts_imap_list schedule (__plotting_helper viridis)
                (arguments its 0 4 run None true true)) with (w := w1) as (new & Hnew & Hn).
    { intros a Ha. unfold arguments in Ha. apply in_map_iff in Ha.
      destruct Ha as (it & <- & _).
      exact (counts_plot_cells_at_iter viridis it 0 4 (Some run) None true true). }
    rewrite Hpool in Hnew. cbn [snd] in Hnew.
    exists new. split; [|exact Hn].
    rewrite Hnew, Hlog. now rewrite <- app_assoc.
Qed.

(** X19 on the sample tree. *)
Lemma run_sim_plots_the_latest_run_witness :
  exists run its,
    fst (get_last_output_path default_search_path (Sample.world_of Sample.tree)) = Ok run /\
    fst (get_all_iterations (Some run) (Sample.world_of Sample.tree)) = Ok its /\
    StronglySorted Z.le its /\
    fst (Run_sim.plot_step Sample.grey [2; 1; 0] (Sample.world_of Sample.tree))
    = Ok (map (fun it => run ++ ["images"; snapshot_name it]) its).
Proof.
  assert (H : Run_sim.plot_step Sample.grey [2; 1; 0] (Sample.world_of Sample.tree)
              = (Ok (map (fun it => ["out"; "cr_trichome"; "2024-07-31-T17-34-57"; "images";
                                     snapshot_name it]) [1; 3; 5]%Z),
                 snd (Run_sim.plot_step Sample.grey [2; 1; 0]
                        (Sample.world_of Sample.tree)))).
  { vm_compute. reflexivity. }
  destruct (run_sim_plots_the_latest_run Sample.grey [2; 1; 0]
              (Sample.world_of Sample.tree) _ _ H)
    as (run & its & Hrun & Hits & Hsorted & Hl & _).
  exists run, its. split; [exact Hrun|]. split; [exact Hits|]. split; [exact Hsorted|].
  rewrite H. cbn [fst]. now rewrite Hl.
Defined.

(** ** Names in the order of text *)

(** X20.  The zero padding makes the order of text the order of the
    numbers: for iterations from 0 up in the [int64] range, the folder
    name and the snapshot name of a smaller iteration come before those of
    a larger one, so [sorted] leaves the folder names and the snapshot
    names of ascending iterations in the order of the iterations. *)
Theorem padded_names_sort_as_numbers (its : list Z) :
  StronglySorted Z.le its ->
  Forall (fun n => (0 <= n)%Z) its ->
  forallb Np.in_int64 its = true ->
  (forall n m, In n its -> In m its -> (n < m)%Z ->
     String.compare (format_020 n) (format_020 m) = Lt /\
     String.compare (snapshot_name n) (snapshot_name m) = Lt) /\
  Py.sorted (map format_020 its) = map format_020 its /\
  Py.sorted (map snapshot_name its) = map snapshot_name its.
Proof.
  intros Hs Hpos Hrange.
  rewrite Forall_forall in Hpos. rewrite forallb_forall in Hrange.
  assert (Hlt : forall n m, In n its -> In m its -> (n < m)%Z ->
                  String.compare (format_020 n) (format_020 m) = Lt /\
                  String.compare (snapshot_name n) (snapshot_name m) = Lt).
  { intros n m Hn Hm H. split.
    - apply format_020_lt; auto.
    - apply snapshot_name_lt; auto. }
  assert (Hsorted : forall f : Z -> string,
             (forall n m, In n its -> In m its -> (n < m)%Z ->
                          String.compare (f n) (f m) = Lt) ->
             Py.sorted (map f its) = map f its).
  { intros f Hf. unfold Py.sorted.
    apply sort_sorted_id;
      [apply String.leb_total|apply string_leb_trans|apply string_leb_antisym|].
    apply (StronglySorted_map_in Z.le); [|exact Hs].
    intros x y Hx Hy Hle.
    destruct (Z.eq_dec x y) as [->|Hne]; [apply string_leb_refl|].
    apply compare_lt_leb. apply Hf; auto. lia. }
  split; [exact Hlt|]. split; apply Hsorted; intros n m Hn Hm H; now apply Hlt.
Qed.

(** X20 on the iterations 1, 3 and 5. *)
Lemma padded_names_sort_as_numbers_witness :
  Py.sorted (map snapshot_name [1; 3; 5]%Z) = map snapshot_name [1; 3; 5]%Z /\
  String.compare (snapshot_name 3) (snapshot_name 5) = Lt.
Proof.
  assert (Hs : StronglySorted Z.le [1; 3; 5]%Z).
  { repeat constructor; lia. }
  assert (Hp : Forall (fun n => (0 <= n)%Z) [1; 3; 5]%Z).
  { repeat constructor; lia. }
  destruct (padded_names_sort_as_numbers [1; 3; 5]%Z Hs Hp eq_refl) as (Hlt & _ & Hsn).
  split; [exact Hsn|].
  apply Hlt; [right; now left|right; right; now left|lia].
Defined.

(** X21.  The same with the defaults, where the run is resolved anew:
    after a batch with no run and no directory given that returned, a
    batch with [overwrite=False] resolves the same run, returns the list
    the first batch returned, and leaves the disk as it is; all it records
    is the resolution of the run.  (The entries of [out/cr_trichome] are
    taken to have the names entries can have.) *)
Theorem batch_again_with_defaults (viridis : Mpl.cmap_arg -> Mpl.rgba)
    (schedule : list nat) (lo hi : float) (ow tr : bool) (w w' : world) (l : list path) :
  forallb proper_name (listing (root w) default_search_path Star) = true ->
  plot_cells_at_all_iterations viridis schedule lo hi None None ow tr w = (Ok l, w') ->
  forall schedule' lo' hi' tr',
    plot_cells_at_all_iterations viridis schedule' lo' hi' None None false tr' w'
    = (Ok l, {| root := root w'; log := log w' ++ [Resolve default_search_path] |}).
Proof.
  intros Hproper Hfirst schedule' lo' hi' tr'.
  destruct (batch_returns_parts viridis schedule lo hi None None ow tr w w' l Hfirst)
    as (run & w1 & its & Hres & Hits & Hpool & Hl).
  destruct (or_last_output_path_effect None w w1 _ Hres) as [Hroot _].
  cbn [or_last_output_path] in Hres.
  destruct (get_last_output_path_listed default_search_path w run) as (m & Hm & Hrun).
  { now rewrite Hres. }
  rewrite forallb_forall in Hproper.
  rewrite (Path_default_entry m (Hproper m Hm)) in Hrun. subst run.
  assert (Hin : In m (listdir (root w1) default_search_path)).
  { rewrite Hroot. unfold listing in Hm. now apply filter_In in Hm. }
  pose proof (pool_keeps_runs viridis schedule lo hi default_search_path m ow tr its w1 w' l
                Hpool Hin) as Hruns.
  destruct (batch_leaves_snapshots viridis schedule lo hi (default_search_path ++ [m]) ow tr
              its w1 w' l Hpool) as [Hlist Hthere].
  set (v := {| root := root w'; log := log w' ++ [Resolve default_search_path] |}).
  assert (Hres' : or_last_output_path None w' = (Ok (default_search_path ++ [m]), v)).
  { cbn [or_last_output_path].
    pose proof (get_last_output_path_same_listing default_search_path w w') as E.
    rewrite Hruns, Hroot in E. specialize (E eq_refl). rewrite Hres in E. cbn [fst] in E.
    destruct (get_last_output_path default_search_path w') as [r v'] eqn:Hv.
    destruct (or_last_output_path_effect None w' v' r Hv) as [Hroot' Hlog'].
    cbn [fst] in E. subst r. f_equal. unfold v.
    destruct v' as [rt lg]. cbn [root log] in *. now subst. }
  assert (Hits' : get_all_iterations (Some (default_search_path ++ [m])) v = (Ok its, v)).
  { pose proof (get_all_iterations_same_listing (default_search_path ++ [m]) w1 v) as E.
    cbn [root] in E. specialize (E Hlist).
    rewrite Hits in E. cbn [fst] in E.
    rewrite get_all_iterations_given in *. cbn [fst] in E. now rewrite E. }
  rewrite (plot_cells_at_all_iterations_jobs viridis schedule' lo' hi' None None false tr'
             w' v v (default_search_path ++ [m]) its Hres' Hits').
  rewrite (pool_short_circuits viridis schedule' lo' hi' (default_search_path ++ [m]) tr'
             its v Hthere).
  now rewrite Hl.
Qed.

(** X21 on the sample tree. *)
Lemma batch_again_with_defaults_witness :
  exists l w',
    plot_cells_at_all_iterations Sample.grey [2; 1; 0] 0 4 None None false true
      (Sample.world_of Sample.tree) = (Ok l, w') /\
    plot_cells_at_all_iterations Sample.grey [] 0 4 None None false true w'
    = (Ok l, {| root := root w'; log := log w' ++ [Resolve default_search_path] |}).
Proof.
  eexists. eexists.
  assert (H : plot_cells_at_all_iterations Sample.grey [2; 1; 0] 0 4 None None false true
                (Sample.world_of Sample.tree)
              = (Ok (map (fun it => ["out"; "cr_trichome"; "2024-07-31-T17-34-57"; "images";
                                     snapshot_name it]) [1; 3; 5]%Z),
                 snd (plot_cells_at_all_iterations Sample.grey [2; 1; 0] 0 4 None None
                        false true (Sample.world_of Sample.tree)))).
  { vm_compute. reflexivity. }
  split; [exact H|].
  exact (batch_again_with_defaults Sample.grey [2; 1; 0] 0 4 false true
           (Sample.world_of Sample.tree) _ _ eq_refl H [] 0%float 4%float true).
Defined.

(** ** What plotting leaves alone *)

(** X22.  Plotting changes no file but the snapshots: a call of
    [plot_cells_at_iter] that returns leaves every file other than the
    one at the returned path as it was, and a batch that returns leaves
    every file other than those at the returned paths as it was.  The
    shards the simulation wrote are among the files left alone. *)
Theorem plotting_changes_only_the_snapshots (viridis : Mpl.cmap_arg -> Mpl.rgba)
    (lo hi : float) (op sp : option path) (ow tr : bool) (w : world) :
  (forall it p w',
     plot_cells_at_iter viridis it lo hi op sp ow tr w = (Ok p, w') ->
     forall q c, q <> p ->
       (walk (root w') q = Some (File c) <-> walk (root w) q = Some (File c))) /\
  (forall schedule l w',
     plot_cells_at_all_iterations viridis schedule lo hi op sp ow tr w = (Ok l, w') ->
     forall q c, ~ In q l ->
       (walk (root w') q = Some (File c) <-> walk (root w) q = Some (File c))).
Proof.
  split.
  - intros it p w' H. exact (plot_cells_at_iter_frame viridis it lo hi op sp ow tr w w' p H).
  - intros schedule l w' H q c Hq.
    destruct (batch_returns_parts viridis schedule lo hi op sp ow tr w w' l H)
      as (run & w1 & its & Hres & _ & Hpool & _).
    destruct (or_last_output_path_effect op w w1 _ Hres) as [Hroot _].
    rewrite <- Hroot.
    exact (pool_frame viridis schedule lo hi run sp ow tr its w1 w' l Hpool q c Hq).
Qed.

(** X22 on the sample tree: after a batch with [overwrite], the first
    shard of iteration 1 is the document it was. *)
Lemma plotting_changes_only_the_snapshots_witness :
  walk (root (snd (plot_cells_at_all_iterations Sample.grey [2; 1; 0] 0 4 None None true true
                     (Sample.world_of Sample.tree))))
    ["out"; "cr_trichome"; "2024-07-31-T17-34-57"; "cells"; "json";
     "00000000000000000001"; "batch_0.json"]
  = Some (Sample.shard [Sample.segment]).
Proof.
  apply (proj2 (plotting_changes_only_the_snapshots Sample.grey 0 4 None None
                  true true (Sample.world_of Sample.tree))
           [2; 1; 0]
           (map (fun it => ["out"; "cr_trichome"; "2024-07-31-T17-34-57"; "images";
                            snapshot_name it]) [1; 3; 5]%Z)
           (snd (plot_cells_at_all_iterations Sample.grey [2; 1; 0] 0 4 None None true true
                   (Sample.world_of Sample.tree)))
           ltac:(vm_compute; reflexivity)
           ["out"; "cr_trichome"; "2024-07-31-T17-34-57"; "cells"; "json";
            "00000000000000000001"; "batch_0.json"]
           (Doc (JObj [("data", JArr [JObj [("element", JArr [Sample.segment; JNull])]])]))).
  - cbn. intros [H|[H|[H|[]]]]; discriminate H.
  - reflexivity.
Defined.

(** ** Records of two kinds *)

(** X23.  A table in which some records have an outline and some have
    none is refused with [ValueError], not with the [KeyError] of a table
    without outlines: the column exists, the rows without outline hold
    [NaN] in it, and [NaN] cannot be reshaped to points. *)
Theorem outline_missing_in_some_records (results : list json) (df : Pd.DataFrame) :
  Pd.json_normalize results = Ok df ->
  Forall (fun row => match assoc "cell.mechanics.points" row with
                     | Some x => flat x
                     | None => True
                     end) df ->
  Exists (fun row => assoc "cell.mechanics.points" row <> None) df ->
  Exists (fun row => assoc "cell.mechanics.points" row = None) df ->
  Pd.has_column df "cell.mechanics.points" = true /\
  to_table results = Raise ValueError.
Proof.
  intros Hdf Hflat Hsome Hnone.
  assert (Hcol : Pd.has_column df "cell.mechanics.points" = true).
  { unfold Pd.has_column. apply existsb_exists. apply Exists_exists in Hsome.
    destruct Hsome as (row & Hin & Hrow). exists row. split; [exact Hin|].
    destruct (assoc "cell.mechanics.points" row); [reflexivity|contradiction]. }
  split; [exact Hcol|].
  unfold to_table. rewrite Hdf. cbn [Py.bind]. unfold Pd.column. rewrite Hcol.
  cbn [Py.bind].
  rewrite (traverse_first_raise reshape_points ValueError); [reflexivity| |].
  - apply Forall_map. eapply Forall_impl; [|exact Hflat].
    intros row Hrow. cbv beta in *.
    destruct (assoc "cell.mechanics.points" row) as [x|]; [|now right].
    destruct Hrow as [l ->]. apply reshape_points_flat.
  - apply Exists_map. eapply Exists_impl; [|exact Hnone].
    intros row Hrow. cbv beta. now rewrite Hrow.
Qed.

(** X23 on a cell with an outline followed by one without. *)
Lemma outline_missing_in_some_records_witness :
  to_table [Sample.segment; Sample.cell_without_points] = Raise ValueError /\
  to_table [Sample.cell_without_points] = Raise (KeyError (KStr "cell.mechanics.points")).
Proof.
  split; [|reflexivity].
  refine (proj2 (outline_missing_in_some_records
                   [Sample.segment; Sample.cell_without_points] _ eq_refl _ _ _)).
  - repeat constructor. cbn. now exists [1; 2; 3; 4]%float.
  - apply Exists_cons_hd. discriminate.
  - apply Exists_cons_tl. apply Exists_cons_hd. reflexivity.
Defined.
